(** * Reservation and settlement engine of the event-management backend

    A shallow embedding of
    - [src/utils/point.utils.ts] ([calculateUserPointBalance]) and
    - [src/modules/transaction/transaction.service.ts] ([TransactionService])
    together with the properties of the engine that were checked against it.

    Conventions of the embedding.
    - The Prisma client is a record [DB] of tables; a table is the list of
      its rows in insertion order.  A service method is a computation in
      the monad [M]: it receives the database, returns a value or throws,
      and hands back the database it leaves behind.  Every Prisma call
      outside [prisma.$transaction] commits on its own, so what was written
      before a [throw] stays written; [prisma_transaction] restores the
      database it started from when its body throws.
    - [new Date()] is the parameter [now] of a method (milliseconds since
      the epoch); dates are integers.  [setHours] and [setDate] compute in
      the local time of the server process, whose time zone is part of the
      [host] of the database (module [JsDate]).
    - Integer columns (Prisma [Int]) are [Z].  JavaScript computes on
      binary64 numbers: sums, differences, products, [Math.min] and
      [Math.max] of such integers are exact and are written on [Z]; the one
      computation that leaves the integers, the percentage of a voucher, is
      carried out in binary64 (module [JsNumber]).
    - Mail, notifications and QR images are collaborators outside the
      engine; what they store is not part of the state.  A call to one of
      them that is awaited outside [try] resolves or rejects as the [host]
      tells, and a rejection makes the method throw with its earlier
      writes committed; inside [try ... catch] the outcome is dropped and
      the call is left out. *)

From Stdlib Require Import ZArith List String Ascii Bool Lia.
From Stdlib Require Import Permutation Sorted.
From Stdlib Require Import DecimalString SpecFloat.
Import ListNotations.
Open Scope string_scope.
Open Scope list_scope.
Open Scope Z_scope.

(** ** JavaScript numbers (IEEE 754 binary64) *)

Module JsNumber.

Definition prec : Z := 53.
Definition emax : Z := 1024.

(** The binary64 number nearest to an integer (exact below 2^53). *)
Definition of_Z (z : Z) : spec_float := binary_normalize prec emax z 0 false.

Definition div (x y : spec_float) : spec_float := SFdiv prec emax x y.
Definition mul (x y : spec_float) : spec_float := SFmul prec emax x y.

(** [Math.floor] of a finite number, as an integer.  For the 32-bit
    integer columns of the schema the argument is always finite; the
    other classes are sent to 0. *)
Definition floor (x : spec_float) : Z :=
  match x with
  | S754_finite s m e => Z.shiftl (cond_Zopp s (Zpos m)) e
  | _ => 0
  end.

End JsNumber.

(** ** Errors and the service monad *)

Inductive error : Type :=
| ApiError (message : string) (status : Z)
| PrismaError (code : string)
| TypeError (message : string)
| JsError (message : string).

Inductive result (A : Type) : Type :=
| Ok (a : A)
| Throw (e : error).
Arguments Ok {A} a.
Arguments Throw {A} e.

(** ** The host of the server process

    What a method reads or calls besides the tables: the time zone in
    which [Date] computes local time, and the collaborators it awaits,
    whose code is outside the engine ([mailService.sendEmail] and
    [sendEmail] of [lib/mail], [notificationService.createNotification],
    [QRCode.toBuffer]).  An awaited call resolves ([None]) or rejects with
    an error; the host tells which, for the call made at a given time, or
    for a given check-in token. *)

Module Host.
Record t : Type := mk
  { localTZA : Z -> bool -> Z;
    sendEmail : Z -> option error;
    createNotification : Z -> option error;
    toBuffer : string -> option error }.

(** A server on UTC whose collaborators answer. *)
Definition utc : t :=
  mk (fun _ _ => 0) (fun _ => None) (fun _ => None) (fun _ => None).

(** The offset of local time does not change (no daylight saving time,
    no change of zone). *)
Definition fixedOffset (h : t) : Prop :=
  exists offset, forall time isUTC, localTZA h time isUTC = offset.
End Host.

(** ** [Date] in local time

    [localTZA h t isUTC] is ECMAScript's [LocalTZA(t, isUTC)], the offset
    of local time from UTC in milliseconds at the UTC time [t]
    ([isUTC = true]) or at the local time [t].  [d.setHours(d.getHours() +
    n)] and [d.setDate(d.getDate() + n)] take the local time of [d], move
    the hour or the day field by [n] ([MakeTime] and [MakeDay] carry a
    field out of range over arithmetically, so local time moves by [n]
    hours or [n] days) and convert the result back. *)

Module JsDate.
Definition LocalTime (h : Host.t) (t : Z) : Z := t + Host.localTZA h t true.
Definition UTC (h : Host.t) (t : Z) : Z := t - Host.localTZA h t false.

(** The time value of [d] after its local time is moved by [delta]
    milliseconds, [t] being the time value before. *)
Definition addLocal (h : Host.t) (delta t : Z) : Z :=
  UTC h (LocalTime h t + delta).
End JsDate.

(** ** Data model (the columns the engine reads or writes) *)

Inductive TransactionStatus : Type :=
| WAITING_PAYMENT | WAITING_CONFIRMATION | DONE | REJECTED | CANCELLED | EXPIRED.

Inductive DiscountType : Type := PERCENTAGE | FIXED.
Inductive PointType : Type := EARNED | USED.
Inductive Role : Type := CUSTOMER | ORGANIZER.

Definition status_eqb (a b : TransactionStatus) : bool :=
  match a, b with
  | WAITING_PAYMENT, WAITING_PAYMENT
  | WAITING_CONFIRMATION, WAITING_CONFIRMATION
  | DONE, DONE | REJECTED, REJECTED
  | CANCELLED, CANCELLED | EXPIRED, EXPIRED => true
  | _, _ => false
  end.

Definition pointType_eqb (a b : PointType) : bool :=
  match a, b with
  | EARNED, EARNED | USED, USED => true
  | _, _ => false
  end.

Module TicketType.
Record t : Type := mk
  { id : Z; eventId : Z; price : Z;
    totalSeat : Z; availableSeat : Z; sold : Z }.
End TicketType.

Module Event.
Record t : Type := mk
  { id : Z; organizerId : Z; title : string; endDate : option Z }.
End Event.

Module Organizer.
Record t : Type := mk { id : Z; userId : Z }.
End Organizer.

Module User.
Record t : Type := mk { id : Z; role : Role; point : Z }.
End User.

Module Voucher.
Record t : Type := mk
  { id : Z; eventId : Z; code : string;
    discountAmount : Z; discountType : DiscountType;
    startDate : Z; endDate : Z; usageLimit : Z; usedCount : Z }.
End Voucher.

Module Coupon.
Record t : Type := mk
  { id : Z; userId : Z; code : string;
    discountAmount : Z; expiredAt : Z; isUsed : bool }.
End Coupon.

Module Point.
Record t : Type := mk
  { userId : Z; amount : Z; description : string;
    type : PointType; expiredAt : option Z; createdAt : Z }.
End Point.

Module Transaction.
Record t : Type := mk
  { id : Z; userId : Z; eventId : Z; ticketTypeId : Z;
    voucherId : option Z; couponId : option Z;
    ticketQty : Z; totalPrice : Z; pointsUsed : Z; finalPrice : Z;
    expiredAt : Z; status : TransactionStatus;
    paymentProof : option string; rejectionReason : option string;
    updatedAt : Z }.
End Transaction.

Module Attendee.
Record t : Type := mk
  { transactionId : Z; userId : Z; eventId : Z; ticketTypeId : Z;
    qrToken : string; checkedIn : bool; checkedInAt : option Z }.
End Attendee.

(** The database.  [transactionSeq] is the last value handed out by the
    autoincrement sequence of [transactions.id]; [host] is the host of the
    process that reaches the database, which no method changes. *)
Record DB : Type := mkDB
  { ticketTypes : list TicketType.t;
    events : list Event.t;
    organizers : list Organizer.t;
    users : list User.t;
    vouchers : list Voucher.t;
    coupons : list Coupon.t;
    points : list Point.t;
    transactions : list Transaction.t;
    attendees : list Attendee.t;
    transactionSeq : Z;
    host : Host.t }.

Definition set_ticketTypes (v : list TicketType.t) (db : DB) : DB :=
  mkDB v (events db) (organizers db) (users db) (vouchers db) (coupons db)
       (points db) (transactions db) (attendees db) (transactionSeq db) (host db).
Definition set_users (v : list User.t) (db : DB) : DB :=
  mkDB (ticketTypes db) (events db) (organizers db) v (vouchers db) (coupons db)
       (points db) (transactions db) (attendees db) (transactionSeq db) (host db).
Definition set_vouchers (v : list Voucher.t) (db : DB) : DB :=
  mkDB (ticketTypes db) (events db) (organizers db) (users db) v (coupons db)
       (points db) (transactions db) (attendees db) (transactionSeq db) (host db).
Definition set_coupons (v : list Coupon.t) (db : DB) : DB :=
  mkDB (ticketTypes db) (events db) (organizers db) (users db) (vouchers db) v
       (points db) (transactions db) (attendees db) (transactionSeq db) (host db).
Definition set_points (v : list Point.t) (db : DB) : DB :=
  mkDB (ticketTypes db) (events db) (organizers db) (users db) (vouchers db)
       (coupons db) v (transactions db) (attendees db) (transactionSeq db) (host db).
Definition set_transactions (v : list Transaction.t) (db : DB) : DB :=
  mkDB (ticketTypes db) (events db) (organizers db) (users db) (vouchers db)
       (coupons db) (points db) v (attendees db) (transactionSeq db) (host db).
Definition set_attendees (v : list Attendee.t) (db : DB) : DB :=
  mkDB (ticketTypes db) (events db) (organizers db) (users db) (vouchers db)
       (coupons db) (points db) (transactions db) v (transactionSeq db) (host db).
Definition set_transactionSeq (v : Z) (db : DB) : DB :=
  mkDB (ticketTypes db) (events db) (organizers db) (users db) (vouchers db)
       (coupons db) (points db) (transactions db) (attendees db) v (host db).

(** ** The monad of service methods *)

Definition M (A : Type) : Type := DB -> result A * DB.

Definition ret {A} (a : A) : M A := fun db => (Ok a, db).
Definition throw {A} (e : error) : M A := fun db => (Throw e, db).
Definition bind {A B} (m : M A) (f : A -> M B) : M B :=
  fun db =>
    match m db with
    | (Ok a, db') => f a db'
    | (Throw e, db') => (Throw e, db')
    end.

Notation "x <- m ;; k" := (bind m (fun x => k))
  (at level 61, m at next level, right associativity).
Notation "m ;;; k" := (bind m (fun _ => k))
  (at level 61, right associativity).

(** [prisma.$transaction(async (tx) => ...)]: all or nothing. *)
Definition prisma_transaction {A} (body : M A) : M A :=
  fun db =>
    match body db with
    | (Ok a, db') => (Ok a, db')
    | (Throw e, _) => (Throw e, db)
    end.

Definition gets {A} (f : DB -> A) : M A := fun db => (Ok (f db), db).
Definition modify (f : DB -> DB) : M unit := fun db => (Ok tt, f db).
Definition when (b : bool) (m : M unit) : M unit := if b then m else ret tt.

(** [for (const x of xs) { await body(x) }] *)
Fixpoint forEach {A} (xs : list A) (body : A -> M unit) : M unit :=
  match xs with
  | [] => ret tt
  | x :: xs' => body x ;;; forEach xs' body
  end.

(** [await call(...)] of a collaborator, outside [try]: the call resolves,
    or it rejects and the method throws. *)
Definition await (outcome : DB -> option error) : M unit :=
  rejected <- gets outcome ;;
  match rejected with
  | None => ret tt
  | Some e => throw e
  end.

(** Reading a property of the row a relation leads to; of [null], when
    there is no such row, a [TypeError]. *)
Definition deref {A} (relation : DB -> option A) : M A :=
  row <- gets relation ;;
  match row with
  | Some a => ret a
  | None => throw (TypeError "Cannot read properties of null")
  end.

(** ** Prisma table operations *)

Section Table.
Context {R : Type} (key : R -> Z).

(** [findUnique({ where: { id } })] *)
Definition findUnique (k : Z) (rows : list R) : option R :=
  find (fun r => key r =? k) rows.

(** The rows after [update({ where: { id }, data })]: the row
    [findUnique] finds is rewritten. *)
Fixpoint updateRows (k : Z) (f : R -> R) (rows : list R) : list R :=
  match rows with
  | [] => []
  | r :: rest =>
      if key r =? k then f r :: rest else r :: updateRows k f rest
  end.
End Table.

(** [update] rejects with P2025 when the row to update does not exist. *)
Definition update {R} (key : R -> Z) (table : DB -> list R)
    (set : list R -> DB -> DB) (k : Z) (f : R -> R) : M unit :=
  fun db =>
    match findUnique key k (table db) with
    | Some _ => (Ok tt, set (updateRows key k f (table db)) db)
    | None => (Throw (PrismaError "P2025"), db)
    end.

(** JavaScript truthiness of a nullable id and of an optional string. *)
Definition truthy_id (i : option Z) : option Z :=
  match i with
  | Some k => if k =? 0 then None else Some k
  | None => None
  end.

Definition truthy_string (s : option string) : option string :=
  match s with
  | Some EmptyString => None
  | other => other
  end.

Notation "' pat <- m ;; k" :=
  (bind m (fun x => match x with pat => k end))
  (at level 61, pat pattern, m at next level, right associativity).

(** [description: { contains: pat }] (PostgreSQL: case-sensitive). *)
Fixpoint contains (pat s : string) : bool :=
  String.prefix pat s ||
  match s with
  | EmptyString => false
  | String _ s' => contains pat s'
  end.

(** A template literal renders an integer in decimal. *)
Definition string_of_Z (z : Z) : string := NilZero.string_of_int (Z.to_int z).

(** ** [src/utils/point.utils.ts] *)

Module PointUtils.

(** [orderBy: { createdAt: "asc" }]: a stable insertion sort, rows with
    equal [createdAt] stay in insertion order. *)
Fixpoint insertByCreatedAt (p : Point.t) (sorted : list Point.t) : list Point.t :=
  match sorted with
  | [] => [p]
  | q :: rest =>
      if Point.createdAt p <=? Point.createdAt q
      then p :: q :: rest
      else q :: insertByCreatedAt p rest
  end.

Definition orderByCreatedAtAsc (rows : list Point.t) : list Point.t :=
  fold_right insertByCreatedAt [] rows.

Definition ofUserAndType (userId : Z) (ty : PointType) (p : Point.t) : bool :=
  (Point.userId p =? userId) && pointType_eqb (Point.type p) ty.

(** [point.findMany({ where: { userId, type: "EARNED" }, orderBy })] *)
Definition earnedPoints (userId : Z) (db : DB) : list Point.t :=
  orderByCreatedAtAsc (filter (ofUserAndType userId EARNED) (points db)).

(** [point.aggregate({ where: { userId, type: "USED" }, _sum })], with
    [_sum.amount || 0]: the sum over no row is [null], read as 0. *)
Definition usedPointsSum (userId : Z) (db : DB) : Z :=
  fold_right (fun p acc => Point.amount p + acc) 0
             (filter (ofUserAndType userId USED) (points db)).

(** [!point.expiredAt || point.expiredAt > now] *)
Definition notExpired (now : Z) (point : Point.t) : bool :=
  match Point.expiredAt point with
  | None => true
  | Some e => now <? e
  end.

(** One turn of the loop on [(totalUsed, currentBalance)]. *)
Definition fifoStep (now : Z) (st : Z * Z) (point : Point.t) : Z * Z :=
  let '(totalUsed, currentBalance) := st in
  let available := Point.amount point in
  let '(available, totalUsed) :=
    if 0 <? totalUsed
    then let consumed := Z.min available totalUsed in
         (available - consumed, totalUsed - consumed)
    else (available, totalUsed) in
  let currentBalance :=
    if (0 <? available) && notExpired now point
    then currentBalance + available
    else currentBalance in
  (totalUsed, currentBalance).

Definition calculateUserPointBalance (userId now : Z) (db : DB) : Z :=
  let earned := earnedPoints userId db in
  let totalUsed := Z.abs (usedPointsSum userId db) in
  snd (fold_left (fifoStep now) earned (totalUsed, 0)).

(** *** The balance as the specification words it

    These definitions follow the words of the specification and use
    nothing of the code above.  The entries of a user of one type; an
    entry is unexpired when [expiresAt] is null or strictly after now;
    oldest first is the order of strictly increasing [createdAt] (entries
    created at the same time have no oldest); the walk goes through the
    EARNED entries in order with a pool to consume, initially the total
    absolute USED amount: an entry gives up what the pool still asks for,
    and what it has left counts only if it is unexpired. *)
Definition spec_entries (userId : Z) (ty : PointType) (db : DB) : list Point.t :=
  filter (fun p =>
            (Point.userId p =? userId)
            && match Point.type p, ty with
               | EARNED, EARNED | USED, USED => true
               | _, _ => false
               end) (points db).

Definition spec_unexpired (now : Z) (e : Point.t) : bool :=
  match Point.expiredAt e with
  | None => true
  | Some expiresAt => expiresAt >? now
  end.

Definition spec_oldestFirst (entries ordered : list Point.t) : Prop :=
  Permutation entries ordered
  /\ StronglySorted (fun a b => Point.createdAt a < Point.createdAt b) ordered.

Fixpoint spec_walk (now pool : Z) (earned : list Point.t) : Z :=
  match earned with
  | [] => 0
  | e :: rest =>
      let taken := Z.min (Point.amount e) pool in
      let left := Point.amount e - taken in
      (if spec_unexpired now e then left else 0)
      + spec_walk now (pool - taken) rest
  end.

Definition spec_totalUsed (userId : Z) (db : DB) : Z :=
  fold_right (fun p acc => Z.abs (Point.amount p) + acc) 0
             (spec_entries userId USED db).

(** The balance of the specification, [oldestFirst] being the EARNED
    entries of the user in that order. *)
Definition spec_balance (userId now : Z) (db : DB) (oldestFirst : list Point.t)
  : Z :=
  spec_walk now (spec_totalUsed userId db) oldestFirst.

(** *** getExpiringPoints

    [warningThreshold.setDate(now.getDate() + days)] moves the local date
    of [warningThreshold] by [days] days; [now] and [warningThreshold] are
    the same reading of the clock.  The result is the pair
    [(expiringAmount, nearestExpiryDate)]. *)

Definition oneDay : Z := 24 * 60 * 60 * 1000.

(** One turn of the loop on [(totalUsed, expiringAmount, nearestExpiryDate)]. *)
Definition expiringStep (now warningThreshold : Z) (st : Z * Z * option Z)
    (point : Point.t) : Z * Z * option Z :=
  let '(totalUsed, expiringAmount, nearestExpiryDate) := st in
  let available := Point.amount point in
  let '(available, totalUsed) :=
    if 0 <? totalUsed
    then let consumed := Z.min available totalUsed in
         (available - consumed, totalUsed - consumed)
    else (available, totalUsed) in
  if 0 <? available
  then
    match Point.expiredAt point with
    | Some e =>
        if (now <? e) && (e <=? warningThreshold)
        then (totalUsed, expiringAmount + available,
              match nearestExpiryDate with
              | None => Some e
              | Some d => if e <? d then Some e else Some d
              end)
        else (totalUsed, expiringAmount, nearestExpiryDate)
    | None => (totalUsed, expiringAmount, nearestExpiryDate)
    end
  else (totalUsed, expiringAmount, nearestExpiryDate).

Definition getExpiringPoints (userId days now : Z) (db : DB) : Z * option Z :=
  let earned := earnedPoints userId db in
  let totalUsed := Z.abs (usedPointsSum userId db) in
  let warningThreshold := JsDate.addLocal (host db) (days * oneDay) now in
  let '(_, expiringAmount, nearestExpiryDate) :=
    fold_left (expiringStep now warningThreshold) earned (totalUsed, 0, None) in
  (expiringAmount, nearestExpiryDate).

(** The EARNED total of a user, and what of it is unexpired and positive. *)
Definition earnedTotal (userId : Z) (db : DB) : Z :=
  fold_right (fun p acc => Point.amount p + acc) 0
             (filter (ofUserAndType userId EARNED) (points db)).

Definition unexpiredEarned (userId now : Z) (db : DB) : Z :=
  fold_right (fun p acc =>
                (if notExpired now p then Z.max 0 (Point.amount p) else 0) + acc) 0
             (filter (ofUserAndType userId EARNED) (points db)).

(** No EARNED entry of the user has expired at [now]. *)
Definition noneExpired (userId now : Z) (db : DB) : bool :=
  forallb (fun p => negb (ofUserAndType userId EARNED p) || notExpired now p)
          (points db).

End PointUtils.

(** ** [src/modules/transaction/transaction.service.ts] *)

Module CreateTransactionBody.
Record t : Type := mk
  { ticketTypeId : Z; quantity : Z;
    voucherCode : option string; couponCode : option string;
    pointsToUse : option Z }.
End CreateTransactionBody.

Module CheckInResult.
Record t : Type := mk
  { success : bool; message : string; event : string;
    checkedInAt : option Z }.
End CheckInResult.

Module Ticket.
Record t : Type := mk
  { qrToken : string; checkedIn : bool; checkedInAt : option Z }.
End Ticket.

Module TicketsResult.
Record t : Type := mk
  { transactionId : Z; ticketQty : Z; tickets : list Ticket.t }.
End TicketsResult.

Module TransactionService.

(** Two hours and three days of local time, in milliseconds. *)
Definition twoHours : Z := 2 * 60 * 60 * 1000.
Definition threeDays : Z := 3 * 24 * 60 * 60 * 1000.

(** [include: { event: true }]: the row a foreign key points to. *)
Definition includeEvent (eventId : Z) : M Event.t :=
  event <- gets (fun db => findUnique Event.id eventId (events db)) ;;
  match event with
  | Some e => ret e
  | None => throw (PrismaError "P2025")
  end.

(** Column setters of the updates below. *)
Definition reserveSeats (quantity : Z) (tt : TicketType.t) : TicketType.t :=
  TicketType.mk (TicketType.id tt) (TicketType.eventId tt) (TicketType.price tt)
    (TicketType.totalSeat tt)
    (TicketType.availableSeat tt - quantity) (TicketType.sold tt + quantity).

Definition releaseSeats (quantity : Z) (tt : TicketType.t) : TicketType.t :=
  TicketType.mk (TicketType.id tt) (TicketType.eventId tt) (TicketType.price tt)
    (TicketType.totalSeat tt)
    (TicketType.availableSeat tt + quantity) (TicketType.sold tt - quantity).

Definition addUsedCount (d : Z) (v : Voucher.t) : Voucher.t :=
  Voucher.mk (Voucher.id v) (Voucher.eventId v) (Voucher.code v)
    (Voucher.discountAmount v) (Voucher.discountType v)
    (Voucher.startDate v) (Voucher.endDate v) (Voucher.usageLimit v)
    (Voucher.usedCount v + d).

Definition setIsUsed (b : bool) (c : Coupon.t) : Coupon.t :=
  Coupon.mk (Coupon.id c) (Coupon.userId c) (Coupon.code c)
    (Coupon.discountAmount c) (Coupon.expiredAt c) b.

Definition addPoint (d : Z) (u : User.t) : User.t :=
  User.mk (User.id u) (User.role u) (User.point u + d).

(** Every [transaction.update] also stamps [updatedAt] (Prisma
    [@updatedAt]). *)
Definition setStatus (s : TransactionStatus) (now : Z) (t : Transaction.t)
  : Transaction.t :=
  Transaction.mk (Transaction.id t) (Transaction.userId t)
    (Transaction.eventId t) (Transaction.ticketTypeId t)
    (Transaction.voucherId t) (Transaction.couponId t)
    (Transaction.ticketQty t) (Transaction.totalPrice t)
    (Transaction.pointsUsed t) (Transaction.finalPrice t)
    (Transaction.expiredAt t) s
    (Transaction.paymentProof t) (Transaction.rejectionReason t) now.

Definition setPaymentProof (proof : string) (t : Transaction.t) : Transaction.t :=
  Transaction.mk (Transaction.id t) (Transaction.userId t)
    (Transaction.eventId t) (Transaction.ticketTypeId t)
    (Transaction.voucherId t) (Transaction.couponId t)
    (Transaction.ticketQty t) (Transaction.totalPrice t)
    (Transaction.pointsUsed t) (Transaction.finalPrice t)
    (Transaction.expiredAt t) (Transaction.status t)
    (Some proof) (Transaction.rejectionReason t) (Transaction.updatedAt t).

(** [rejectionReason: reason]: an [undefined] reason leaves the column. *)
Definition setRejectionReason (reason : option string) (t : Transaction.t)
  : Transaction.t :=
  Transaction.mk (Transaction.id t) (Transaction.userId t)
    (Transaction.eventId t) (Transaction.ticketTypeId t)
    (Transaction.voucherId t) (Transaction.couponId t)
    (Transaction.ticketQty t) (Transaction.totalPrice t)
    (Transaction.pointsUsed t) (Transaction.finalPrice t)
    (Transaction.expiredAt t) (Transaction.status t)
    (Transaction.paymentProof t)
    (match reason with Some r => Some r | None => Transaction.rejectionReason t end)
    (Transaction.updatedAt t).

Definition setCheckedIn (now : Z) (a : Attendee.t) : Attendee.t :=
  Attendee.mk (Attendee.transactionId a) (Attendee.userId a)
    (Attendee.eventId a) (Attendee.ticketTypeId a) (Attendee.qrToken a)
    true (Some now).

Definition updateTransaction (k : Z) (f : Transaction.t -> Transaction.t)
  : M Transaction.t :=
  update Transaction.id transactions set_transactions k f ;;;
  row <- gets (fun db => findUnique Transaction.id k (transactions db)) ;;
  match row with
  | Some t => ret t
  | None => throw (PrismaError "P2025")
  end.

(** *** createTransaction *)

(** Step 3: the discount of a voucher on [subtotal]. *)
Definition voucherDiscountOf (subtotal : Z) (voucher : Voucher.t) : Z :=
  match Voucher.discountType voucher with
  | PERCENTAGE =>
      JsNumber.floor
        (JsNumber.mul (JsNumber.of_Z subtotal)
           (JsNumber.div (JsNumber.of_Z (Voucher.discountAmount voucher))
                         (JsNumber.of_Z 100)))
  | FIXED => Z.min (Voucher.discountAmount voucher) subtotal
  end.

Definition voucherMatches (eventId now : Z) (code : string) (v : Voucher.t) : bool :=
  (Voucher.eventId v =? eventId) && String.eqb (Voucher.code v) code
  && (Voucher.startDate v <=? now) && (now <=? Voucher.endDate v).

Definition applyVoucher (eventId now subtotal : Z) (voucherCode : option string)
  : M (Z * option Z) :=
  match truthy_string voucherCode with
  | None => ret (0, None)
  | Some code =>
      voucher <- gets (fun db => find (voucherMatches eventId now code) (vouchers db)) ;;
      match voucher with
      | Some v =>
          if Voucher.usageLimit v <=? Voucher.usedCount v
          then throw (ApiError "Voucher usage limit exceeded" 400)
          else ret (voucherDiscountOf subtotal v, Some (Voucher.id v))
      | None => throw (ApiError "Invalid or expired voucher" 400)
      end
  end.

Definition couponMatches (userId now : Z) (code : string) (c : Coupon.t) : bool :=
  (Coupon.userId c =? userId) && String.eqb (Coupon.code c) code
  && (now <=? Coupon.expiredAt c) && negb (Coupon.isUsed c).

Definition isOrganizerRole (u : option User.t) : bool :=
  match u with
  | Some u => match User.role u with ORGANIZER => true | CUSTOMER => false end
  | None => false
  end.

(** Step 4: the coupon, priced on what the voucher left. *)
Definition applyCoupon (userId now subtotal voucherDiscount : Z)
    (couponCode : option string) : M (Z * option Z) :=
  match truthy_string couponCode with
  | None => ret (0, None)
  | Some code =>
      coupon <- gets (fun db => find (couponMatches userId now code) (coupons db)) ;;
      match coupon with
      | None => throw (ApiError "Invalid or expired coupon" 400)
      | Some c =>
          userWithRole <- gets (fun db => findUnique User.id userId (users db)) ;;
          if isOrganizerRole userWithRole
          then throw (ApiError "Referral reward is only available for customers" 400)
          else ret (Z.min (Coupon.discountAmount c) (subtotal - voucherDiscount),
                    Some (Coupon.id c))
      end
  end.

(** The guard "Prevent organizer from buying their own event". *)
Definition ownEventGuard (userId : Z) (event : Event.t) : M unit :=
  if Event.organizerId event =? 0 then ret tt
  else
    organizer <- gets (fun db =>
      findUnique Organizer.id (Event.organizerId event) (organizers db)) ;;
    match organizer with
    | Some o =>
        if Organizer.userId o =? userId
        then throw (ApiError "You cannot purchase tickets for your own event" 403)
        else ret tt
    | None => ret tt
    end.

Definition usedPointEntry (userId pointsToDeduct now : Z) (eventTitle : string)
  : Point.t :=
  Point.mk userId (- pointsToDeduct)
    (String.append "Used for transaction on event: " eventTitle)
    USED None now.

Definition insertTransaction (mkRow : Z -> Transaction.t) : M Transaction.t :=
  id <- gets (fun db => transactionSeq db + 1) ;;
  modify (fun db =>
    set_transactionSeq id (set_transactions (transactions db ++ [mkRow id]) db)) ;;;
  ret (mkRow id).

Definition createTransaction (userId eventId : Z)
    (body : CreateTransactionBody.t) (now : Z) : M Transaction.t :=
  let ticketTypeId := CreateTransactionBody.ticketTypeId body in
  let quantity := CreateTransactionBody.quantity body in
  let voucherCode := CreateTransactionBody.voucherCode body in
  let couponCode := CreateTransactionBody.couponCode body in
  let pointsToUse :=
    match CreateTransactionBody.pointsToUse body with Some p => p | None => 0 end in
  if quantity <=? 0 then throw (ApiError "Quantity must be greater than 0" 400)
  else if pointsToUse <? 0
  then throw (ApiError "Points to use cannot be negative" 400)
  else prisma_transaction (
    ticketTypeRelation <- gets (fun db =>
      findUnique TicketType.id ticketTypeId (ticketTypes db)) ;;
    match ticketTypeRelation with
    | None => throw (ApiError "Ticket type not found" 404)
    | Some ticketType =>
    event <- includeEvent (TicketType.eventId ticketType) ;;
    if negb (TicketType.eventId ticketType =? eventId)
    then throw (ApiError "Ticket type does not belong to this event" 400)
    else
    ownEventGuard userId event ;;;
    if TicketType.availableSeat ticketType <? quantity
    then throw (ApiError "Not enough seats available" 400)
    else
    let subtotal := TicketType.price ticketType * quantity in
    '(voucherDiscount, voucherId) <- applyVoucher eventId now subtotal voucherCode ;;
    '(couponDiscount, couponId) <-
       applyCoupon userId now subtotal voucherDiscount couponCode ;;
    user <- gets (fun db => findUnique User.id userId (users db)) ;;
    match user with
    | None => throw (ApiError "User not found" 404)
    | Some _ =>
    availablePoints <- gets (PointUtils.calculateUserPointBalance userId now) ;;
    if availablePoints <? pointsToUse
    then throw (ApiError
           (String.append "Insufficient valid points. Available: "
                          (string_of_Z availablePoints)) 400)
    else
    let pointsToDeduct :=
      Z.min (Z.min pointsToUse availablePoints)
            (subtotal - voucherDiscount - couponDiscount) in
    let finalPrice :=
      Z.max 0 (subtotal - voucherDiscount - couponDiscount - pointsToDeduct) in
    update TicketType.id ticketTypes set_ticketTypes ticketTypeId
           (reserveSeats quantity) ;;;
    match truthy_id voucherId with
    | Some v => update Voucher.id vouchers set_vouchers v (addUsedCount 1)
    | None => ret tt
    end ;;;
    match truthy_id couponId with
    | Some c => update Coupon.id coupons set_coupons c (setIsUsed true)
    | None => ret tt
    end ;;;
    when (0 <? pointsToDeduct) (
      update User.id users set_users userId (addPoint (- pointsToDeduct)) ;;;
      modify (fun db =>
        set_points (points db ++
          [usedPointEntry userId pointsToDeduct now (Event.title event)]) db)) ;;;
    expiredAt <- gets (fun db => JsDate.addLocal (host db) twoHours now) ;;
    insertTransaction (fun id =>
      Transaction.mk id userId eventId ticketTypeId voucherId couponId
        quantity subtotal pointsToDeduct finalPrice
        expiredAt WAITING_PAYMENT None None now)
    end end).

(** *** rollbackTransaction (private helper) *)

Definition isUsedEntryOf (t : Transaction.t) (p : Point.t) : bool :=
  (Point.userId p =? Transaction.userId t)
  && pointType_eqb (Point.type p) USED
  && contains "transaction on event" (Point.description p)
  && (Point.amount p =? - Transaction.pointsUsed t).

Definition rollbackTransaction (transactionId : Z) : M unit :=
  prisma_transaction (
    transaction <- gets (fun db =>
      findUnique Transaction.id transactionId (transactions db)) ;;
    match transaction with
    | None => throw (ApiError "Transaction not found" 404)
    | Some t =>
    update TicketType.id ticketTypes set_ticketTypes (Transaction.ticketTypeId t)
           (releaseSeats (Transaction.ticketQty t)) ;;;
    match truthy_id (Transaction.voucherId t) with
    | Some v => update Voucher.id vouchers set_vouchers v (addUsedCount (-1))
    | None => ret tt
    end ;;;
    match truthy_id (Transaction.couponId t) with
    | Some c => update Coupon.id coupons set_coupons c (setIsUsed false)
    | None => ret tt
    end ;;;
    when (0 <? Transaction.pointsUsed t) (
      update User.id users set_users (Transaction.userId t)
             (addPoint (Transaction.pointsUsed t)) ;;;
      modify (fun db =>
        set_points (filter (fun p => negb (isUsedEntryOf t p)) (points db)) db))
    end).

(** *** uploadPaymentProof *)

(** [event.organizer.user] of the event [eventId], when every row on the
    way exists. *)
Definition organizerUserOf (eventId : Z) (db : DB) : option User.t :=
  match findUnique Event.id eventId (events db) with
  | Some event =>
      match findUnique Organizer.id (Event.organizerId event) (organizers db) with
      | Some organizer => findUnique User.id (Organizer.userId organizer) (users db)
      | None => None
      end
  | None => None
  end.

(** [transaction.user] *)
Definition userOf (t : Transaction.t) (db : DB) : option User.t :=
  findUnique User.id (Transaction.userId t) (users db).

(** The update commits on its own.  Then the organizer's user is read
    off the updated row ([updatedTransaction.event.organizer.user.id]),
    the customer's name goes into the message, and the notification is
    awaited outside [try]; the mail to the organizer is sent inside
    [try ... catch]. *)
Definition uploadPaymentProof (transactionId userId : Z) (paymentProof : string)
    (now : Z) : M Transaction.t :=
  transaction <- gets (fun db =>
    findUnique Transaction.id transactionId (transactions db)) ;;
  match transaction with
  | None => throw (ApiError "Transaction not found" 404)
  | Some t =>
  if negb (Transaction.userId t =? userId)
  then throw (ApiError "You don't have permission to update this transaction" 403)
  else if negb (status_eqb (Transaction.status t) WAITING_PAYMENT)
  then throw (ApiError "Transaction is not in waiting payment status" 400)
  else if Transaction.expiredAt t <? now
  then rollbackTransaction transactionId ;;;
       throw (ApiError "Payment deadline has expired" 400)
  else
  updatedTransaction <- updateTransaction transactionId
    (fun t => setStatus WAITING_CONFIRMATION now (setPaymentProof paymentProof t)) ;;
  deref (organizerUserOf (Transaction.eventId updatedTransaction)) ;;;
  deref (userOf updatedTransaction) ;;;
  await (fun db => Host.createNotification (host db) now) ;;;
  ret updatedTransaction
  end.

(** *** confirmTransaction *)

(** [crypto.randomBytes(size)] reads [size] bytes off a draw of the
    generator; [entropy i] is the draw of the [i]-th call. *)
Fixpoint randomBytes (size : nat) (draw : N) : list Byte.byte :=
  match size with
  | O => []
  | S n =>
      match Byte.of_N (draw mod 256)%N with
      | Some b => b
      | None => Byte.x00
      end :: randomBytes n (draw / 256)%N
  end.

Definition hexDigit (d : N) : ascii :=
  match String.get (N.to_nat d) "0123456789abcdef" with
  | Some c => c
  | None => "0"%char
  end.

(** [buffer.toString("hex")] *)
Fixpoint toHex (buffer : list Byte.byte) : string :=
  match buffer with
  | [] => EmptyString
  | b :: rest =>
      String (hexDigit (Byte.to_N b / 16)%N)
        (String (hexDigit (Byte.to_N b mod 16)%N) (toHex rest))
  end.

(** [attendee.create]: [qrToken] carries a unique index
    ([attendees_qrToken_key]); a duplicate is rejected with P2002. *)
Definition createAttendee (a : Attendee.t) : M unit :=
  fun db =>
    if existsb (fun b => String.eqb (Attendee.qrToken b) (Attendee.qrToken a))
               (attendees db)
    then (Throw (PrismaError "P2002"), db)
    else (Ok tt, set_attendees (attendees db ++ [a]) db).

Definition findOrganizerByUser (userId : Z) (db : DB) : option Organizer.t :=
  find (fun o => Organizer.userId o =? userId) (organizers db).

(** After the update and the attendee rows, each committed on its own: a
    QR image is awaited for every attendee, the two mails are sent inside
    [try ... catch], and the notification of the customer
    ([updatedTransaction.user.id]) is awaited outside [try]. *)
Definition confirmTransaction (transactionId organizerId : Z)
    (entropy : nat -> N) (now : Z) : M Transaction.t :=
  organizer <- gets (findOrganizerByUser organizerId) ;;
  match organizer with
  | None => throw (ApiError "Organizer not found" 404)
  | Some organizer =>
  transaction <- gets (fun db =>
    findUnique Transaction.id transactionId (transactions db)) ;;
  match transaction with
  | None => throw (ApiError "Transaction not found" 404)
  | Some t =>
  event <- includeEvent (Transaction.eventId t) ;;
  if negb (Event.organizerId event =? Organizer.id organizer)
  then throw (ApiError "You don't have permission to confirm this transaction" 403)
  else if negb (status_eqb (Transaction.status t) WAITING_CONFIRMATION)
  then throw (ApiError "Transaction is not in waiting confirmation status" 400)
  else
  updatedTransaction <- updateTransaction transactionId (setStatus DONE now) ;;
  forEach (seq 0 (Z.to_nat (Transaction.ticketQty updatedTransaction)))
    (fun i =>
       let qrToken := toHex (randomBytes 32 (entropy i)) in
       createAttendee
         (Attendee.mk (Transaction.id updatedTransaction)
            (Transaction.userId updatedTransaction)
            (Transaction.eventId updatedTransaction)
            (Transaction.ticketTypeId updatedTransaction)
            qrToken false None)) ;;;
  forEach (seq 0 (Z.to_nat (Transaction.ticketQty updatedTransaction)))
    (fun i =>
       await (fun db =>
         Host.toBuffer (host db) (toHex (randomBytes 32 (entropy i))))) ;;;
  deref (userOf updatedTransaction) ;;;
  await (fun db => Host.createNotification (host db) now) ;;;
  ret updatedTransaction
  end end.

(** *** rejectTransaction, cancelTransaction

    Both methods roll back, update the row, and then await a mail outside
    [try]: [rejectTransaction] to the customer
    ([updatedTransaction.user.email]), followed by the notification of the
    customer; [cancelTransaction] to the organizer's user
    ([updatedTransaction.event.organizer.user.email]). *)

Definition rejectTransaction (transactionId organizerId : Z)
    (reason : option string) (now : Z) : M Transaction.t :=
  organizer <- gets (findOrganizerByUser organizerId) ;;
  match organizer with
  | None => throw (ApiError "Organizer not found" 404)
  | Some organizer =>
  transaction <- gets (fun db =>
    findUnique Transaction.id transactionId (transactions db)) ;;
  match transaction with
  | None => throw (ApiError "Transaction not found" 404)
  | Some t =>
  event <- includeEvent (Transaction.eventId t) ;;
  if negb (Event.organizerId event =? Organizer.id organizer)
  then throw (ApiError "You don't have permission to reject this transaction" 403)
  else if negb (status_eqb (Transaction.status t) WAITING_CONFIRMATION)
  then throw (ApiError "Transaction is not in waiting confirmation status" 400)
  else
  rollbackTransaction transactionId ;;;
  updatedTransaction <- updateTransaction transactionId
    (fun t => setStatus REJECTED now (setRejectionReason reason t)) ;;
  deref (userOf updatedTransaction) ;;;
  await (fun db => Host.sendEmail (host db) now) ;;;
  await (fun db => Host.createNotification (host db) now) ;;;
  ret updatedTransaction
  end end.

Definition cancelTransaction (transactionId userId now : Z) : M Transaction.t :=
  transaction <- gets (fun db =>
    findUnique Transaction.id transactionId (transactions db)) ;;
  match transaction with
  | None => throw (ApiError "Transaction not found" 404)
  | Some t =>
  if negb (Transaction.userId t =? userId)
  then throw (ApiError "You don't have permission to cancel this transaction" 403)
  else if negb (status_eqb (Transaction.status t) WAITING_PAYMENT
                || status_eqb (Transaction.status t) WAITING_CONFIRMATION)
  then throw (ApiError "Transaction cannot be cancelled at this stage" 400)
  else
  rollbackTransaction transactionId ;;;
  updatedTransaction <- updateTransaction transactionId (setStatus CANCELLED now) ;;
  deref (organizerUserOf (Transaction.eventId updatedTransaction)) ;;;
  await (fun db => Host.sendEmail (host db) now) ;;;
  ret updatedTransaction
  end.

(** *** Expiry on the read paths and the two sweeps *)

Definition isExpiredWaiting (now : Z) (t : Transaction.t) : bool :=
  status_eqb (Transaction.status t) WAITING_PAYMENT
  && (Transaction.expiredAt t <? now).

Definition rollbackAndMark (s : TransactionStatus) (now : Z) (t : Transaction.t)
  : M unit :=
  rollbackTransaction (Transaction.id t) ;;;
  updateTransaction (Transaction.id t) (setStatus s now) ;;;
  ret tt.

(** The rows of the user; pagination and the DTO mapping are left out. *)
Definition getMyTransactions (userId now : Z) : M (list Transaction.t) :=
  expiredWaiting <- gets (fun db =>
    filter (fun t => (Transaction.userId t =? userId) && isExpiredWaiting now t)
           (transactions db)) ;;
  forEach expiredWaiting (rollbackAndMark EXPIRED now) ;;;
  gets (fun db => filter (fun t => Transaction.userId t =? userId) (transactions db)).

Definition getTransactionById (transactionId userId now : Z) : M Transaction.t :=
  existing <- gets (fun db =>
    findUnique Transaction.id transactionId (transactions db)) ;;
  match existing with
  | Some e => when (isExpiredWaiting now e) (rollbackAndMark EXPIRED now e)
  | None => ret tt
  end ;;;
  transaction <- gets (fun db =>
    findUnique Transaction.id transactionId (transactions db)) ;;
  match transaction with
  | None => throw (ApiError "Transaction not found" 404)
  | Some t =>
  event <- includeEvent (Transaction.eventId t) ;;
  organizer <- gets (findOrganizerByUser userId) ;;
  if negb (Transaction.userId t =? userId)
     && match organizer with
        | None => true
        | Some o => negb (Event.organizerId event =? Organizer.id o)
        end
  then throw (ApiError "You don't have permission to view this transaction" 403)
  else ret t
  end.

Definition expireTransactions (now : Z) : M Z :=
  expiredTransactions <- gets (fun db =>
    filter (isExpiredWaiting now) (transactions db)) ;;
  forEach expiredTransactions (rollbackAndMark EXPIRED now) ;;;
  ret (Z.of_nat (List.length expiredTransactions)).

(** [threeDaysAgo.setDate(threeDaysAgo.getDate() - 3)] *)
Definition threeDaysAgo (now : Z) (db : DB) : Z :=
  JsDate.addLocal (host db) (- threeDays) now.

Definition cancelTransactions (now : Z) : M Z :=
  threeDaysAgo <- gets (threeDaysAgo now) ;;
  cancelledTransactions <- gets (fun db =>
    filter (fun t => status_eqb (Transaction.status t) WAITING_CONFIRMATION
                     && (Transaction.updatedAt t <? threeDaysAgo))
           (transactions db)) ;;
  forEach cancelledTransactions (rollbackAndMark CANCELLED now) ;;;
  ret (Z.of_nat (List.length cancelledTransactions)).

(** *** checkIn *)

Definition findAttendee (qrToken : string) (db : DB) : option Attendee.t :=
  find (fun a => String.eqb (Attendee.qrToken a) qrToken) (attendees db).

(** [attendee.event.endDate && attendee.event.endDate < new Date()] *)
Definition eventEnded (event : Event.t) (now : Z) : bool :=
  match Event.endDate event with
  | Some e => e <? now
  | None => false
  end.

Definition checkIn (qrToken : string) (now : Z) : M CheckInResult.t :=
  attendee <- gets (findAttendee qrToken) ;;
  match attendee with
  | None => throw (ApiError "Invalid ticket - QR code not found" 404)
  | Some a =>
  transaction <- gets (fun db =>
    findUnique Transaction.id (Attendee.transactionId a) (transactions db)) ;;
  match transaction with
  | None => throw (PrismaError "P2025")
  | Some t =>
  event <- includeEvent (Attendee.eventId a) ;;
  if negb (status_eqb (Transaction.status t) DONE)
  then throw (ApiError "Transaction is not confirmed" 400)
  else if eventEnded event now
  then throw (ApiError "This event has already ended" 400)
  else if Attendee.checkedIn a
  then ret (CheckInResult.mk false "Already checked in" (Event.title event)
              (Attendee.checkedInAt a))
  else
    modify (fun db =>
      set_attendees
        (map (fun b => if String.eqb (Attendee.qrToken b) qrToken
                       then setCheckedIn now b else b) (attendees db)) db) ;;;
    ret (CheckInResult.mk true "Check-in successful!" (Event.title event) (Some now))
  end end.

(** *** getTicketsByTransaction

    The relation [attendees] of a transaction is the rows carrying its
    id; of the result, the columns of the event, the ticket type and the
    attendee's user are left out. *)

Definition attendeesOf (transactionId : Z) (db : DB) : list Attendee.t :=
  filter (fun a => Attendee.transactionId a =? transactionId) (attendees db).

Definition toTicket (att : Attendee.t) : Ticket.t :=
  Ticket.mk (Attendee.qrToken att) (Attendee.checkedIn att)
            (Attendee.checkedInAt att).

Definition getTicketsByTransaction (transactionId userId : Z)
  : M TicketsResult.t :=
  transaction <- gets (fun db =>
    match findUnique Transaction.id transactionId (transactions db) with
    | Some t => Some (t, attendeesOf (Transaction.id t) db)
    | None => None
    end) ;;
  match transaction with
  | None => throw (ApiError "Transaction not found" 404)
  | Some (t, atts) =>
  if negb (Transaction.userId t =? userId)
  then throw (ApiError "You don't have permission to view these tickets" 403)
  else if negb (status_eqb (Transaction.status t) DONE)
  then throw (ApiError "Tickets are only available for confirmed transactions" 400)
  else ret (TicketsResult.mk (Transaction.id t) (Transaction.ticketQty t)
              (map toTicket atts))
  end.

End TransactionService.

(** ** The database a rollback and a creation leave behind

    [rolledBack t db] is [db] after the four steps of
    [rollbackTransaction] on the stored row [t], each update having found
    its row. *)

Definition rolledBack (t : Transaction.t) (db : DB) : DB :=
  let db1 :=
    set_ticketTypes
      (updateRows TicketType.id (Transaction.ticketTypeId t)
         (TransactionService.releaseSeats (Transaction.ticketQty t))
         (ticketTypes db)) db in
  let db2 :=
    match truthy_id (Transaction.voucherId t) with
    | Some v =>
        set_vouchers
          (updateRows Voucher.id v (TransactionService.addUsedCount (-1))
             (vouchers db1)) db1
    | None => db1
    end in
  let db3 :=
    match truthy_id (Transaction.couponId t) with
    | Some c =>
        set_coupons
          (updateRows Coupon.id c (TransactionService.setIsUsed false)
             (coupons db2)) db2
    | None => db2
    end in
  if 0 <? Transaction.pointsUsed t
  then
    let db4 :=
      set_users
        (updateRows User.id (Transaction.userId t)
           (TransactionService.addPoint (Transaction.pointsUsed t)) (users db3))
        db3 in
    set_points
      (filter (fun p => negb (TransactionService.isUsedEntryOf t p)) (points db4))
      db4
  else db3.

(** [booked t title now db] is [db] after steps 7 to 11 of
    [createTransaction] storing the row [t] for an event titled [title],
    each update having found its row. *)

Definition booked (t : Transaction.t) (eventTitle : string) (now : Z) (db : DB)
  : DB :=
  let db1 :=
    set_ticketTypes
      (updateRows TicketType.id (Transaction.ticketTypeId t)
         (TransactionService.reserveSeats (Transaction.ticketQty t))
         (ticketTypes db)) db in
  let db2 :=
    match truthy_id (Transaction.voucherId t) with
    | Some v =>
        set_vouchers
          (updateRows Voucher.id v (TransactionService.addUsedCount 1)
             (vouchers db1)) db1
    | None => db1
    end in
  let db3 :=
    match truthy_id (Transaction.couponId t) with
    | Some c =>
        set_coupons
          (updateRows Coupon.id c (TransactionService.setIsUsed true)
             (coupons db2)) db2
    | None => db2
    end in
  let db4 :=
    if 0 <? Transaction.pointsUsed t
    then
      let db3' :=
        set_users
          (updateRows User.id (Transaction.userId t)
             (TransactionService.addPoint (- Transaction.pointsUsed t)) (users db3))
          db3 in
      set_points
        (points db3' ++
           [TransactionService.usedPointEntry (Transaction.userId t)
              (Transaction.pointsUsed t) now eventTitle]) db3'
    else db3 in
  set_transactionSeq (Transaction.id t)
    (set_transactions (transactions db4 ++ [t]) db4).

(** [pointsToUse = 0] of the destructured body. *)
Definition pointsRequested (body : CreateTransactionBody.t) : Z :=
  match CreateTransactionBody.pointsToUse body with Some p => p | None => 0 end.

(** A computation preserves a property of the database when the
    database it leaves satisfies it, whether it returns or throws. *)
Definition preserves {A} (P : DB -> Prop) (m : M A) : Prop :=
  forall db, P db -> P (snd (m db)).

(** A computation that hands back the database it received, whether it
    returns or throws. *)
Definition readonly {A} (m : M A) : Prop :=
  forall db, snd (m db) = db.

(** ** Requests reaching the engine

    The operations the HTTP layer and the cron jobs call, and the database
    a sequence of them leaves behind.  A request that throws leaves what it
    had committed before throwing. *)

Inductive request : Type :=
| CreateTransaction (userId eventId : Z) (body : CreateTransactionBody.t)
| UploadPaymentProof (transactionId userId : Z) (paymentProof : string)
| ConfirmTransaction (transactionId organizerId : Z) (entropy : nat -> N)
| RejectTransaction (transactionId organizerId : Z) (reason : option string)
| CancelTransaction (transactionId userId : Z)
| GetMyTransactions (userId : Z)
| GetTransactionById (transactionId userId : Z)
| ExpireTransactions
| CancelTransactions
| CheckIn (qrToken : string).

Definition serve (r : request) (now : Z) (db : DB) : DB :=
  match r with
  | CreateTransaction u e b => snd (TransactionService.createTransaction u e b now db)
  | UploadPaymentProof t u p => snd (TransactionService.uploadPaymentProof t u p now db)
  | ConfirmTransaction t o en => snd (TransactionService.confirmTransaction t o en now db)
  | RejectTransaction t o r => snd (TransactionService.rejectTransaction t o r now db)
  | CancelTransaction t u => snd (TransactionService.cancelTransaction t u now db)
  | GetMyTransactions u => snd (TransactionService.getMyTransactions u now db)
  | GetTransactionById t u => snd (TransactionService.getTransactionById t u now db)
  | ExpireTransactions => snd (TransactionService.expireTransactions now db)
  | CancelTransactions => snd (TransactionService.cancelTransactions now db)
  | CheckIn q => snd (TransactionService.checkIn q now db)
  end.

(** A trace is a list of requests, each with the time it is served at. *)
Fixpoint run (trace : list (request * Z)) (db : DB) : DB :=
  match trace with
  | [] => db
  | (r, now) :: rest => run rest (serve r now db)
  end.

(** ** Predicates on the database *)

(** [availableSeat + sold = totalSeat] and [availableSeat >= 0], for
    every ticket category. *)
Definition seatInvariant (db : DB) : bool :=
  forallb (fun tt =>
    (TicketType.availableSeat tt + TicketType.sold tt =? TicketType.totalSeat tt)
    && (0 <=? TicketType.availableSeat tt)) (ticketTypes db).

(** Every stored transaction is for a positive number of tickets, as
    [createTransaction] only stores such. *)
Definition quantitiesPositive (db : DB) : bool :=
  forallb (fun t => 0 <? Transaction.ticketQty t) (transactions db).

(** EARNED entries of the user are not negative, USED entries not positive. *)
Definition ledgerSigned (userId : Z) (db : DB) : bool :=
  forallb (fun p =>
    negb (Point.userId p =? userId)
    || match Point.type p with
       | EARNED => 0 <=? Point.amount p
       | USED => Point.amount p <=? 0
       end) (points db).

(** No two attendees share a check-in token (the unique index). *)
Definition tokensUnique (db : DB) : Prop :=
  NoDup (map Attendee.qrToken (attendees db)).

(** The autoincrement sequence of [transactions.id] is at or beyond every
    stored id. *)
Definition sequenceAhead (db : DB) : bool :=
  forallb (fun r => Transaction.id r <=? transactionSeq db) (transactions db).

(** [coupons.id] is a primary key. *)
Definition couponKeysUnique (db : DB) : Prop :=
  NoDup (map Coupon.id (coupons db)).

(** No ledger entry matches the filter by which the rollback of [t]
    deletes. *)
Definition noUsedEntryLike (t : Transaction.t) (db : DB) : bool :=
  forallb (fun p => negb (TransactionService.isUsedEntryOf t p)) (points db).

(** The invariant carried along a trace. *)
Definition engineInvariant (db : DB) : Prop :=
  seatInvariant db = true /\ quantitiesPositive db = true.

(** ** A sample database

    One event (id 1) of the organizer whose user is 10, one ticket
    category at 100000 with ten seats, two percentage vouchers, a coupon
    and two point grants of the customer 20. *)

Module Sample.

Definition day : Z := 24 * 60 * 60 * 1000.

Definition voucher29 : Voucher.t :=
  Voucher.mk 1 1 "V29" 29 PERCENTAGE 0 (50 * day) 5 0.
Definition voucher10 : Voucher.t :=
  Voucher.mk 2 1 "V10" 10 PERCENTAGE 0 (50 * day) 5 0.

Definition db0 : DB :=
  mkDB [TicketType.mk 1 1 100000 10 10 0]
       [Event.mk 1 1 "Gig" (Some (100 * day))]
       [Organizer.mk 1 10]
       [User.mk 10 ORGANIZER 0; User.mk 20 CUSTOMER 8000]
       [voucher29; voucher10]
       [Coupon.mk 1 20 "CPN" 50000 (50 * day) false]
       [Point.mk 20 5000 "Referral reward" EARNED (Some (30 * day)) 1;
        Point.mk 20 3000 "Referral reward" EARNED (Some (2 * day)) 2]
       [] [] 0 Host.utc.

(** The same with a voucher of 150 percent. *)
Definition db0_generous : DB :=
  set_vouchers [Voucher.mk 3 1 "V150" 150 PERCENTAGE 0 (50 * day) 5 0] db0.

Definition body (quantity : Z) (voucherCode couponCode : option string)
    (pointsToUse : option Z) : CreateTransactionBody.t :=
  CreateTransactionBody.mk 1 quantity voucherCode couponCode pointsToUse.

(** The customer buys three tickets with 4000 points at time 5. *)
Definition created : DB :=
  snd (TransactionService.createTransaction 20 1 (body 3 None None (Some 4000)) 5 db0).

(** One second and two seconds after the payment deadline. *)
Definition late1 : Z := 5 + TransactionService.twoHours + 1000.
Definition late2 : Z := 5 + TransactionService.twoHours + 2000.

(** The customer pays in time, at 100. *)
Definition paid : DB :=
  snd (TransactionService.uploadPaymentProof 1 20 "proof.png" 100 created).

Definition entropy (i : nat) : N := N.of_nat i.

Definition confirmed : DB :=
  snd (TransactionService.confirmTransaction 1 10 entropy 200 paid).

(** The customer holds one earlier purchase that used 100 points, then
    buys again with 100 points. *)
Definition db_prior : DB :=
  snd (TransactionService.createTransaction 20 1 (body 1 None None (Some 100)) 5 db0).
Definition db_second : DB :=
  snd (TransactionService.createTransaction 20 1 (body 1 None None (Some 100)) 6 db_prior).

(** A day of requests: a purchase that runs past its deadline and is
    submitted twice, the sweep, a second purchase that is paid and
    rejected, a third that is paid, confirmed and checked in. *)
Definition trace : list (request * Z) :=
  [(CreateTransaction 20 1 (body 3 None None (Some 4000)), 5);
   (UploadPaymentProof 1 20 "proof.png", late1);
   (UploadPaymentProof 1 20 "proof.png", late2);
   (ExpireTransactions, late2 + 1);
   (CreateTransaction 20 1 (body 2 (Some "V10") (Some "CPN") None), late2 + 2);
   (UploadPaymentProof 2 20 "proof.png", late2 + 3);
   (RejectTransaction 2 10 (Some "unreadable"), late2 + 4);
   (CreateTransaction 20 1 (body 1 None None None), late2 + 5);
   (UploadPaymentProof 3 20 "proof.png", late2 + 6);
   (ConfirmTransaction 3 10 entropy, late2 + 7);
   (CheckIn (TransactionService.toHex (TransactionService.randomBytes 32 0)),
    late2 + 8);
   (CancelTransactions, late2 + 9 + 4 * day);
   (GetMyTransactions 20, late2 + 10 + 4 * day)].

(** The ledger of the FIFO example: 5000 earned, then 3000 earned
    (expiring after two days), 4000 used. *)
Definition fifoLedger : DB :=
  mkDB [] [] [] [User.mk 20 CUSTOMER 4000] [] []
       [Point.mk 20 5000 "Referral reward" EARNED (Some (30 * day)) 1;
        Point.mk 20 3000 "Referral reward" EARNED (Some (2 * day)) 2;
        Point.mk 20 (-4000) "Used for transaction on event: Gig" USED None 3]
       [] [] 0 Host.utc.

(** The same entries, stored in another order. *)
Definition shuffledLedger : DB :=
  mkDB [] [] [] [User.mk 20 CUSTOMER 4000] [] []
       [Point.mk 20 (-4000) "Used for transaction on event: Gig" USED None 3;
        Point.mk 20 3000 "Referral reward" EARNED (Some (2 * day)) 2;
        Point.mk 20 5000 "Referral reward" EARNED (Some (30 * day)) 1]
       [] [] 0 Host.utc.

(** The database [db] reached from another host. *)
Definition hostedBy (h : Host.t) (db : DB) : DB :=
  mkDB (ticketTypes db) (events db) (organizers db) (users db) (vouchers db)
       (coupons db) (points db) (transactions db) (attendees db)
       (transactionSeq db) h.

(** A server on UTC whose mail transport refuses connections. *)
Definition mailDown : Host.t :=
  Host.mk (fun _ _ => 0) (fun _ => Some (JsError "connect ECONNREFUSED"))
          (fun _ => None) (fun _ => None).

(** A server in a zone that moves its clocks forward by one hour at the
    UTC time [1000 * day]: local time is UTC before, UTC plus one hour
    from then on. *)
Definition springForward : Host.t :=
  Host.mk (fun t isUTC =>
             if (if isUTC then t else t - 60 * 60 * 1000) <? 1000 * day
             then 0 else 60 * 60 * 1000)
          (fun _ => None) (fun _ => None) (fun _ => None).

(** Half an hour before the clocks move, the customer buys three tickets
    on that server. *)
Definition eve : Z := 1000 * day - 30 * 60 * 1000.
Definition db0_spring : DB := hostedBy springForward db0.
Definition created_spring : DB :=
  snd (TransactionService.createTransaction 20 1 (body 3 None None None) eve
         db0_spring).

End Sample.

(** ** Predicates of the further properties *)

(** What the loop of [getExpiringPoints] keeps true of its two results. *)
Definition expiringOk (now threshold : Z) (earned : list Point.t)
    (amount : Z) (nearest : option Z) : Prop :=
  0 <= amount
  /\ (nearest = None <-> amount = 0)
  /\ (forall d, nearest = Some d ->
        now < d <= threshold
        /\ exists p, In p earned /\ Point.expiredAt p = Some d).

(** The lifecycle: the moves of a status that one request may make. *)
Definition allowedTransition (from to : TransactionStatus) : bool :=
  match from, to with
  | WAITING_PAYMENT, WAITING_CONFIRMATION
  | WAITING_PAYMENT, EXPIRED
  | WAITING_PAYMENT, CANCELLED
  | WAITING_CONFIRMATION, DONE
  | WAITING_CONFIRMATION, REJECTED
  | WAITING_CONFIRMATION, CANCELLED => true
  | _, _ => false
  end.

Definition isTerminal (s : TransactionStatus) : bool :=
  match s with
  | DONE | REJECTED | CANCELLED | EXPIRED => true
  | WAITING_PAYMENT | WAITING_CONFIRMATION => false
  end.

(** [transactions.id] is a primary key fed by its sequence. *)
Definition transactionKeys (db : DB) : Prop :=
  NoDup (map Transaction.id (transactions db)) /\ sequenceAhead db = true.

(** The row [t] is stored under [id]. *)
Definition stored (id : Z) (t : Transaction.t) (db : DB) : Prop :=
  findUnique Transaction.id id (transactions db) = Some t.

(** What was bought: the columns of an order that no transition writes. *)
Definition sameOrder (t t' : Transaction.t) : Prop :=
  Transaction.id t' = Transaction.id t
  /\ Transaction.userId t' = Transaction.userId t
  /\ Transaction.eventId t' = Transaction.eventId t
  /\ Transaction.ticketTypeId t' = Transaction.ticketTypeId t
  /\ Transaction.voucherId t' = Transaction.voucherId t
  /\ Transaction.couponId t' = Transaction.couponId t
  /\ Transaction.ticketQty t' = Transaction.ticketQty t
  /\ Transaction.totalPrice t' = Transaction.totalPrice t
  /\ Transaction.pointsUsed t' = Transaction.pointsUsed t
  /\ Transaction.finalPrice t' = Transaction.finalPrice t
  /\ Transaction.expiredAt t' = Transaction.expiredAt t.

(** The row stored under [id] is [t] itself, or [t] after one allowed move
    of its status, the order being the same. *)
Definition moved (id : Z) (t : Transaction.t) (db : DB) : Prop :=
  exists t',
    findUnique Transaction.id id (transactions db) = Some t'
    /\ sameOrder t t'
    /\ (t' = t
        \/ allowedTransition (Transaction.status t) (Transaction.status t') = true).

(** A computation started where [P] holds ends, returning or throwing,
    where [Q] holds. *)
Definition hoare {A} (P : DB -> Prop) (m : M A) (Q : DB -> Prop) : Prop :=
  forall db, P db -> Q (snd (m db)).

(** A property that only reads the transactions table and its sequence. *)
Definition aboutTransactions (P : DB -> Prop) : Prop :=
  forall db db',
    transactions db' = transactions db ->
    transactionSeq db' = transactionSeq db ->
    P db -> P db'.

(** The statuses a sequence of allowed moves leads to. *)
Definition reachable (from to : TransactionStatus) : bool :=
  status_eqb from to
  || allowedTransition from to
  || match from, to with
     | WAITING_PAYMENT, DONE | WAITING_PAYMENT, REJECTED => true
     | _, _ => false
     end.

(** The table after a sweep that marks the rows selected by [p]. *)
Definition marked (p : Transaction.t -> bool) (s : TransactionStatus) (now : Z)
    (rows : list Transaction.t) : list Transaction.t :=
  map (fun r => if p r then TransactionService.setStatus s now r else r) rows.

(** The row [r] has the id of one of [rows]. *)
Definition selects (rows : list Transaction.t) (r : Transaction.t) : bool :=
  existsb (fun x => Transaction.id x =? Transaction.id r) rows.

(** Every voucher is within its quota; [vouchers.id] is a primary key. *)
Definition vouchersWithinLimit (db : DB) : bool :=
  forallb (fun v => Voucher.usedCount v <=? Voucher.usageLimit v) (vouchers db).

Definition voucherKeys (db : DB) : Prop :=
  NoDup (map Voucher.id (vouchers db)).

Definition voucherInvariant (db : DB) : Prop :=
  voucherKeys db /\ vouchersWithinLimit db = true.

(** A property that does not read the transactions table, or the
    attendees table. *)
Definition ignoresTransactions (P : DB -> Prop) : Prop :=
  forall rows db, P db -> P (set_transactions rows db).

Definition ignoresAttendees (P : DB -> Prop) : Prop :=
  forall rows db, P db -> P (set_attendees rows db).

(** A property that only reads the attendees table. *)
Definition aboutAttendees (P : DB -> Prop) : Prop :=
  forall db db', attendees db' = attendees db -> P db -> P db'.

(** The attendee [a] is the one found under the token [qrToken]. *)
Definition admitted (qrToken : string) (a : Attendee.t) (db : DB) : Prop :=
  TransactionService.findAttendee qrToken db = Some a.

(** * Properties *)

(** ** The point ledger *)

Section FifoBalance.
Import PointUtils.

Lemma In_insertByCreatedAt (p x : Point.t) (l : list Point.t) :
  In x (insertByCreatedAt p l) <-> x = p \/ In x l.
Proof.
  induction l as [|q l IH]; simpl.
  - intuition auto.
  - destruct (Point.createdAt p <=? Point.createdAt q); simpl.
    + intuition auto.
    + rewrite IH. intuition auto.
Qed.

Lemma In_orderByCreatedAtAsc (x : Point.t) (l : list Point.t) :
  In x (orderByCreatedAtAsc l) <-> In x l.
Proof.
  unfold orderByCreatedAtAsc.
  induction l as [|p l IH]; simpl; [tauto|].
  rewrite In_insertByCreatedAt, IH. intuition auto.
Qed.

Lemma spec_unexpired_notExpired (now : Z) (e : Point.t) :
  spec_unexpired now e = notExpired now e.
Proof.
  unfold spec_unexpired, notExpired.
  destruct (Point.expiredAt e); [apply Z.gtb_ltb | reflexivity].
Qed.

Lemma spec_entries_filter (userId : Z) (ty : PointType) (db : DB) :
  spec_entries userId ty db = filter (ofUserAndType userId ty) (points db).
Proof.
  unfold spec_entries. apply filter_ext. intros p.
  unfold ofUserAndType, pointType_eqb. reflexivity.
Qed.

(** The loop of the code and the walk of the specification agree from
    any pool that is not negative, on entries that are not negative. *)
Lemma fold_fifoStep_spec_walk (now : Z) (earned : list Point.t) :
  Forall (fun p => 0 <= Point.amount p) earned ->
  forall pool balance, 0 <= pool ->
    snd (fold_left (fifoStep now) earned (pool, balance))
    = balance + spec_walk now pool earned.
Proof.
  induction 1 as [|e rest He _ IH]; intros pool balance Hpool; simpl.
  - lia.
  - rewrite spec_unexpired_notExpired.
    destruct (0 <? pool) eqn:Hp.
    + apply Z.ltb_lt in Hp.
      destruct (0 <? Point.amount e - Z.min (Point.amount e) pool) eqn:Ha;
        destruct (notExpired now e); simpl; rewrite IH by lia;
        try apply Z.ltb_lt in Ha; try apply Z.ltb_ge in Ha; lia.
    + apply Z.ltb_ge in Hp.
      assert (pool = 0) by lia; subst pool.
      replace (Z.min (Point.amount e) 0) with 0 by lia.
      replace (Point.amount e - 0) with (Point.amount e) by lia.
      replace (0 - 0) with 0 by lia.
      destruct (0 <? Point.amount e) eqn:Ha;
        destruct (notExpired now e); simpl; rewrite IH by lia;
        try apply Z.ltb_lt in Ha; try apply Z.ltb_ge in Ha; lia.
Qed.

Lemma sum_abs_nonpositive (l : list Point.t) :
  Forall (fun p => Point.amount p <= 0) l ->
  Z.abs (fold_right (fun p acc => Point.amount p + acc) 0 l)
  = fold_right (fun p acc => Z.abs (Point.amount p) + acc) 0 l
  /\ fold_right (fun p acc => Point.amount p + acc) 0 l <= 0.
Proof.
  induction 1 as [|p l Hp _ [IH1 IH2]]; simpl; split; lia.
Qed.

Lemma ledgerSigned_earned (userId : Z) (db : DB) :
  ledgerSigned userId db = true ->
  Forall (fun p => 0 <= Point.amount p) (earnedPoints userId db).
Proof.
  unfold ledgerSigned, earnedPoints. rewrite forallb_forall. intros H.
  apply Forall_forall. intros p Hp.
  apply In_orderByCreatedAtAsc, filter_In in Hp. destruct Hp as [Hin Hf].
  specialize (H p Hin). unfold ofUserAndType in Hf.
  apply andb_true_iff in Hf. destruct Hf as [Hu Ht]. rewrite Hu in H. simpl in H.
  destruct (Point.type p); [apply Z.leb_le; exact H | discriminate].
Qed.

Lemma ledgerSigned_used (userId : Z) (db : DB) :
  ledgerSigned userId db = true ->
  Forall (fun p => Point.amount p <= 0)
         (filter (ofUserAndType userId USED) (points db)).
Proof.
  unfold ledgerSigned. rewrite forallb_forall. intros H.
  apply Forall_forall. intros p Hp.
  apply filter_In in Hp. destruct Hp as [Hin Hf].
  specialize (H p Hin). unfold ofUserAndType in Hf.
  apply andb_true_iff in Hf. destruct Hf as [Hu Ht]. rewrite Hu in H. simpl in H.
  destruct (Point.type p); [discriminate | apply Z.leb_le; exact H].
Qed.

(** The loop never takes from the balance, and adds at most what is
    unexpired and positive. *)
Lemma fold_fifoStep_bounds (now : Z) (earned : list Point.t) :
  forall pool balance,
    balance <= snd (fold_left (fifoStep now) earned (pool, balance))
    /\ snd (fold_left (fifoStep now) earned (pool, balance))
       <= balance
          + fold_right (fun p acc =>
              (if notExpired now p then Z.max 0 (Point.amount p) else 0) + acc)
              0 earned.
Proof.
  induction earned as [|e rest IH]; intros pool balance; simpl; [lia|].
  destruct (0 <? pool) eqn:Hp.
  - apply Z.ltb_lt in Hp.
    destruct (0 <? Point.amount e - Z.min (Point.amount e) pool) eqn:Ha;
      destruct (notExpired now e); simpl;
      match goal with
      | |- context [fold_left _ rest (?q, ?b)] => specialize (IH q b)
      end;
      try apply Z.ltb_lt in Ha; try apply Z.ltb_ge in Ha; lia.
  - destruct (0 <? Point.amount e) eqn:Ha;
      destruct (notExpired now e); simpl;
      match goal with
      | |- context [fold_left _ rest (?q, ?b)] => specialize (IH q b)
      end;
      try apply Z.ltb_lt in Ha; try apply Z.ltb_ge in Ha; lia.
Qed.

Lemma calculateUserPointBalance_nonneg (userId now : Z) (db : DB) :
  0 <= calculateUserPointBalance userId now db.
Proof.
  unfold calculateUserPointBalance.
  apply (fold_fifoStep_bounds now (earnedPoints userId db)
           (Z.abs (usedPointsSum userId db)) 0).
Qed.

(** [orderBy: { createdAt: "asc" }] returns the rows it was given, by
    ascending [createdAt]. *)
Lemma Permutation_insertByCreatedAt (p : Point.t) (l : list Point.t) :
  Permutation (p :: l) (insertByCreatedAt p l).
Proof.
  induction l as [|q l IH]; simpl; [apply Permutation_refl|].
  destruct (Point.createdAt p <=? Point.createdAt q).
  - apply Permutation_refl.
  - eapply perm_trans; [apply perm_swap|]. apply perm_skip. exact IH.
Qed.

Lemma Permutation_orderByCreatedAtAsc (l : list Point.t) :
  Permutation l (orderByCreatedAtAsc l).
Proof.
  unfold orderByCreatedAtAsc.
  induction l as [|p l IH]; simpl; [apply perm_nil|].
  eapply perm_trans; [apply perm_skip; exact IH|].
  apply Permutation_insertByCreatedAt.
Qed.

Lemma StronglySorted_insertByCreatedAt (p : Point.t) (l : list Point.t) :
  StronglySorted (fun a b => Point.createdAt a <= Point.createdAt b) l ->
  StronglySorted (fun a b => Point.createdAt a <= Point.createdAt b)
                 (insertByCreatedAt p l).
Proof.
  induction 1 as [|q l Hs IH Hq]; simpl.
  - constructor; constructor.
  - destruct (Point.createdAt p <=? Point.createdAt q) eqn:E.
    + apply Z.leb_le in E. constructor.
      * constructor; assumption.
      * constructor; [exact E|].
        eapply Forall_impl; [|exact Hq]. intros x Hx. cbv beta in *. lia.
    + apply Z.leb_gt in E. constructor; [exact IH|].
      apply Forall_forall. intros x Hx.
      apply In_insertByCreatedAt in Hx. destruct Hx as [->|Hx]; [lia|].
      rewrite Forall_forall in Hq. apply Hq. exact Hx.
Qed.

Lemma StronglySorted_orderByCreatedAtAsc (l : list Point.t) :
  StronglySorted (fun a b => Point.createdAt a <= Point.createdAt b)
                 (orderByCreatedAtAsc l).
Proof.
  unfold orderByCreatedAtAsc.
  induction l as [|p l IH]; simpl; [constructor|].
  apply StronglySorted_insertByCreatedAt. exact IH.
Qed.

(** Rows in strictly increasing order of [createdAt] are in the only
    ascending order there is of them. *)
Lemma oldestFirst_unique (strict : list Point.t) :
  StronglySorted (fun a b => Point.createdAt a < Point.createdAt b) strict ->
  forall weak,
    StronglySorted (fun a b => Point.createdAt a <= Point.createdAt b) weak ->
    Permutation strict weak ->
    weak = strict.
Proof.
  induction 1 as [|a s Hs IH Ha]; intros weak Hw Hperm.
  - apply Permutation_nil in Hperm. exact Hperm.
  - destruct weak as [|b w].
    + apply Permutation_sym, Permutation_nil in Hperm. discriminate.
    + inversion Hw as [|? ? Hw' Hb]; subst.
      assert (Heq : b = a).
      { pose proof (Permutation_in a Hperm (or_introl eq_refl)) as Hina.
        pose proof (Permutation_in b (Permutation_sym Hperm) (or_introl eq_refl))
          as Hinb.
        destruct Hina as [E|Hina]; [exact E|].
        destruct Hinb as [E|Hinb]; [symmetry; exact E|].
        rewrite Forall_forall in Ha, Hb.
        specialize (Ha _ Hinb). specialize (Hb _ Hina). cbv beta in *. lia. }
      subst b. f_equal. apply IH; [exact Hw'|].
      eapply Permutation_cons_inv. exact Hperm.
Qed.

Lemma earnedPoints_oldestFirst (userId : Z) (db : DB) (ordered : list Point.t) :
  spec_oldestFirst (spec_entries userId EARNED db) ordered ->
  earnedPoints userId db = ordered.
Proof.
  intros [Hperm Hsorted]. unfold earnedPoints.
  apply (oldestFirst_unique ordered Hsorted).
  - apply StronglySorted_orderByCreatedAtAsc.
  - rewrite spec_entries_filter in Hperm.
    eapply perm_trans; [apply Permutation_sym; exact Hperm|].
    apply Permutation_orderByCreatedAtAsc.
Qed.

(** C6. On a ledger whose EARNED amounts are not negative and whose USED
    amounts are not positive, and whichever way the rows are stored, the
    balance [calculateUserPointBalance] computes is the one the
    specification defines on the EARNED entries of the user taken oldest
    first (by strictly increasing [createdAt]): the total absolute USED
    amount is consumed in that order, and what is left of an entry counts
    only while the entry is unexpired, [expiresAt] being null or strictly
    after now.  On the ledger 5000 earned, then 3000 earned, and 4000
    used, the balance is 4000, and 1000 from the time the second grant
    expires; so it is when the rows are stored in another order. *)
Theorem calculateUserPointBalance_is_fifo_walk :
  (forall userId now db oldestFirst,
      ledgerSigned userId db = true ->
      spec_oldestFirst (spec_entries userId EARNED db) oldestFirst ->
      calculateUserPointBalance userId now db
      = spec_balance userId now db oldestFirst)
  /\ calculateUserPointBalance 20 0 Sample.fifoLedger = 4000
  /\ calculateUserPointBalance 20 (2 * Sample.day - 1) Sample.fifoLedger = 4000
  /\ calculateUserPointBalance 20 (2 * Sample.day) Sample.fifoLedger = 1000
  /\ calculateUserPointBalance 20 0 Sample.shuffledLedger = 4000
  /\ calculateUserPointBalance 20 (2 * Sample.day) Sample.shuffledLedger = 1000.
Proof.
  split; [|repeat split; reflexivity].
  intros userId now db oldestFirst Hwf Hold.
  pose proof (ledgerSigned_earned userId db Hwf) as Hearned.
  unfold calculateUserPointBalance, spec_balance, usedPointsSum, spec_totalUsed.
  rewrite spec_entries_filter.
  destruct (sum_abs_nonpositive _ (ledgerSigned_used userId db Hwf)) as [Habs _].
  rewrite (earnedPoints_oldestFirst userId db oldestFirst Hold) in *.
  rewrite fold_fifoStep_spec_walk.
  - rewrite Habs. lia.
  - exact Hearned.
  - apply Z.abs_nonneg.
Qed.

Lemma calculateUserPointBalance_is_fifo_walk_witness :
  calculateUserPointBalance 20 (2 * Sample.day) Sample.shuffledLedger
  = spec_balance 20 (2 * Sample.day) Sample.shuffledLedger
      [Point.mk 20 5000 "Referral reward" EARNED (Some (30 * Sample.day)) 1;
       Point.mk 20 3000 "Referral reward" EARNED (Some (2 * Sample.day)) 2].
Proof.
  apply (proj1 calculateUserPointBalance_is_fifo_walk).
  - reflexivity.
  - split.
    + apply perm_swap.
    + repeat constructor.
Defined.

End FifoBalance.

(** ** Check-in *)

Section CheckIn.
Import TransactionService.





End CheckIn.

(** ** Reasoning on the service monad *)

Lemma bind_Ok {A B} (m : M A) (f : A -> M B) (db db' : DB) (b : B) :
  bind m f db = (Ok b, db') ->
  exists a db1, m db = (Ok a, db1) /\ f a db1 = (Ok b, db').
Proof.
  unfold bind. destruct (m db) as [[a|e] db1]; intros H.
  - exists a, db1. auto.
  - discriminate.
Qed.

Lemma prisma_transaction_Throw {A} (body : M A) (db db' : DB) (e : error) :
  prisma_transaction body db = (Throw e, db') -> db' = db.
Proof.
  unfold prisma_transaction. destruct (body db) as [[a|e'] db1]; intros H.
  - discriminate.
  - inversion H. reflexivity.
Qed.

Lemma prisma_transaction_Ok {A} (body : M A) (db db' : DB) (a : A) :
  prisma_transaction body db = (Ok a, db') -> body db = (Ok a, db').
Proof.
  unfold prisma_transaction. destruct (body db) as [[a'|e'] db1]; intros H.
  - exact H.
  - discriminate.
Qed.

Lemma update_Ok {R} (key : R -> Z) table set k f (db db' : DB) (u : unit) :
  update key table set k f db = (Ok u, db') ->
  db' = set (updateRows key k f (table db)) db.
Proof.
  unfold update. destruct (findUnique key k (table db)); intros H.
  - inversion H. reflexivity.
  - discriminate.
Qed.

(** A pair from its first component. *)
Lemma pair_fst_snd {A B} (x : A * B) (a : A) : fst x = a -> x = (a, snd x).
Proof. destruct x; simpl; intros ->; reflexivity. Qed.

(** Split the next [bind] of a computation known to return. *)
Ltac step_Ok H :=
  let a := fresh "a" in
  let d := fresh "db" in
  let H1 := fresh "Hstep" in
  apply bind_Ok in H; destruct H as (a & d & H1 & H).

(** Run a chain of writes that is known to return down to its last
    database. *)
Ltac finish_Ok :=
  repeat match goal with
  | H : bind _ _ _ = (Ok _, _) |- _ => step_Ok H
  | H : update _ _ _ _ _ _ = (Ok _, _) |- _ => apply update_Ok in H; subst
  | H : ret _ _ = (Ok _, _) |- _ => inversion H; subst; clear H
  | H : modify _ _ = (Ok _, _) |- _ => inversion H; subst; clear H
  | H : gets _ _ = (Ok _, _) |- _ => inversion H; subst; clear H
  end; try reflexivity.

(** Where the offset of local time does not change, moving local time
    moves the time value by as much. *)
Lemma addLocal_fixedOffset (h : Host.t) (delta t : Z) :
  Host.fixedOffset h -> JsDate.addLocal h delta t = t + delta.
Proof.
  intros [offset H]. unfold JsDate.addLocal, JsDate.UTC, JsDate.LocalTime.
  rewrite !H. lia.
Qed.

Lemma fixedOffset_utc : Host.fixedOffset Host.utc.
Proof. exists 0. intros time isUTC. reflexivity. Qed.

(** Awaiting a collaborator and reading a relation leave the database
    as it is. *)
Lemma await_state (outcome : DB -> option error) (db : DB) :
  snd (await outcome db) = db.
Proof.
  unfold await, bind, gets, ret, throw. destruct (outcome db); reflexivity.
Qed.

Lemma await_Ok (outcome : DB -> option error) (db db' : DB) (u : unit) :
  await outcome db = (Ok u, db') -> db' = db /\ outcome db = None.
Proof.
  unfold await, bind, gets, ret, throw.
  destruct (outcome db); intros H; inversion H; auto.
Qed.

Lemma deref_state {A} (relation : DB -> option A) (db : DB) :
  snd (deref relation db) = db.
Proof.
  unfold deref, bind, gets, ret, throw. destruct (relation db); reflexivity.
Qed.

Lemma deref_Ok {A} (relation : DB -> option A) (db db' : DB) (a : A) :
  deref relation db = (Ok a, db') -> db' = db /\ relation db = Some a.
Proof.
  unfold deref, bind, gets, ret, throw.
  destruct (relation db); intros H; inversion H; auto.
Qed.

Lemma forEach_await_state {A} (outcome : A -> DB -> option error)
    (xs : list A) (db : DB) :
  snd (forEach xs (fun x => await (outcome x)) db) = db.
Proof.
  induction xs as [|x xs IH]; simpl; [reflexivity|].
  unfold bind. pose proof (await_state (outcome x) db) as Hx.
  destruct (await (outcome x) db) as [[u|e] db1]; simpl in Hx; subst db1.
  - exact IH.
  - reflexivity.
Qed.

Lemma forEach_await_Ok {A} (outcome : A -> DB -> option error)
    (xs : list A) (db db' : DB) (u : unit) :
  forEach xs (fun x => await (outcome x)) db = (Ok u, db') -> db' = db.
Proof.
  intros H. pose proof (forEach_await_state outcome xs db) as Hs.
  rewrite H in Hs. exact Hs.
Qed.

Lemma readonly_ret {A} (a : A) : readonly (ret a).
Proof. intros db. reflexivity. Qed.

Lemma readonly_throw {A} (e : error) : readonly (@throw A e).
Proof. intros db. reflexivity. Qed.

Lemma readonly_gets {A} (f : DB -> A) : readonly (gets f).
Proof. intros db. reflexivity. Qed.

Lemma readonly_bind {A B} (m : M A) (f : A -> M B) :
  readonly m -> (forall a, readonly (f a)) -> readonly (bind m f).
Proof.
  intros Hm Hf db. unfold bind. specialize (Hm db).
  destruct (m db) as [[a|e] db1]; simpl in Hm; subst db1.
  - apply Hf.
  - reflexivity.
Qed.

Lemma readonly_await (outcome : DB -> option error) : readonly (await outcome).
Proof. intros db. apply await_state. Qed.

Lemma readonly_deref {A} (relation : DB -> option A) : readonly (deref relation).
Proof. intros db. apply deref_state. Qed.

Lemma readonly_forEach {A} (xs : list A) (body : A -> M unit) :
  (forall x, readonly (body x)) -> readonly (forEach xs body).
Proof.
  intros H. induction xs as [|x xs IH]; simpl.
  - apply readonly_ret.
  - apply readonly_bind; [apply H | intros _; exact IH].
Qed.

(** What a computation leaves is what it left before a read-only rest. *)
Lemma snd_bind_readonly {A B} (m : M A) (f : A -> M B) (db : DB) :
  (forall a, readonly (f a)) -> snd (bind m f db) = snd (m db).
Proof.
  intros Hf. unfold bind. destruct (m db) as [[a|e] db1]; simpl.
  - apply Hf.
  - reflexivity.
Qed.

(** The rest of a method after its last write: reads of relations and
    awaited collaborators. *)
Ltac read_only :=
  repeat first
    [ apply readonly_ret
    | apply readonly_throw
    | apply readonly_await
    | apply readonly_deref
    | apply readonly_gets
    | apply readonly_forEach; intros ?
    | apply readonly_bind; [|intros ?] ].

Section Rollback.
Import TransactionService.

(** A rollback that throws has changed nothing. *)
Lemma rollbackTransaction_Throw (id : Z) (db db' : DB) (e : error) :
  rollbackTransaction id db = (Throw e, db') -> db' = db.
Proof. apply prisma_transaction_Throw. Qed.

(** A rollback that returns has carried out its four steps on the
    stored row. *)
Lemma rollbackTransaction_Ok (id : Z) (db db' : DB) (u : unit) :
  rollbackTransaction id db = (Ok u, db') ->
  exists t, findUnique Transaction.id id (transactions db) = Some t
            /\ db' = rolledBack t db.
Proof.
  unfold rollbackTransaction. intros H.
  apply prisma_transaction_Ok in H.
  step_Ok H. unfold gets in Hstep. inversion Hstep; subst; clear Hstep.
  destruct (findUnique Transaction.id id (transactions db0)) as [t|] eqn:Ht;
    [|discriminate].
  exists t. split; [reflexivity|].
  unfold rolledBack, when in *.
  destruct (truthy_id (Transaction.voucherId t)) as [v|];
    destruct (truthy_id (Transaction.couponId t)) as [c|];
    destruct (0 <? Transaction.pointsUsed t);
    finish_Ok.
Qed.

End Rollback.

(** ** Payment proof after the deadline *)

Section ExpiredUpload.
Import TransactionService.

Lemma rolledBack_transactions (t : Transaction.t) (db : DB) :
  transactions (rolledBack t db) = transactions db.
Proof.
  unfold rolledBack.
  destruct (truthy_id (Transaction.voucherId t));
    destruct (truthy_id (Transaction.couponId t));
    destruct (0 <? Transaction.pointsUsed t); reflexivity.
Qed.

(** C2, as the code has it.  For a WAITING_PAYMENT transaction whose
    deadline has passed, [uploadPaymentProof] by the owner throws and
    never writes the transactions table: the row is found afterwards as
    it was, still WAITING_PAYMENT and not EXPIRED.  Either the rollback
    itself threw and nothing changed, or the rollback was committed and
    the error is "Payment deadline has expired". *)
Theorem uploadPaymentProof_expired_keeps_waiting_payment :
  forall transactionId userId paymentProof now db t,
    findUnique Transaction.id transactionId (transactions db) = Some t ->
    Transaction.userId t = userId ->
    Transaction.status t = WAITING_PAYMENT ->
    Transaction.expiredAt t < now ->
    exists e db',
      uploadPaymentProof transactionId userId paymentProof now db = (Throw e, db')
      /\ findUnique Transaction.id transactionId (transactions db') = Some t
      /\ (db' = db
          \/ (db' = rolledBack t db
              /\ e = ApiError "Payment deadline has expired" 400)).
Proof.
  intros id uid proof now db t Ht Hu Hs Hexp.
  unfold uploadPaymentProof, bind, gets. cbv beta. rewrite Ht. cbv beta iota.
  rewrite Hu, Z.eqb_refl, Hs. cbn [negb status_eqb].
  apply Z.ltb_lt in Hexp. rewrite Hexp. cbv beta.
  destruct (rollbackTransaction id db) as [[u|e] db1] eqn:Hr.
  - apply rollbackTransaction_Ok in Hr. destruct Hr as (t' & Ht' & ->).
    rewrite Ht in Ht'. inversion Ht'; subst t'.
    eexists _, _. split; [reflexivity|]. split.
    + rewrite rolledBack_transactions. exact Ht.
    + right. split; reflexivity.
  - apply rollbackTransaction_Throw in Hr. subst db1.
    eexists _, _. split; [reflexivity|]. split; [exact Ht | left; reflexivity].
Qed.

Lemma uploadPaymentProof_expired_keeps_waiting_payment_witness :
  exists e db',
    uploadPaymentProof 1 20 "proof.png" Sample.late1 Sample.created = (Throw e, db')
    /\ findUnique Transaction.id 1 (transactions db')
       = Some (Transaction.mk 1 20 1 1 None None 3 300000 4000 296000
                 (5 + twoHours) WAITING_PAYMENT None None 5)
    /\ (db' = Sample.created
        \/ (db' = rolledBack
                    (Transaction.mk 1 20 1 1 None None 3 300000 4000 296000
                       (5 + twoHours) WAITING_PAYMENT None None 5)
                    Sample.created
            /\ e = ApiError "Payment deadline has expired" 400)).
Proof.
  apply (uploadPaymentProof_expired_keeps_waiting_payment
           1 20 "proof.png" Sample.late1 Sample.created);
    vm_compute; reflexivity.
Defined.

(** C1, on the sample database.  The customer's transaction (three
    seats, 4000 points) is past its deadline; the owner submits a payment
    proof twice.  Each call passes the status guard, since the first one
    left the status WAITING_PAYMENT, and each call rolls back: the seats
    go from 7 back to 10 and then to 13 of 10, [sold] to -3, and the
    cached points from 4000 back to 8000 and then to 12000. *)
Theorem uploadPaymentProof_expired_twice_rolls_back_twice :
  let db1 := snd (uploadPaymentProof 1 20 "proof.png" Sample.late1 Sample.created) in
  let db2 := snd (uploadPaymentProof 1 20 "proof.png" Sample.late2 db1) in
  ticketTypes Sample.created = [TicketType.mk 1 1 100000 10 7 3]
  /\ findUnique User.id 20 (users Sample.created) = Some (User.mk 20 CUSTOMER 4000)
  /\ fst (uploadPaymentProof 1 20 "proof.png" Sample.late1 Sample.created)
     = Throw (ApiError "Payment deadline has expired" 400)
  /\ ticketTypes db1 = [TicketType.mk 1 1 100000 10 10 0]
  /\ findUnique User.id 20 (users db1) = Some (User.mk 20 CUSTOMER 8000)
  /\ fst (uploadPaymentProof 1 20 "proof.png" Sample.late2 db1)
     = Throw (ApiError "Payment deadline has expired" 400)
  /\ ticketTypes db2 = [TicketType.mk 1 1 100000 10 13 (-3)]
  /\ findUnique User.id 20 (users db2) = Some (User.mk 20 CUSTOMER 12000).
Proof. vm_compute. repeat split; reflexivity. Qed.

End ExpiredUpload.

(** ** Pricing *)

Section Pricing.
Import TransactionService.

(** C4, on the sample database.  A 29 percent voucher on a subtotal of
    100000: the code computes [Math.floor(100000 * (29 / 100))] on
    binary64 numbers, where [29 / 100] rounds below 0.29 and the product
    to 28999.999999999996; the discount applied is 28999 and the stored
    final price 71001, whereas [floor(100000 * 29 / 100)] is 29000. *)
Theorem createTransaction_percentage_voucher_off_by_one :
  exists t db',
    createTransaction 20 1 (Sample.body 1 (Some "V29") None None) 5 Sample.db0
    = (Ok t, db')
    /\ Transaction.totalPrice t = 100000
    /\ Transaction.voucherId t = Some (Voucher.id Sample.voucher29)
    /\ Transaction.couponId t = None
    /\ Transaction.pointsUsed t = 0
    /\ Transaction.finalPrice t = 71001
    /\ voucherDiscountOf 100000 Sample.voucher29 = 28999
    /\ 100000 * Voucher.discountAmount Sample.voucher29 / 100 = 29000.
Proof. eexists _, _. vm_compute. repeat split; reflexivity. Qed.

End Pricing.

(** ** Round trip of a creation and its rollback *)

Section RoundTrip.
Import TransactionService.

(** C3, on the sample database.  The customer already holds a purchase
    that used 100 points, buys again with 100 points (transaction 2), and
    transaction 2 is rolled back.  Seats, [sold] and the cached points are
    back at their values before the second purchase, but [deleteMany]
    removed both USED entries of -100, so the FIFO balance is 8000 where
    it was 7900 before the second purchase. *)
Theorem rollbackTransaction_deletes_entries_of_other_transactions :
  let before := Sample.db_prior in
  let after := snd (rollbackTransaction 2 Sample.db_second) in
  (exists t, fst (createTransaction 20 1 (Sample.body 1 None None (Some 100)) 6 before)
             = Ok t /\ Transaction.id t = 2 /\ Transaction.pointsUsed t = 100)
  /\ fst (rollbackTransaction 2 Sample.db_second) = Ok tt
  /\ ticketTypes after = ticketTypes before
  /\ users after = users before
  /\ PointUtils.calculateUserPointBalance 20 6 before = 7900
  /\ PointUtils.calculateUserPointBalance 20 6 Sample.db_second = 7800
  /\ PointUtils.calculateUserPointBalance 20 6 after = 8000
  /\ filter (PointUtils.ofUserAndType 20 USED) (points before)
     = [usedPointEntry 20 100 5 "Gig"]
  /\ filter (PointUtils.ofUserAndType 20 USED) (points after) = [].
Proof.
  vm_compute. split; [eexists; repeat split; reflexivity|].
  repeat split; reflexivity.
Qed.

End RoundTrip.

(** ** createTransaction *)

Section Creation.
Import TransactionService.

Lemma gets_run {A} (f : DB -> A) (db db' : DB) (r : result A) :
  gets f db = (r, db') -> r = Ok (f db) /\ db' = db.
Proof. unfold gets. intros H. inversion H. auto. Qed.

Lemma includeEvent_run (eventId : Z) (db db' : DB) (r : result Event.t) :
  includeEvent eventId db = (r, db') ->
  db' = db /\ forall ev, r = Ok ev -> findUnique Event.id eventId (events db) = Some ev.
Proof.
  unfold includeEvent, bind, gets. cbv beta.
  destruct (findUnique Event.id eventId (events db)); intros H; inversion H;
    split; try reflexivity; intros ev E; inversion E; reflexivity.
Qed.

Lemma ownEventGuard_run (userId : Z) (event : Event.t) (db db' : DB) (r : result unit) :
  ownEventGuard userId event db = (r, db') -> db' = db.
Proof.
  unfold ownEventGuard, bind, gets, ret, throw.
  destruct (Event.organizerId event =? 0); [intros H; inversion H; reflexivity|].
  cbv beta.
  destruct (findUnique Organizer.id (Event.organizerId event) (organizers db)) as [o|];
    [destruct (Organizer.userId o =? userId)|]; intros H; inversion H; reflexivity.
Qed.

Lemma applyVoucher_run eventId now subtotal code (db db' : DB) r :
  applyVoucher eventId now subtotal code db = (r, db') -> db' = db.
Proof.
  unfold applyVoucher, bind, gets, ret, throw.
  destruct (truthy_string code); [|intros H; inversion H; reflexivity].
  cbv beta.
  destruct (find _ (vouchers db)) as [v|];
    [destruct (Voucher.usageLimit v <=? Voucher.usedCount v)|];
    intros H; inversion H; reflexivity.
Qed.

Lemma applyCoupon_run userId now subtotal vd code (db db' : DB) r :
  applyCoupon userId now subtotal vd code db = (r, db') -> db' = db.
Proof.
  unfold applyCoupon, bind, gets, ret, throw.
  destruct (truthy_string code); [|intros H; inversion H; reflexivity].
  cbv beta.
  destruct (find _ (coupons db)) as [c|]; cbv beta iota;
    [destruct (isOrganizerRole _)|];
    intros H; inversion H; reflexivity.
Qed.

Lemma createTransaction_Ok userId eventId body now db t db' :
  createTransaction userId eventId body now db = (Ok t, db') ->
  let quantity := CreateTransactionBody.quantity body in
  exists tt ev vd vid cd cid u,
    0 < quantity /\ 0 <= pointsRequested body
    /\ findUnique TicketType.id (CreateTransactionBody.ticketTypeId body) (ticketTypes db) = Some tt
    /\ TicketType.eventId tt = eventId
    /\ findUnique Event.id eventId (events db) = Some ev
    /\ quantity <= TicketType.availableSeat tt
    /\ applyVoucher eventId now (TicketType.price tt * quantity)
         (CreateTransactionBody.voucherCode body) db = (Ok (vd, vid), db)
    /\ applyCoupon userId now (TicketType.price tt * quantity) vd
         (CreateTransactionBody.couponCode body) db = (Ok (cd, cid), db)
    /\ pointsRequested body <= PointUtils.calculateUserPointBalance userId now db
    /\ t = Transaction.mk (transactionSeq db + 1) userId eventId
             (CreateTransactionBody.ticketTypeId body) vid cid quantity
             (TicketType.price tt * quantity)
             (Z.min (Z.min (pointsRequested body)
                       (PointUtils.calculateUserPointBalance userId now db))
                    (TicketType.price tt * quantity - vd - cd))
             (Z.max 0 (TicketType.price tt * quantity - vd - cd
                       - Z.min (Z.min (pointsRequested body)
                                  (PointUtils.calculateUserPointBalance userId now db))
                               (TicketType.price tt * quantity - vd - cd)))
             (JsDate.addLocal (host db) twoHours now) WAITING_PAYMENT None None now
    /\ db' = booked t (Event.title ev) now db
    /\ findUnique User.id userId (users db) = Some u.
Proof.
  unfold createTransaction, pointsRequested. intros H. cbv zeta in *.
  destruct (CreateTransactionBody.quantity body <=? 0) eqn:Hq; [discriminate|].
  destruct (_ <? 0) eqn:Hp in H; [discriminate|].
  apply Z.leb_gt in Hq. apply Z.ltb_ge in Hp.
  apply prisma_transaction_Ok in H.
  step_Ok H. apply gets_run in Hstep. destruct Hstep as [Ha ->]. inversion Ha; subst a; clear Ha.
  destruct (findUnique TicketType.id _ (ticketTypes db)) as [tt|] eqn:Htt; [|discriminate].
  step_Ok H. apply includeEvent_run in Hstep. destruct Hstep as [-> Hev].
  specialize (Hev _ eq_refl).
  destruct (TicketType.eventId tt =? eventId) eqn:He; [|discriminate].
  apply Z.eqb_eq in He. cbn [negb] in H.
  step_Ok H. apply ownEventGuard_run in Hstep. subst.
  destruct (TicketType.availableSeat tt <? _) eqn:Hs in H; [discriminate|].
  apply Z.ltb_ge in Hs.
  step_Ok H. destruct a1 as [vd vid].
  pose proof (applyVoucher_run _ _ _ _ _ _ _ Hstep); subst.
  step_Ok H. destruct a1 as [cd cid].
  pose proof (applyCoupon_run _ _ _ _ _ _ _ _ Hstep0); subst.
  step_Ok H. apply gets_run in Hstep1. destruct Hstep1 as [Ha ->]. inversion Ha; subst a1; clear Ha.
  destruct (findUnique User.id userId (users db)) as [u|] eqn:Hu; [|discriminate].
  step_Ok H. apply gets_run in Hstep1. destruct Hstep1 as [Ha ->]. inversion Ha; subst a1; clear Ha.
  destruct (_ <? _) eqn:Hb in H; [discriminate|]. apply Z.ltb_ge in Hb.
  exists tt, a, vd, vid, cd, cid, u.
  repeat (split; [assumption || reflexivity || lia|]).
  set (ptd := Z.min _ _) in *.
  unfold when, insertTransaction in H.
  destruct (truthy_id vid) eqn:Ev; destruct (truthy_id cid) eqn:Ec;
    destruct (0 <? ptd) eqn:Ep; finish_Ok;
    cbn [host set_ticketTypes set_vouchers set_coupons set_users set_points];
    (split; [reflexivity|]); (split; [|reflexivity]); unfold booked;
    cbn [Transaction.voucherId Transaction.couponId Transaction.pointsUsed];
    rewrite Ev, Ec, Ep; reflexivity.
Qed.

(** A creation that throws has changed nothing. *)
Lemma createTransaction_Throw userId eventId body now db e db' :
  createTransaction userId eventId body now db = (Throw e, db') -> db' = db.
Proof.
  unfold createTransaction. cbv zeta.
  destruct (_ <=? 0); [intros H; inversion H; reflexivity|].
  destruct (_ <? 0); [intros H; inversion H; reflexivity|].
  apply prisma_transaction_Throw.
Qed.

(** C5 as stated fails: the customer's balance is 8000 and a request for
    8001 points does not succeed clamped to 8000; it is refused. *)
Lemma createTransaction_refuses_points_above_balance :
  PointUtils.calculateUserPointBalance 20 5 Sample.db0 = 8000
  /\ createTransaction 20 1 (Sample.body 1 None None (Some 8001)) 5 Sample.db0
     = (Throw (ApiError "Insufficient valid points. Available: 8000" 400),
        Sample.db0)
  /\ ~ (exists t db',
          createTransaction 20 1 (Sample.body 1 None None (Some 8001)) 5 Sample.db0
          = (Ok t, db')).
Proof.
  split; [reflexivity|]. split; [reflexivity|].
  intros (t & db' & H). vm_compute in H. discriminate.
Qed.

(** C10 as stated fails: the organizer (user 10) of event 1 asks for zero
    tickets of the own event; the call is refused for its quantity, with
    status 400, before the ownership guard is reached. *)
Lemma createTransaction_own_event_quantity_error :
  findUnique Event.id 1 (events Sample.db0)
  = Some (Event.mk 1 1 "Gig" (Some (100 * Sample.day)))
  /\ findUnique Organizer.id 1 (organizers Sample.db0) = Some (Organizer.mk 1 10)
  /\ createTransaction 10 1 (Sample.body 0 None None None) 5 Sample.db0
     = (Throw (ApiError "Quantity must be greater than 0" 400), Sample.db0)
  /\ ~ (exists message,
          fst (createTransaction 10 1 (Sample.body 0 None None None) 5 Sample.db0)
          = Throw (ApiError message 403)).
Proof.
  repeat split; try reflexivity.
  intros (m & H). vm_compute in H. discriminate.
Qed.

(** C10, amended.  When the buyer is the user of the organizer owning the
    event (organizer ids being non-zero keys), [createTransaction] never
    succeeds and leaves the database as it was.  The error is the
    permission error, status 403, whenever the request passes the checks
    made before the guard: a positive quantity, points not negative, a
    ticket type that exists and belongs to the event. *)
Theorem createTransaction_own_event_refused :
  forall userId eventId body now db ev o,
    findUnique Event.id eventId (events db) = Some ev ->
    Event.organizerId ev <> 0 ->
    findUnique Organizer.id (Event.organizerId ev) (organizers db) = Some o ->
    Organizer.userId o = userId ->
    exists e,
      createTransaction userId eventId body now db = (Throw e, db)
      /\ (0 < CreateTransactionBody.quantity body ->
          0 <= pointsRequested body ->
          forall tt,
            findUnique TicketType.id (CreateTransactionBody.ticketTypeId body)
              (ticketTypes db) = Some tt ->
            TicketType.eventId tt = eventId ->
            e = ApiError "You cannot purchase tickets for your own event" 403).
Proof.
  intros userId eventId body now db ev o Hev Hnz Ho Hu.
  unfold createTransaction, pointsRequested. cbv zeta.
  destruct (CreateTransactionBody.quantity body <=? 0) eqn:Hq.
  { apply Z.leb_le in Hq. eexists. split; [reflexivity|]. intros; lia. }
  destruct (_ <? 0) eqn:Hp.
  { apply Z.ltb_lt in Hp. eexists. split; [reflexivity|]. intros; lia. }
  unfold includeEvent. unfold prisma_transaction, bind, gets, throw, ret. cbv beta.
  destruct (findUnique TicketType.id _ (ticketTypes db)) as [tt|] eqn:Htt.
  2:{ eexists. split; [reflexivity|]. intros _ _ tt' Htt'. discriminate. }
  cbv beta iota.
  destruct (TicketType.eventId tt =? eventId) eqn:He.
  - apply Z.eqb_eq in He. rewrite He, Hev. cbn [negb]. cbv beta iota.
    unfold ownEventGuard, bind, gets, throw.
    apply Z.eqb_neq in Hnz. rewrite Hnz. cbv beta. rewrite Ho, Hu, Z.eqb_refl.
    eexists. split; [reflexivity|]. intros; reflexivity.
  - apply Z.eqb_neq in He.
    destruct (findUnique Event.id (TicketType.eventId tt) (events db));
      cbn [negb]; cbv beta iota;
      (eexists; split; [reflexivity|]);
      intros _ _ tt' Htt' He'; inversion Htt'; subst tt'; contradiction.
Qed.

Lemma createTransaction_own_event_refused_witness :
  exists e,
    createTransaction 10 1 (Sample.body 2 None None None) 5 Sample.db0
    = (Throw e, Sample.db0)
    /\ (0 < 2 -> 0 <= 0 ->
        forall tt,
          findUnique TicketType.id 1 (ticketTypes Sample.db0) = Some tt ->
          TicketType.eventId tt = 1 ->
          e = ApiError "You cannot purchase tickets for your own event" 403).
Proof.
  apply (createTransaction_own_event_refused 10 1 (Sample.body 2 None None None)
           5 Sample.db0 (Event.mk 1 1 "Gig" (Some (100 * Sample.day)))
           (Organizer.mk 1 10));
    vm_compute; congruence.
Defined.

End Creation.

(** ** Seat inventory *)

Section Preservation.

(** *** Composition rules for [preserves] *)

Variable P : DB -> Prop.

Lemma preserves_ret {A} (a : A) : preserves P (ret a).
Proof. intros db H. exact H. Qed.

Lemma preserves_throw {A} (e : error) : preserves P (@throw A e).
Proof. intros db H. exact H. Qed.

Lemma preserves_gets {A} (f : DB -> A) : preserves P (gets f).
Proof. intros db H. exact H. Qed.

Lemma preserves_bind {A B} (m : M A) (f : A -> M B) :
  preserves P m -> (forall a, preserves P (f a)) -> preserves P (bind m f).
Proof.
  intros Hm Hf db H. unfold bind. specialize (Hm db H).
  destruct (m db) as [[a|e] db1]; simpl in *.
  - apply Hf. exact Hm.
  - exact Hm.
Qed.

(** A [bind] whose first computation only reads may use what it read. *)
Lemma preserves_bind_gets {A B} (g : DB -> A) (f : A -> M B) :
  (forall db, P db -> P (snd (f (g db) db))) -> preserves P (bind (gets g) f).
Proof. intros Hf db H. unfold bind, gets. apply Hf. exact H. Qed.

Lemma preserves_when (b : bool) (m : M unit) :
  preserves P m -> preserves P (when b m).
Proof. intros Hm. destruct b; [exact Hm | apply preserves_ret]. Qed.

Lemma preserves_forEach {A} (xs : list A) (body : A -> M unit) :
  (forall x, preserves P (body x)) -> preserves P (forEach xs body).
Proof.
  intros Hb. induction xs as [|x xs IH]; simpl.
  - apply preserves_ret.
  - apply preserves_bind; [apply Hb | intros _; exact IH].
Qed.

Lemma preserves_prisma_transaction {A} (body : M A) :
  preserves P body -> preserves P (prisma_transaction body).
Proof.
  intros Hb db H. unfold prisma_transaction. specialize (Hb db H).
  destruct (body db) as [[a|e] db1]; simpl in *; assumption.
Qed.

End Preservation.

Section SeatInventory.
Import TransactionService.

Lemma findUnique_In {R} (key : R -> Z) (k : Z) (rows : list R) (r : R) :
  findUnique key k rows = Some r -> In r rows /\ key r = k.
Proof.
  unfold findUnique. intros H. apply find_some in H.
  destruct H as [Hin Hk]. apply Z.eqb_eq in Hk. auto.
Qed.

(** Rewriting the row found keeps a row-wise property that the rewrite
    keeps on that row. *)
Lemma forallb_updateRows {R} (key : R -> Z) (p : R -> bool) (k : Z)
    (f : R -> R) (rows : list R) :
  forallb p rows = true ->
  (forall r, findUnique key k rows = Some r -> p r = true -> p (f r) = true) ->
  forallb p (updateRows key k f rows) = true.
Proof.
  unfold findUnique. induction rows as [|r rest IH]; simpl; intros Hall Hf.
  - reflexivity.
  - apply andb_true_iff in Hall. destruct Hall as [Hr Hrest].
    destruct (key r =? k); simpl.
    + rewrite (Hf r eq_refl Hr). exact Hrest.
    + rewrite Hr. apply IH; assumption.
Qed.

Lemma engineInvariant_ext (db db' : DB) :
  ticketTypes db' = ticketTypes db ->
  transactions db' = transactions db ->
  engineInvariant db -> engineInvariant db'.
Proof.
  unfold engineInvariant, seatInvariant, quantitiesPositive.
  intros -> ->. auto.
Qed.

Lemma rolledBack_ticketTypes (t : Transaction.t) (db : DB) :
  ticketTypes (rolledBack t db)
  = updateRows TicketType.id (Transaction.ticketTypeId t)
      (releaseSeats (Transaction.ticketQty t)) (ticketTypes db).
Proof.
  unfold rolledBack.
  destruct (truthy_id (Transaction.voucherId t));
    destruct (truthy_id (Transaction.couponId t));
    destruct (0 <? Transaction.pointsUsed t); reflexivity.
Qed.

Lemma booked_ticketTypes (t : Transaction.t) (title : string) (now : Z) (db : DB) :
  ticketTypes (booked t title now db)
  = updateRows TicketType.id (Transaction.ticketTypeId t)
      (reserveSeats (Transaction.ticketQty t)) (ticketTypes db).
Proof.
  unfold booked.
  destruct (truthy_id (Transaction.voucherId t));
    destruct (truthy_id (Transaction.couponId t));
    destruct (0 <? Transaction.pointsUsed t); reflexivity.
Qed.

Lemma booked_transactions (t : Transaction.t) (title : string) (now : Z) (db : DB) :
  transactions (booked t title now db) = transactions db ++ [t].
Proof.
  unfold booked.
  destruct (truthy_id (Transaction.voucherId t));
    destruct (truthy_id (Transaction.couponId t));
    destruct (0 <? Transaction.pointsUsed t); reflexivity.
Qed.

(** Releasing the seats of a stored transaction keeps the invariant. *)
Lemma engineInvariant_rolledBack (id : Z) (t : Transaction.t) (db : DB) :
  engineInvariant db ->
  findUnique Transaction.id id (transactions db) = Some t ->
  engineInvariant (rolledBack t db).
Proof.
  intros [Hseat Hqty] Ht. split.
  - unfold seatInvariant. rewrite rolledBack_ticketTypes.
    apply forallb_updateRows; [exact Hseat|].
    intros tt _ Htt. apply findUnique_In in Ht. destruct Ht as [Hin _].
    unfold quantitiesPositive in Hqty. rewrite forallb_forall in Hqty.
    specialize (Hqty t Hin). apply Z.ltb_lt in Hqty.
    apply andb_true_iff in Htt. destruct Htt as [H1 H2].
    apply Z.eqb_eq in H1. apply Z.leb_le in H2.
    apply andb_true_iff. simpl. split; [apply Z.eqb_eq | apply Z.leb_le]; lia.
  - unfold quantitiesPositive. rewrite rolledBack_transactions. exact Hqty.
Qed.

Lemma preserves_rollbackTransaction (id : Z) :
  preserves engineInvariant (rollbackTransaction id).
Proof.
  intros db H.
  destruct (rollbackTransaction id db) as [[u|e] db'] eqn:Hr; simpl.
  - apply rollbackTransaction_Ok in Hr. destruct Hr as (t & Ht & ->).
    eapply engineInvariant_rolledBack; eassumption.
  - apply rollbackTransaction_Throw in Hr. subst. exact H.
Qed.

(** Reserving seats that are available keeps the invariant. *)
Lemma preserves_createTransaction (userId eventId : Z)
    (body : CreateTransactionBody.t) (now : Z) :
  preserves engineInvariant (createTransaction userId eventId body now).
Proof.
  intros db [Hseat Hqty].
  destruct (createTransaction userId eventId body now db) as [[t|e] db'] eqn:Hc;
    simpl.
  - apply createTransaction_Ok in Hc. cbv zeta in Hc.
    destruct Hc as (tt & ev & vd & vid & cd & cid & u & Hq & _ & Htt & _ & _ & Hav
                    & _ & _ & _ & Ht & -> & _).
    split.
    + unfold seatInvariant. rewrite booked_ticketTypes.
      apply forallb_updateRows; [exact Hseat|].
      rewrite Ht. cbn [Transaction.ticketTypeId Transaction.ticketQty].
      intros r Hr Hp. rewrite Htt in Hr. inversion Hr; subst r.
      apply andb_true_iff in Hp. destruct Hp as [H1 H2].
      apply Z.eqb_eq in H1. apply Z.leb_le in H2.
      apply andb_true_iff. simpl. split; [apply Z.eqb_eq | apply Z.leb_le]; lia.
    + unfold quantitiesPositive in *. rewrite booked_transactions, forallb_app.
      rewrite Hqty, Ht. simpl. rewrite andb_true_r. apply Z.ltb_lt. exact Hq.
  - apply createTransaction_Throw in Hc. subst. split; assumption.
Qed.

Lemma preserves_updateTransaction (k : Z) (f : Transaction.t -> Transaction.t) :
  (forall t, Transaction.ticketQty (f t) = Transaction.ticketQty t) ->
  preserves engineInvariant (updateTransaction k f).
Proof.
  intros Hf. unfold updateTransaction.
  apply preserves_bind.
  - intros db [Hseat Hqty]. unfold update.
    destruct (findUnique Transaction.id k (transactions db)); simpl;
      [|split; assumption].
    split; [exact Hseat|].
    unfold quantitiesPositive. simpl.
    apply forallb_updateRows; [exact Hqty|].
    intros r _ Hr. rewrite Hf. exact Hr.
  - intros _. apply preserves_bind; [apply preserves_gets|].
    intros [t|]; [apply preserves_ret | apply preserves_throw].
Qed.

Lemma preserves_createAttendee (a : Attendee.t) :
  preserves engineInvariant (createAttendee a).
Proof.
  intros db H. unfold createAttendee.
  destruct (existsb _ (attendees db)); simpl; [exact H|].
  eapply engineInvariant_ext; [| |exact H]; reflexivity.
Qed.

(** Walk a method built from the steps above. *)
Ltac preserve :=
  repeat first
    [ apply preserves_ret
    | apply preserves_throw
    | apply preserves_gets
    | apply preserves_rollbackTransaction
    | apply preserves_createAttendee
    | apply preserves_updateTransaction; intros ?; reflexivity
    | apply preserves_when
    | apply preserves_forEach; intros ?
    | apply preserves_bind; [|intros ?]
    | match goal with
      | |- preserves _ (match ?x with _ => _ end) => destruct x
      end ].

Lemma preserves_rollbackAndMark (s : TransactionStatus) (now : Z)
    (t : Transaction.t) :
  preserves engineInvariant (rollbackAndMark s now t).
Proof. unfold rollbackAndMark. preserve. Qed.

Lemma preserves_uploadPaymentProof (id userId : Z) (proof : string) (now : Z) :
  preserves engineInvariant (uploadPaymentProof id userId proof now).
Proof. unfold uploadPaymentProof. preserve. Qed.

Lemma preserves_confirmTransaction (id organizerId : Z) (entropy : nat -> N)
    (now : Z) :
  preserves engineInvariant (confirmTransaction id organizerId entropy now).
Proof. unfold confirmTransaction, includeEvent. preserve. Qed.

Lemma preserves_rejectTransaction (id organizerId : Z) (reason : option string)
    (now : Z) :
  preserves engineInvariant (rejectTransaction id organizerId reason now).
Proof. unfold rejectTransaction, includeEvent. preserve. Qed.

Lemma preserves_cancelTransaction (id userId now : Z) :
  preserves engineInvariant (cancelTransaction id userId now).
Proof. unfold cancelTransaction. preserve. Qed.

Lemma preserves_getMyTransactions (userId now : Z) :
  preserves engineInvariant (getMyTransactions userId now).
Proof. unfold getMyTransactions. preserve; apply preserves_rollbackAndMark. Qed.

Lemma preserves_getTransactionById (id userId now : Z) :
  preserves engineInvariant (getTransactionById id userId now).
Proof.
  unfold getTransactionById, includeEvent.
  preserve; apply preserves_rollbackAndMark.
Qed.

Lemma preserves_expireTransactions (now : Z) :
  preserves engineInvariant (expireTransactions now).
Proof. unfold expireTransactions. preserve; apply preserves_rollbackAndMark. Qed.

Lemma preserves_cancelTransactions (now : Z) :
  preserves engineInvariant (cancelTransactions now).
Proof. unfold cancelTransactions. preserve; apply preserves_rollbackAndMark. Qed.

Lemma preserves_checkIn (qrToken : string) (now : Z) :
  preserves engineInvariant (checkIn qrToken now).
Proof.
  unfold checkIn, includeEvent. preserve.
  intros db H. eapply engineInvariant_ext; [| |exact H]; reflexivity.
Qed.

Lemma engineInvariant_serve (r : request) (now : Z) (db : DB) :
  engineInvariant db -> engineInvariant (serve r now db).
Proof.
  destruct r; simpl.
  - apply preserves_createTransaction.
  - apply preserves_uploadPaymentProof.
  - apply preserves_confirmTransaction.
  - apply preserves_rejectTransaction.
  - apply preserves_cancelTransaction.
  - apply preserves_getMyTransactions.
  - apply preserves_getTransactionById.
  - apply preserves_expireTransactions.
  - apply preserves_cancelTransactions.
  - apply preserves_checkIn.
Qed.

Lemma engineInvariant_run (trace : list (request * Z)) :
  forall db, engineInvariant db -> engineInvariant (run trace db).
Proof.
  induction trace as [|[r now] rest IH]; simpl; intros db H.
  - exact H.
  - apply IH. apply engineInvariant_serve. exact H.
Qed.

(** C7.  From a database in which every ticket category has
    [availableSeat + sold = totalSeat] and [availableSeat >= 0] (and the
    stored transactions are for positive quantities, as
    [createTransaction] stores them), the same holds of every ticket
    category after [createTransaction] (seat reservation), after
    [rollbackTransaction] (seat release), and after any sequence of
    requests to the engine, whether they return or throw. *)
Theorem seatInvariant_preserved :
  forall db,
    seatInvariant db = true ->
    quantitiesPositive db = true ->
    (forall userId eventId body now,
        seatInvariant (snd (createTransaction userId eventId body now db)) = true)
    /\ (forall transactionId,
          seatInvariant (snd (rollbackTransaction transactionId db)) = true)
    /\ (forall trace, seatInvariant (run trace db) = true).
Proof.
  intros db Hseat Hqty.
  assert (H : engineInvariant db) by (split; assumption).
  split; [|split].
  - intros. apply preserves_createTransaction. exact H.
  - intros. apply preserves_rollbackTransaction. exact H.
  - intros trace. apply engineInvariant_run. exact H.
Qed.

Lemma seatInvariant_preserved_witness :
  seatInvariant (run Sample.trace Sample.db0) = true
  /\ seatInvariant
       (snd (createTransaction 20 1 (Sample.body 3 None None (Some 4000)) 5
               Sample.db0)) = true
  /\ seatInvariant (snd (rollbackTransaction 1 Sample.created)) = true.
Proof.
  destruct (seatInvariant_preserved Sample.db0 eq_refl eq_refl) as (Hc & _ & Ht).
  destruct (seatInvariant_preserved Sample.created eq_refl eq_refl) as (_ & Hr & _).
  split; [apply Ht|]. split; [apply Hc | apply Hr].
Defined.

End SeatInventory.

(** ** Settlement *)

Section Settlement.
Import TransactionService.

Lemma findUnique_updateRows {R} (key : R -> Z) (k : Z) (f : R -> R)
    (rows : list R) (r : R) :
  findUnique key k rows = Some r ->
  key (f r) = k ->
  findUnique key k (updateRows key k f rows) = Some (f r).
Proof.
  unfold findUnique. induction rows as [|x rest IH]; simpl; intros H Hk.
  - discriminate.
  - destruct (key x =? k) eqn:E.
    + inversion H; subst x. simpl. rewrite Hk, Z.eqb_refl. reflexivity.
    + simpl. rewrite E. apply IH; assumption.
Qed.

(** An update that returns has rewritten the stored row and returns it. *)
Lemma updateTransaction_Ok (k : Z) (f : Transaction.t -> Transaction.t)
    (db db' : DB) (t' : Transaction.t) :
  (forall t, Transaction.id (f t) = Transaction.id t) ->
  updateTransaction k f db = (Ok t', db') ->
  exists t,
    findUnique Transaction.id k (transactions db) = Some t
    /\ t' = f t
    /\ db' = set_transactions (updateRows Transaction.id k f (transactions db)) db.
Proof.
  intros Hid H. unfold updateTransaction in H.
  step_Ok H. unfold update in Hstep.
  destruct (findUnique Transaction.id k (transactions db)) as [t|] eqn:Ht;
    [|discriminate].
  inversion Hstep; subst; clear Hstep.
  step_Ok H. inversion Hstep; subst; clear Hstep. simpl in H.
  pose proof (findUnique_In _ _ _ _ Ht) as [_ Hk].
  rewrite (findUnique_updateRows _ _ f _ t Ht) in H
    by (rewrite Hid; exact Hk).
  inversion H; subst. exists t. auto.
Qed.

Lemma NoDup_snoc {A} (l : list A) (x : A) :
  NoDup l -> ~ In x l -> NoDup (l ++ [x]).
Proof.
  induction 1 as [|y l Hy Hl IH]; simpl; intros Hx.
  - constructor; [intros []|constructor].
  - constructor.
    + rewrite in_app_iff. simpl. intros [H|[H|[]]]; [contradiction|].
      apply Hx. left. symmetry. exact H.
    + apply IH. intros H. apply Hx. right. exact H.
Qed.

(** Rows inserted one by one under the unique index: the loop that
    returns has appended them all and the tokens are still distinct. *)
Lemma forEach_createAttendee {A} (row : A -> Attendee.t) (xs : list A) :
  forall db db' u,
    tokensUnique db ->
    forEach xs (fun x => createAttendee (row x)) db = (Ok u, db') ->
    db' = set_attendees (attendees db ++ map row xs) db /\ tokensUnique db'.
Proof.
  induction xs as [|x xs IH]; simpl; intros db db' u Hu H.
  - inversion H; subst. rewrite app_nil_r. destruct db'; auto.
  - step_Ok H. unfold createAttendee in Hstep.
    destruct (existsb _ (attendees db)) eqn:Hex; [discriminate|].
    inversion Hstep; subst; clear Hstep.
    apply IH in H.
    + destruct H as [-> Hu']. split; [|exact Hu'].
      simpl. rewrite <- app_assoc. reflexivity.
    + unfold tokensUnique in *. simpl. rewrite map_app. simpl.
      apply NoDup_snoc; [exact Hu|].
      intros Hin. apply in_map_iff in Hin. destruct Hin as (b & Hb & Hin).
      assert (existsb (fun b => String.eqb (Attendee.qrToken b)
                                  (Attendee.qrToken (row x))) (attendees db) = true).
      { apply existsb_exists. exists b. split; [exact Hin|].
        apply String.eqb_eq. exact Hb. }
      congruence.
Qed.

Lemma toHex_randomBytes_nonempty (n : nat) (draw : N) :
  toHex (randomBytes (S n) draw) <> "".
Proof. cbn [randomBytes toHex]. discriminate. Qed.

(** C8.  For a stored transaction in WAITING_CONFIRMATION with quantity
    [n], in a database whose check-in tokens are pairwise distinct, a
    [confirmTransaction] that returns has set the status to DONE and
    appended exactly [n] attendee rows of that transaction, none checked
    in, each with a non-empty token, and the tokens of all attendees, old
    and new, are pairwise distinct. *)
Theorem confirmTransaction_issues_tickets :
  forall transactionId organizerId entropy now db t t' db',
    findUnique Transaction.id transactionId (transactions db) = Some t ->
    Transaction.status t = WAITING_CONFIRMATION ->
    tokensUnique db ->
    confirmTransaction transactionId organizerId entropy now db = (Ok t', db') ->
    Transaction.status t' = DONE
    /\ findUnique Transaction.id transactionId (transactions db') = Some t'
    /\ exists new,
        attendees db' = attendees db ++ new
        /\ List.length new = Z.to_nat (Transaction.ticketQty t)
        /\ Forall (fun a => Attendee.transactionId a = transactionId
                            /\ Attendee.qrToken a <> ""
                            /\ Attendee.checkedIn a = false) new
        /\ tokensUnique db'.
Proof.
  intros id oid entropy now db t t' db' Ht _ Huniq H.
  unfold confirmTransaction in H.
  step_Ok H. inversion Hstep; subst; clear Hstep.
  destruct (findOrganizerByUser oid db0) as [org|]; [|discriminate].
  step_Ok H. inversion Hstep; subst; clear Hstep.
  rewrite Ht in H.
  step_Ok H. apply includeEvent_run in Hstep. destruct Hstep as [-> _].
  destruct (negb (Event.organizerId a =? Organizer.id org)); [discriminate|].
  destruct (negb (status_eqb (Transaction.status t) WAITING_CONFIRMATION));
    [discriminate|].
  step_Ok H.
  apply updateTransaction_Ok in Hstep; [|intros; reflexivity].
  destruct Hstep as (t0 & Ht0 & -> & ->).
  rewrite Ht in Ht0. inversion Ht0; subst t0; clear Ht0.
  step_Ok H.
  apply forEach_createAttendee in Hstep; [|exact Huniq].
  destruct Hstep as [-> Huniq'].
  step_Ok H. apply forEach_await_Ok in Hstep. subst.
  step_Ok H. apply deref_Ok in Hstep. destruct Hstep as [-> _].
  step_Ok H. apply await_Ok in Hstep. destruct Hstep as [-> _].
  unfold ret in H.
  pose proof (f_equal fst H) as Hres. pose proof (f_equal snd H) as Hdb.
  cbn [fst snd] in Hres, Hdb. clear H. injection Hres as <-. subst db'.
  pose proof (findUnique_In _ _ _ _ Ht) as [_ Hid].
  split; [reflexivity|]. split.
  - cbn [transactions set_attendees set_transactions].
    apply findUnique_updateRows; [exact Ht | exact Hid].
  - eexists. split; [reflexivity|].
    split; [rewrite length_map, length_seq; reflexivity|].
    split; [|exact Huniq'].
    apply Forall_forall. intros att Hin. apply in_map_iff in Hin.
    destruct Hin as (i & <- & _).
    cbn [Attendee.transactionId Attendee.qrToken Attendee.checkedIn
         Transaction.id setStatus].
    split; [exact Hid|].
    split; [apply toHex_randomBytes_nonempty | reflexivity].
Qed.

Lemma confirmTransaction_issues_tickets_witness :
  exists t' db',
    confirmTransaction 1 10 Sample.entropy 200 Sample.paid = (Ok t', db')
    /\ Transaction.status t' = DONE
    /\ findUnique Transaction.id 1 (transactions db') = Some t'
    /\ exists new,
        attendees db' = attendees Sample.paid ++ new
        /\ List.length new = Z.to_nat 3
        /\ Forall (fun a => Attendee.transactionId a = 1
                            /\ Attendee.qrToken a <> ""
                            /\ Attendee.checkedIn a = false) new
        /\ tokensUnique db'.
Proof.
  eexists _, _. split; [vm_compute; reflexivity|].
  apply (confirmTransaction_issues_tickets 1 10 Sample.entropy 200 Sample.paid
           (Transaction.mk 1 20 1 1 None None 3 300000 4000 296000
              (5 + twoHours) WAITING_CONFIRMATION (Some "proof.png") None 100)).
  - vm_compute. reflexivity.
  - reflexivity.
  - vm_compute. constructor.
  - vm_compute. reflexivity.
Defined.

End Settlement.


(** ** The round trip when the ledger holds no look-alike entry *)

Section RoundTripExact.
Import TransactionService.

Lemma In_findUnique {R} (key : R -> Z) (rows : list R) (r : R) :
  In r rows -> exists r', findUnique key (key r) rows = Some r'.
Proof.
  intros Hin. unfold findUnique.
  destruct (find (fun x => key x =? key r) rows) as [r'|] eqn:E.
  - exists r'. reflexivity.
  - apply (find_none _ _ E) in Hin. rewrite Z.eqb_refl in Hin. discriminate.
Qed.

Lemma NoDup_findUnique {R} (key : R -> Z) (rows : list R) (r : R) :
  NoDup (map key rows) -> In r rows -> findUnique key (key r) rows = Some r.
Proof.
  unfold findUnique. induction rows as [|x rest IH]; simpl; intros Hnd Hin.
  - contradiction.
  - inversion Hnd as [|k ks Hx Hrest]; subst.
    destruct Hin as [->|Hin].
    + rewrite Z.eqb_refl. reflexivity.
    + destruct (key x =? key r) eqn:E.
      * apply Z.eqb_eq in E. exfalso. apply Hx. rewrite E.
        apply in_map. exact Hin.
      * apply IH; assumption.
Qed.

(** Undoing the rewrite of the row found gives the table back. *)
Lemma updateRows_inverse {R} (key : R -> Z) (k : Z) (f g : R -> R)
    (rows : list R) (r : R) :
  findUnique key k rows = Some r ->
  key (f r) = k ->
  g (f r) = r ->
  updateRows key k g (updateRows key k f rows) = rows.
Proof.
  unfold findUnique. induction rows as [|x rest IH]; simpl; intros H Hk Hg.
  - discriminate.
  - destruct (key x =? k) eqn:E.
    + inversion H; subst x. simpl. rewrite Hk, Z.eqb_refl, Hg. reflexivity.
    + simpl. rewrite E. f_equal. apply IH; assumption.
Qed.

Lemma findUnique_app_new (rows : list Transaction.t) (t : Transaction.t) (bound : Z) :
  forallb (fun r => Transaction.id r <=? bound) rows = true ->
  bound < Transaction.id t ->
  findUnique Transaction.id (Transaction.id t) (rows ++ [t]) = Some t.
Proof.
  unfold findUnique. induction rows as [|x rest IH]; simpl; intros H Hlt.
  - rewrite Z.eqb_refl. reflexivity.
  - apply andb_true_iff in H. destruct H as [Hx Hrest]. apply Z.leb_le in Hx.
    destruct (Transaction.id x =? Transaction.id t) eqn:E.
    + apply Z.eqb_eq in E. lia.
    + apply IH; assumption.
Qed.

Lemma filter_all {A} (p : A -> bool) (l : list A) :
  forallb p l = true -> filter p l = l.
Proof.
  induction l as [|x l IH]; simpl; intros H; [reflexivity|].
  apply andb_true_iff in H. destruct H as [Hx Hl].
  rewrite Hx, IH by assumption. reflexivity.
Qed.

(** The entry a creation appends is one the rollback deletes. *)
Lemma isUsedEntryOf_usedPointEntry (t : Transaction.t) (now : Z) (title : string) :
  isUsedEntryOf t
    (usedPointEntry (Transaction.userId t) (Transaction.pointsUsed t) now title)
  = true.
Proof.
  unfold isUsedEntryOf, usedPointEntry.
  cbn [Point.userId Point.type Point.description Point.amount].
  rewrite !Z.eqb_refl. reflexivity.
Qed.

Lemma bind_returns {A B} (m : M A) (f : A -> M B) (db db1 : DB) (a : A) :
  m db = (Ok a, db1) -> bind m f db = f a db1.
Proof. unfold bind. intros ->. reflexivity. Qed.

Lemma update_returns {R} (key : R -> Z) table set k f (db : DB) (r : R) :
  findUnique key k (table db) = Some r ->
  update key table set k f db = (Ok tt, set (updateRows key k f (table db)) db).
Proof. unfold update. intros ->. reflexivity. Qed.

Lemma rollbackTransaction_returns (id : Z) (t : Transaction.t) (db : DB) :
  findUnique Transaction.id id (transactions db) = Some t ->
  (exists r, findUnique TicketType.id (Transaction.ticketTypeId t) (ticketTypes db) = Some r) ->
  (forall v, truthy_id (Transaction.voucherId t) = Some v ->
             exists r, findUnique Voucher.id v (vouchers db) = Some r) ->
  (forall c, truthy_id (Transaction.couponId t) = Some c ->
             exists r, findUnique Coupon.id c (coupons db) = Some r) ->
  (0 < Transaction.pointsUsed t ->
   exists r, findUnique User.id (Transaction.userId t) (users db) = Some r) ->
  rollbackTransaction id db = (Ok tt, rolledBack t db).
Proof.
  intros Ht [r1 H1] Hv Hc Hu.
  unfold rollbackTransaction, prisma_transaction.
  rewrite (bind_returns _ _ db db (Some t)) by (unfold gets; rewrite Ht; reflexivity).
  rewrite (bind_returns _ _ db _ tt (update_returns TicketType.id ticketTypes _ _ _ db r1 H1)).
  unfold rolledBack, when.
  destruct (truthy_id (Transaction.voucherId t)) as [v|] eqn:Ev;
    [destruct (Hv v eq_refl) as [r2 H2];
     erewrite (bind_returns _ _ _ _ tt) by (eapply (update_returns Voucher.id vouchers); exact H2)
    | erewrite (bind_returns _ _ _ _ tt) by reflexivity ];
  (destruct (truthy_id (Transaction.couponId t)) as [c|] eqn:Ec;
    [destruct (Hc c eq_refl) as [r3 H3];
     erewrite (bind_returns _ _ _ _ tt) by (eapply (update_returns Coupon.id coupons); exact H3)
    | erewrite (bind_returns _ _ _ _ tt) by reflexivity ]);
  (destruct (0 <? Transaction.pointsUsed t) eqn:Ep;
    [ apply Z.ltb_lt in Ep; destruct (Hu Ep) as [r4 H4];
      erewrite (bind_returns _ _ _ _ tt) by (eapply (update_returns User.id users); exact H4);
      reflexivity
    | reflexivity ]).
Qed.

(** The tables a creation and a rollback leave behind, one by one. *)

Ltac by_cases_on t :=
  destruct (truthy_id (Transaction.voucherId t));
  destruct (truthy_id (Transaction.couponId t));
  destruct (0 <? Transaction.pointsUsed t); reflexivity.

Lemma booked_vouchers (t : Transaction.t) (title : string) (now : Z) (db : DB) :
  vouchers (booked t title now db)
  = match truthy_id (Transaction.voucherId t) with
    | Some v => updateRows Voucher.id v (addUsedCount 1) (vouchers db)
    | None => vouchers db
    end.
Proof. unfold booked. by_cases_on t. Qed.

Lemma rolledBack_vouchers (t : Transaction.t) (db : DB) :
  vouchers (rolledBack t db)
  = match truthy_id (Transaction.voucherId t) with
    | Some v => updateRows Voucher.id v (addUsedCount (-1)) (vouchers db)
    | None => vouchers db
    end.
Proof. unfold rolledBack. by_cases_on t. Qed.

Lemma booked_coupons (t : Transaction.t) (title : string) (now : Z) (db : DB) :
  coupons (booked t title now db)
  = match truthy_id (Transaction.couponId t) with
    | Some c => updateRows Coupon.id c (setIsUsed true) (coupons db)
    | None => coupons db
    end.
Proof. unfold booked. by_cases_on t. Qed.

Lemma rolledBack_coupons (t : Transaction.t) (db : DB) :
  coupons (rolledBack t db)
  = match truthy_id (Transaction.couponId t) with
    | Some c => updateRows Coupon.id c (setIsUsed false) (coupons db)
    | None => coupons db
    end.
Proof. unfold rolledBack. by_cases_on t. Qed.

Lemma booked_users (t : Transaction.t) (title : string) (now : Z) (db : DB) :
  users (booked t title now db)
  = if 0 <? Transaction.pointsUsed t
    then updateRows User.id (Transaction.userId t)
           (addPoint (- Transaction.pointsUsed t)) (users db)
    else users db.
Proof. unfold booked. by_cases_on t. Qed.

Lemma rolledBack_users (t : Transaction.t) (db : DB) :
  users (rolledBack t db)
  = if 0 <? Transaction.pointsUsed t
    then updateRows User.id (Transaction.userId t)
           (addPoint (Transaction.pointsUsed t)) (users db)
    else users db.
Proof. unfold rolledBack. by_cases_on t. Qed.

Lemma booked_points (t : Transaction.t) (title : string) (now : Z) (db : DB) :
  points (booked t title now db)
  = if 0 <? Transaction.pointsUsed t
    then points db ++
         [usedPointEntry (Transaction.userId t) (Transaction.pointsUsed t) now title]
    else points db.
Proof. unfold booked. by_cases_on t. Qed.

Lemma rolledBack_points (t : Transaction.t) (db : DB) :
  points (rolledBack t db)
  = if 0 <? Transaction.pointsUsed t
    then filter (fun p => negb (isUsedEntryOf t p)) (points db)
    else points db.
Proof. unfold rolledBack. by_cases_on t. Qed.

(** The voucher and the coupon a creation applied are stored rows; the
    coupon was unused. *)
Lemma applyVoucher_Ok_row eventId now subtotal code (db db' : DB) vd vid :
  applyVoucher eventId now subtotal code db = (Ok (vd, vid), db') ->
  forall v, truthy_id vid = Some v ->
            exists r, findUnique Voucher.id v (vouchers db) = Some r.
Proof.
  unfold applyVoucher, bind, gets, ret, throw.
  destruct (truthy_string code); [|intros H; inversion H; discriminate].
  cbv beta.
  destruct (find _ (vouchers db)) as [v0|] eqn:E; [|discriminate].
  destruct (Voucher.usageLimit v0 <=? Voucher.usedCount v0); [discriminate|].
  intros H v Hv. inversion H; subst. simpl in Hv.
  destruct (Voucher.id v0 =? 0); [discriminate|]. inversion Hv; subst.
  apply find_some in E. destruct E as [Hin _].
  apply In_findUnique. exact Hin.
Qed.

Lemma applyCoupon_Ok_row userId now subtotal vd0 code (db db' : DB) cd cid :
  couponKeysUnique db ->
  applyCoupon userId now subtotal vd0 code db = (Ok (cd, cid), db') ->
  forall c, truthy_id cid = Some c ->
            exists r, findUnique Coupon.id c (coupons db) = Some r
                      /\ Coupon.isUsed r = false.
Proof.
  intros Hnd. unfold applyCoupon, bind, gets, ret, throw.
  destruct (truthy_string code); [|intros H; inversion H; discriminate].
  cbv beta.
  destruct (find _ (coupons db)) as [c0|] eqn:E; [|discriminate].
  cbv beta iota.
  destruct (isOrganizerRole _); [discriminate|].
  intros H c Hc. inversion H; subst. simpl in Hc.
  destruct (Coupon.id c0 =? 0); [discriminate|]. inversion Hc; subst.
  apply find_some in E. destruct E as [Hin Hm].
  exists c0. split; [apply NoDup_findUnique; assumption|].
  unfold couponMatches in Hm. apply andb_true_iff in Hm. destruct Hm as [_ Hm].
  destruct (Coupon.isUsed c0); [discriminate | reflexivity].
Qed.

Lemma calculateUserPointBalance_points (userId now : Z) (db db' : DB) :
  points db' = points db ->
  PointUtils.calculateUserPointBalance userId now db'
  = PointUtils.calculateUserPointBalance userId now db.
Proof.
  intros H.
  unfold PointUtils.calculateUserPointBalance, PointUtils.earnedPoints,
    PointUtils.usedPointsSum.
  rewrite H. reflexivity.
Qed.

(** Where the round trip is exact.  In a database whose
    transaction sequence is ahead of the stored ids and whose coupon ids
    are keys, if the ledger holds no USED entry that looks like the one the
    new transaction writes (same user, same amount, a description
    containing "transaction on event"), then rolling back a transaction
    just created returns, and seats, voucher counters, coupon flags, cached
    points, the ledger and every FIFO balance are what they were before
    the creation. *)
Lemma createTransaction_rollbackTransaction_roundtrip :
  forall userId eventId body now db t db1,
    sequenceAhead db = true ->
    couponKeysUnique db ->
    createTransaction userId eventId body now db = (Ok t, db1) ->
    noUsedEntryLike t db = true ->
    exists db2,
      rollbackTransaction (Transaction.id t) db1 = (Ok tt, db2)
      /\ ticketTypes db2 = ticketTypes db
      /\ vouchers db2 = vouchers db
      /\ coupons db2 = coupons db
      /\ users db2 = users db
      /\ points db2 = points db
      /\ forall u now',
          PointUtils.calculateUserPointBalance u now' db2
          = PointUtils.calculateUserPointBalance u now' db.
Proof.
  intros userId eventId body now db t db1 Hseq Hkeys Hc Hfresh.
  apply createTransaction_Ok in Hc. cbv zeta in Hc.
  destruct Hc as (tt0 & ev & vd & vid & cd & cid & u & Hq & Hp & Htt & He & Hev
                  & Hav & Hv & Hcp & Hbal & Ht & -> & Hu).
  pose proof (findUnique_In _ _ _ _ Htt) as [_ Httid].
  pose proof (findUnique_In _ _ _ _ Hu) as [_ Huid].
  assert (Eid : Transaction.id t = transactionSeq db + 1) by (rewrite Ht; reflexivity).
  assert (Ett : Transaction.ticketTypeId t = CreateTransactionBody.ticketTypeId body)
    by (rewrite Ht; reflexivity).
  assert (Eq : Transaction.ticketQty t = CreateTransactionBody.quantity body)
    by (rewrite Ht; reflexivity).
  assert (Ev : Transaction.voucherId t = vid) by (rewrite Ht; reflexivity).
  assert (Ec : Transaction.couponId t = cid) by (rewrite Ht; reflexivity).
  assert (Eu : Transaction.userId t = userId) by (rewrite Ht; reflexivity).
  clear Ht.
  set (db1 := booked t (Event.title ev) now db).
  assert (Hrb : rollbackTransaction (Transaction.id t) db1 = (Ok tt, rolledBack t db1)).
  { apply rollbackTransaction_returns.
    - unfold db1. rewrite booked_transactions.
      apply findUnique_app_new with (bound := transactionSeq db); [exact Hseq | lia].
    - unfold db1. rewrite booked_ticketTypes, Ett, Eq. eexists.
      apply findUnique_updateRows; [exact Htt | exact Httid].
    - intros v Hv'. unfold db1. rewrite booked_vouchers, Hv'.
      rewrite Ev in Hv'.
      destruct (applyVoucher_Ok_row _ _ _ _ _ _ _ _ Hv v Hv') as [r Hr].
      pose proof (findUnique_In _ _ _ _ Hr) as [_ Hk].
      eexists. apply findUnique_updateRows; [exact Hr | exact Hk].
    - intros c Hc'. unfold db1. rewrite booked_coupons, Hc'.
      rewrite Ec in Hc'.
      destruct (applyCoupon_Ok_row _ _ _ _ _ _ _ _ _ Hkeys Hcp c Hc') as (r & Hr & _).
      pose proof (findUnique_In _ _ _ _ Hr) as [_ Hk].
      eexists. apply findUnique_updateRows; [exact Hr | exact Hk].
    - intros Hpos. apply Z.ltb_lt in Hpos. unfold db1.
      rewrite booked_users, Hpos, Eu. eexists.
      apply findUnique_updateRows; [exact Hu | exact Huid]. }
  assert (Hpoints : points (rolledBack t db1) = points db).
  { rewrite rolledBack_points. unfold db1. rewrite booked_points.
    destruct (0 <? Transaction.pointsUsed t); [|reflexivity].
    rewrite filter_app. simpl. rewrite isUsedEntryOf_usedPointEntry. simpl.
    rewrite app_nil_r. apply filter_all. exact Hfresh. }
  exists (rolledBack t db1). split; [exact Hrb|].
  split; [|split; [|split; [|split; [|split]]]].
  - rewrite rolledBack_ticketTypes. unfold db1. rewrite booked_ticketTypes, Ett.
    apply updateRows_inverse with (r := tt0); [exact Htt | exact Httid|].
    destruct tt0. unfold releaseSeats, reserveSeats. simpl. f_equal; lia.
  - rewrite rolledBack_vouchers. unfold db1. rewrite booked_vouchers.
    destruct (truthy_id (Transaction.voucherId t)) as [v|] eqn:Hv'; [|reflexivity].
    rewrite Ev in Hv'.
    destruct (applyVoucher_Ok_row _ _ _ _ _ _ _ _ Hv v Hv') as [r Hr].
    pose proof (findUnique_In _ _ _ _ Hr) as [_ Hk].
    apply updateRows_inverse with (r := r); [exact Hr | exact Hk|].
    destruct r. unfold addUsedCount. simpl. f_equal; lia.
  - rewrite rolledBack_coupons. unfold db1. rewrite booked_coupons.
    destruct (truthy_id (Transaction.couponId t)) as [c|] eqn:Hc'; [|reflexivity].
    rewrite Ec in Hc'.
    destruct (applyCoupon_Ok_row _ _ _ _ _ _ _ _ _ Hkeys Hcp c Hc') as (r & Hr & Hused).
    pose proof (findUnique_In _ _ _ _ Hr) as [_ Hk].
    apply updateRows_inverse with (r := r); [exact Hr | exact Hk|].
    destruct r. unfold setIsUsed. simpl in *. subst. reflexivity.
  - rewrite rolledBack_users. unfold db1. rewrite booked_users.
    destruct (0 <? Transaction.pointsUsed t); [|reflexivity].
    rewrite Eu.
    apply updateRows_inverse with (r := u); [exact Hu | exact Huid|].
    destruct u. unfold addPoint. simpl. f_equal; lia.
  - exact Hpoints.
  - intros u' now'. apply calculateUserPointBalance_points. exact Hpoints.
Qed.

(** On the sample database the first purchase with points meets no
    look-alike entry, and its rollback restores the ledger. *)
Example roundtrip_on_sample :
  exists db2,
    rollbackTransaction 1 Sample.created = (Ok tt, db2)
    /\ ticketTypes db2 = ticketTypes Sample.db0
    /\ vouchers db2 = vouchers Sample.db0
    /\ coupons db2 = coupons Sample.db0
    /\ users db2 = users Sample.db0
    /\ points db2 = points Sample.db0
    /\ forall u now',
        PointUtils.calculateUserPointBalance u now' db2
        = PointUtils.calculateUserPointBalance u now' Sample.db0.
Proof.
  apply (createTransaction_rollbackTransaction_roundtrip 20 1
           (Sample.body 3 None None (Some 4000)) 5 Sample.db0
           (Transaction.mk 1 20 1 1 None None 3 300000 4000 296000
              (5 + twoHours) WAITING_PAYMENT None None 5) Sample.created).
  - reflexivity.
  - vm_compute. repeat constructor. intros [].
  - vm_compute. reflexivity.
  - reflexivity.
Qed.

End RoundTripExact.


(** ** Points at a purchase *)

Section PointsAtPurchase.
Import TransactionService.

Lemma includeEvent_found (eventId : Z) (db : DB) (ev : Event.t) :
  findUnique Event.id eventId (events db) = Some ev ->
  includeEvent eventId db = (Ok ev, db).
Proof. intros H. unfold includeEvent, bind, gets. rewrite H. reflexivity. Qed.

(** A request that passes every check made before the points check and
    asks for more points than the FIFO balance is refused for its points. *)
Lemma createTransaction_insufficient_points userId eventId body now db
    tt ev vd vid cd cid u :
  0 < CreateTransactionBody.quantity body ->
  findUnique TicketType.id (CreateTransactionBody.ticketTypeId body)
    (ticketTypes db) = Some tt ->
  TicketType.eventId tt = eventId ->
  findUnique Event.id eventId (events db) = Some ev ->
  ownEventGuard userId ev db = (Ok Datatypes.tt, db) ->
  CreateTransactionBody.quantity body <= TicketType.availableSeat tt ->
  applyVoucher eventId now (TicketType.price tt * CreateTransactionBody.quantity body)
    (CreateTransactionBody.voucherCode body) db = (Ok (vd, vid), db) ->
  applyCoupon userId now (TicketType.price tt * CreateTransactionBody.quantity body)
    vd (CreateTransactionBody.couponCode body) db = (Ok (cd, cid), db) ->
  findUnique User.id userId (users db) = Some u ->
  PointUtils.calculateUserPointBalance userId now db < pointsRequested body ->
  createTransaction userId eventId body now db
  = (Throw (ApiError
              (String.append "Insufficient valid points. Available: "
                 (string_of_Z (PointUtils.calculateUserPointBalance userId now db)))
              400), db).
Proof.
  intros Hq Htt He Hev Hguard Hseat Hv Hc Hu Hlt.
  pose proof (calculateUserPointBalance_nonneg userId now db) as Hnn.
  unfold createTransaction. unfold pointsRequested in Hlt. cbv zeta.
  apply Z.leb_gt in Hq. rewrite Hq.
  assert (Hp : (match CreateTransactionBody.pointsToUse body with
                | Some p => p | None => 0 end <? 0) = false)
    by (apply Z.ltb_ge; lia).
  rewrite Hp.
  unfold prisma_transaction.
  unfold bind at 1. unfold gets at 1. rewrite Htt.
  unfold bind at 1. subst eventId. rewrite (includeEvent_found _ _ _ Hev).
  rewrite Z.eqb_refl. cbn [negb].
  unfold bind at 1. rewrite Hguard.
  apply Z.ltb_ge in Hseat. rewrite Hseat.
  unfold bind at 1. rewrite Hv.
  unfold bind at 1. rewrite Hc.
  unfold bind at 1. unfold gets at 1. rewrite Hu.
  unfold bind at 1. unfold gets at 1.
  apply Z.ltb_lt in Hlt. rewrite Hlt.
  reflexivity.
Qed.

(** C5, amended.  When [createTransaction] succeeds, the request asked
    for no more points than the FIFO balance, and the [pointsUsed] stored
    on the transaction is the least of the points requested, the balance
    and what remains to pay after the voucher and the coupon; the final
    price is what then remains, not below zero.  That many points are
    applied when the number is positive: they are taken off the cached
    total of the buyer and a USED entry of minus that amount is appended
    to the ledger.  When it is not positive (zero, or negative where the
    discounts exceed the subtotal) no points are applied: the users and
    the ledger are as they were.  A request for more points than the FIFO
    balance never succeeds: the call throws and leaves the database as it
    was, and the error is "Insufficient valid points" with status 400
    whenever the request passes the checks made before the points check
    (a positive quantity, a ticket type that exists and belongs to the
    event, an event that is not the buyer's own, enough seats, a voucher
    and a coupon that are accepted if named, a buyer that exists). *)
Theorem createTransaction_points_applied :
  forall userId eventId body now db,
    let requested := pointsRequested body in
    let balance := PointUtils.calculateUserPointBalance userId now db in
    (forall t db',
        createTransaction userId eventId body now db = (Ok t, db') ->
        exists vd vid cd cid ev,
          applyVoucher eventId now (Transaction.totalPrice t)
            (CreateTransactionBody.voucherCode body) db = (Ok (vd, vid), db)
          /\ applyCoupon userId now (Transaction.totalPrice t) vd
               (CreateTransactionBody.couponCode body) db = (Ok (cd, cid), db)
          /\ findUnique Event.id eventId (events db) = Some ev
          /\ 0 <= requested <= balance
          /\ Transaction.pointsUsed t
             = Z.min (Z.min requested balance) (Transaction.totalPrice t - vd - cd)
          /\ Transaction.finalPrice t
             = Z.max 0 (Transaction.totalPrice t - vd - cd
                        - Transaction.pointsUsed t)
          /\ (0 < Transaction.pointsUsed t ->
              users db'
              = updateRows User.id userId
                  (addPoint (- Transaction.pointsUsed t)) (users db)
              /\ points db'
                 = points db
                   ++ [usedPointEntry userId (Transaction.pointsUsed t) now
                         (Event.title ev)])
          /\ (Transaction.pointsUsed t <= 0 ->
              users db' = users db /\ points db' = points db))
    /\ (balance < requested ->
        exists e,
          createTransaction userId eventId body now db = (Throw e, db)
          /\ (0 < CreateTransactionBody.quantity body ->
              forall tt ev vd vid cd cid u,
                findUnique TicketType.id (CreateTransactionBody.ticketTypeId body)
                  (ticketTypes db) = Some tt ->
                TicketType.eventId tt = eventId ->
                findUnique Event.id eventId (events db) = Some ev ->
                ownEventGuard userId ev db = (Ok Datatypes.tt, db) ->
                CreateTransactionBody.quantity body <= TicketType.availableSeat tt ->
                applyVoucher eventId now
                  (TicketType.price tt * CreateTransactionBody.quantity body)
                  (CreateTransactionBody.voucherCode body) db = (Ok (vd, vid), db) ->
                applyCoupon userId now
                  (TicketType.price tt * CreateTransactionBody.quantity body) vd
                  (CreateTransactionBody.couponCode body) db = (Ok (cd, cid), db) ->
                findUnique User.id userId (users db) = Some u ->
                e = ApiError
                      (String.append "Insufficient valid points. Available: "
                         (string_of_Z balance)) 400)).
Proof.
  intros userId eventId body now db requested balance. split.
  - intros t db' H. apply createTransaction_Ok in H. cbv zeta in H.
    destruct H as (tt & ev & vd & vid & cd & cid & u & _ & Hreq & _ & _ & Hev & _
                   & Hv & Hc & Hle & Ht & -> & _).
    exists vd, vid, cd, cid, ev.
    rewrite booked_users, booked_points.
    rewrite Ht.
    cbn [Transaction.totalPrice Transaction.pointsUsed Transaction.finalPrice
         Transaction.userId].
    split; [exact Hv|]. split; [exact Hc|]. split; [exact Hev|].
    split; [split; assumption|]. split; [reflexivity|]. split; [reflexivity|].
    split.
    + intros Hpos. apply Z.ltb_lt in Hpos. fold requested balance in Hpos |- *.
      rewrite Hpos. split; reflexivity.
    + intros Hneg. apply Z.ltb_ge in Hneg. fold requested balance in Hneg |- *.
      rewrite Hneg. split; reflexivity.
  - intros Hlt.
    destruct (createTransaction userId eventId body now db) as [[t|e] db'] eqn:H.
    + apply createTransaction_Ok in H. cbv zeta in H.
      destruct H as (tt & ev & vd & vid & cd & cid & u & _ & _ & _ & _ & _ & _
                     & _ & _ & Hle & _). unfold requested, balance in Hlt. lia.
    + pose proof (createTransaction_Throw _ _ _ _ _ _ _ H) as ->.
      exists e. split; [reflexivity|].
      intros Hq tt ev vd vid cd cid u Htt He Hev Hguard Hseat Hv Hc Hu.
      rewrite (createTransaction_insufficient_points userId eventId body now db
                 tt ev vd vid cd cid u Hq Htt He Hev Hguard Hseat Hv Hc Hu Hlt)
        in H.
      inversion H. reflexivity.
Qed.

Lemma createTransaction_points_applied_witness :
  (exists t db',
      createTransaction 20 1
        (Sample.body 1 (Some "V10") (Some "CPN") (Some 8000)) 5 Sample.db0
      = (Ok t, db')
      /\ Transaction.pointsUsed t = 8000
      /\ findUnique User.id 20 (users Sample.db0) = Some (User.mk 20 CUSTOMER 8000)
      /\ findUnique User.id 20 (users db') = Some (User.mk 20 CUSTOMER 0)
      /\ points db'
         = points Sample.db0 ++ [usedPointEntry 20 8000 5 "Gig"])
  /\ (exists t db',
        createTransaction 20 1
          (Sample.body 1 (Some "V150") None (Some 100)) 5 Sample.db0_generous
        = (Ok t, db')
        /\ Transaction.pointsUsed t = -50000
        /\ Transaction.finalPrice t = 0
        /\ users db' = users Sample.db0_generous
        /\ points db' = points Sample.db0_generous)
  /\ createTransaction 20 1 (Sample.body 1 None None (Some 8001)) 5 Sample.db0
     = (Throw (ApiError "Insufficient valid points. Available: 8000" 400),
        Sample.db0).
Proof.
  split; [|split].
  - destruct (createTransaction 20 1
                (Sample.body 1 (Some "V10") (Some "CPN") (Some 8000)) 5 Sample.db0)
      as [[t|e] db'] eqn:E; [|vm_compute in E; discriminate E].
    destruct (proj1 (createTransaction_points_applied 20 1
                       (Sample.body 1 (Some "V10") (Some "CPN") (Some 8000))
                       5 Sample.db0) t db' E)
      as (vd & vid & cd & cid & ev & _ & _ & Hev & _ & _ & _ & Hpos & _).
    assert (Ht : Transaction.pointsUsed t = 8000)
      by (vm_compute in E; inversion E; reflexivity).
    vm_compute in Hev. inversion Hev; subst ev; clear Hev.
    rewrite Ht in Hpos. destruct Hpos as [Hu Hp]; [reflexivity|].
    exists t, db'. split; [reflexivity|]. split; [exact Ht|].
    split; [reflexivity|]. split; [rewrite Hu; reflexivity | exact Hp].
  - destruct (createTransaction 20 1
                (Sample.body 1 (Some "V150") None (Some 100)) 5 Sample.db0_generous)
      as [[t|e] db'] eqn:E; [|vm_compute in E; discriminate E].
    destruct (proj1 (createTransaction_points_applied 20 1
                       (Sample.body 1 (Some "V150") None (Some 100))
                       5 Sample.db0_generous) t db' E)
      as (vd & vid & cd & cid & ev & _ & _ & _ & _ & _ & _ & _ & Hneg).
    assert (Ht : Transaction.pointsUsed t = -50000
                 /\ Transaction.finalPrice t = 0)
      by (vm_compute in E; inversion E; split; reflexivity).
    destruct Ht as [Ht Hf].
    rewrite Ht in Hneg. destruct Hneg as [Hu Hp]; [discriminate|].
    exists t, db'. split; [reflexivity|]. split; [exact Ht|].
    split; [exact Hf|]. split; [exact Hu | exact Hp].
  - destruct (proj2 (createTransaction_points_applied 20 1
                       (Sample.body 1 None None (Some 8001)) 5 Sample.db0))
      as (e & He & Hmsg).
    + vm_compute. reflexivity.
    + rewrite He. f_equal. f_equal.
      apply (Hmsg eq_refl (TicketType.mk 1 1 100000 10 10 0)
               (Event.mk 1 1 "Gig" (Some (100 * Sample.day)))
               0 None 0 None (User.mk 20 CUSTOMER 8000));
        vm_compute; reflexivity || discriminate.
Defined.

End PointsAtPurchase.


(** * Further properties of the engine *)

(** ** Bounds of the point balance and the expiry warning *)

Section PointBounds.
Import PointUtils.

Lemma sum_insertByCreatedAt (g : Point.t -> Z) (p : Point.t) (l : list Point.t) :
  fold_right (fun q acc => g q + acc) 0 (insertByCreatedAt p l)
  = g p + fold_right (fun q acc => g q + acc) 0 l.
Proof.
  induction l as [|q l IH]; simpl; [reflexivity|].
  destruct (Point.createdAt p <=? Point.createdAt q); simpl; [reflexivity|].
  rewrite IH. lia.
Qed.

(** Sorting does not change a sum over the rows. *)
Lemma sum_orderByCreatedAtAsc (g : Point.t -> Z) (l : list Point.t) :
  fold_right (fun q acc => g q + acc) 0 (orderByCreatedAtAsc l)
  = fold_right (fun q acc => g q + acc) 0 l.
Proof.
  unfold orderByCreatedAtAsc. induction l as [|p l IH]; simpl; [reflexivity|].
  rewrite sum_insertByCreatedAt, IH. reflexivity.
Qed.

(** X1.  Whatever the ledger holds, the balance is never negative and never
    more than the positive EARNED amounts of the user that are unexpired. *)
Theorem calculateUserPointBalance_bounds :
  forall userId now db,
    0 <= calculateUserPointBalance userId now db
    /\ calculateUserPointBalance userId now db <= unexpiredEarned userId now db.
Proof.
  intros userId now db. unfold calculateUserPointBalance, unexpiredEarned.
  pose proof (fold_fifoStep_bounds now (earnedPoints userId db)
                (Z.abs (usedPointsSum userId db)) 0) as [H1 H2].
  unfold earnedPoints in H2 at 2. rewrite sum_orderByCreatedAtAsc in H2.
  cbv zeta. lia.
Qed.

Lemma spec_walk_no_expiry (now : Z) (earned : list Point.t) :
  Forall (fun p => 0 <= Point.amount p /\ notExpired now p = true) earned ->
  forall pool, 0 <= pool ->
    spec_walk now pool earned
    = Z.max 0 (fold_right (fun p acc => Point.amount p + acc) 0 earned - pool)
    /\ 0 <= fold_right (fun p acc => Point.amount p + acc) 0 earned.
Proof.
  induction 1 as [|e rest [He Hn] _ IH]; intros pool Hpool; simpl.
  - split; lia.
  - rewrite spec_unexpired_notExpired, Hn.
    destruct (IH (pool - Z.min (Point.amount e) pool)) as [IH1 IH2]; [lia|].
    rewrite IH1. split; lia.
Qed.

Lemma noneExpired_earned (userId now : Z) (db : DB) :
  ledgerSigned userId db = true ->
  noneExpired userId now db = true ->
  Forall (fun p => 0 <= Point.amount p /\ notExpired now p = true)
         (earnedPoints userId db).
Proof.
  intros Hs Hn.
  pose proof (ledgerSigned_earned userId db Hs) as Hpos.
  rewrite Forall_forall in *. intros p Hp. split; [apply Hpos; exact Hp|].
  unfold earnedPoints in Hp. apply In_orderByCreatedAtAsc, filter_In in Hp.
  destruct Hp as [Hin Hf].
  unfold noneExpired in Hn. rewrite forallb_forall in Hn.
  specialize (Hn p Hin). rewrite Hf in Hn. exact Hn.
Qed.

(** X2.  On a ledger with the signs of the data model, as long as none of
    the user's EARNED entries has expired, the FIFO balance is the EARNED
    total minus the absolute USED total, and 0 if more was used than
    earned. *)
Theorem calculateUserPointBalance_without_expiry :
  forall userId now db,
    ledgerSigned userId db = true ->
    noneExpired userId now db = true ->
    calculateUserPointBalance userId now db
    = Z.max 0 (earnedTotal userId db - Z.abs (usedPointsSum userId db)).
Proof.
  intros userId now db Hs Hn.
  unfold calculateUserPointBalance. cbv zeta.
  rewrite fold_fifoStep_spec_walk;
    [|apply ledgerSigned_earned; exact Hs | apply Z.abs_nonneg].
  destruct (spec_walk_no_expiry now _ (noneExpired_earned _ _ _ Hs Hn)
              (Z.abs (usedPointsSum userId db)) (Z.abs_nonneg _)) as [H _].
  rewrite H. unfold earnedPoints, earnedTotal.
  rewrite sum_orderByCreatedAtAsc. lia.
Qed.

Lemma calculateUserPointBalance_without_expiry_witness :
  calculateUserPointBalance 20 0 Sample.fifoLedger
  = Z.max 0 (earnedTotal 20 Sample.fifoLedger
             - Z.abs (usedPointsSum 20 Sample.fifoLedger)).
Proof.
  apply (calculateUserPointBalance_without_expiry 20 0 Sample.fifoLedger);
    reflexivity.
Defined.

Lemma fold_expiringStep_lockstep (now threshold : Z) (all : list Point.t) :
  forall earned pool balance amount nearest,
    (forall p, In p earned -> In p all) ->
    expiringOk now threshold all amount nearest ->
    let '(pool1, balance1) := fold_left (fifoStep now) earned (pool, balance) in
    let '(pool2, amount1, nearest1) :=
      fold_left (expiringStep now threshold) earned (pool, amount, nearest) in
    pool1 = pool2
    /\ amount1 - amount <= balance1 - balance
    /\ expiringOk now threshold all amount1 nearest1.
Proof.
  induction earned as [|e rest IH]; intros pool balance amount nearest Hsub Hok.
  - simpl. split; [reflexivity|]. split; [lia | exact Hok].
  - assert (Hrest : forall p, In p rest -> In p all)
      by (intros p Hp; apply Hsub; right; exact Hp).
    assert (He : In e all) by (apply Hsub; left; reflexivity).
    destruct Hok as (Hpos & Hnone & Hdate).
    cbn [fold_left]. unfold fifoStep at 2, expiringStep at 2, notExpired.
    set (av := if 0 <? pool
               then (Point.amount e - Z.min (Point.amount e) pool,
                     pool - Z.min (Point.amount e) pool)
               else (Point.amount e, pool)).
    destruct av as [available pool'] eqn:Eav.
    destruct (0 <? available) eqn:Ha; cbn [andb].
    + apply Z.ltb_lt in Ha.
      destruct (Point.expiredAt e) as [d|] eqn:Ed.
      * destruct (now <? d) eqn:Hnow; cbn [andb].
        -- destruct (d <=? threshold) eqn:Hthr.
           ++ apply Z.ltb_lt in Hnow. apply Z.leb_le in Hthr.
              match goal with
              | |- context [fold_left (expiringStep _ _) rest (_, ?a, ?n)] =>
                  specialize (IH pool' (balance + available) a n Hrest)
              end.
              destruct (fold_left (fifoStep now) rest (pool', balance + available))
                as [pool1 balance1].
              destruct (fold_left (expiringStep now threshold) rest _)
                as [[pool2 amount1] nearest1].
              destruct IH as (I1 & I2 & I3).
              { split; [lia|]. split.
                - destruct nearest as [d0|]; [destruct (d <? d0)|];
                    split; intros H; try discriminate; lia.
                - intros d1 Hd1. destruct nearest as [d0|].
                  + destruct (d <? d0); inversion Hd1; subst.
                    * split; [lia|]. exists e. auto.
                    * apply Hdate. reflexivity.
                  + inversion Hd1; subst. split; [lia|]. exists e. auto. }
              split; [exact I1|]. split; [lia | exact I3].
           ++ specialize (IH pool' (balance + available) amount nearest Hrest).
              destruct (fold_left (fifoStep now) rest (pool', balance + available))
                as [pool1 balance1].
              destruct (fold_left (expiringStep now threshold) rest _)
                as [[pool2 amount1] nearest1].
              destruct IH as (I1 & I2 & I3); [exact (conj Hpos (conj Hnone Hdate))|].
              split; [exact I1|]. split; [lia | exact I3].
        -- specialize (IH pool' balance amount nearest Hrest).
           destruct (fold_left (fifoStep now) rest (pool', balance))
             as [pool1 balance1].
           destruct (fold_left (expiringStep now threshold) rest _)
             as [[pool2 amount1] nearest1].
           destruct IH as (I1 & I2 & I3); [exact (conj Hpos (conj Hnone Hdate))|].
           split; [exact I1|]. split; [lia | exact I3].
      * specialize (IH pool' (balance + available) amount nearest Hrest).
        destruct (fold_left (fifoStep now) rest (pool', balance + available))
          as [pool1 balance1].
        destruct (fold_left (expiringStep now threshold) rest _)
          as [[pool2 amount1] nearest1].
        destruct IH as (I1 & I2 & I3); [exact (conj Hpos (conj Hnone Hdate))|].
        split; [exact I1|]. split; [lia | exact I3].
    + specialize (IH pool' balance amount nearest Hrest).
      destruct (fold_left (fifoStep now) rest (pool', balance))
        as [pool1 balance1].
      destruct (fold_left (expiringStep now threshold) rest _)
        as [[pool2 amount1] nearest1].
      destruct IH as (I1 & I2 & I3); [exact (conj Hpos (conj Hnone Hdate))|].
      split; [exact I1|]. split; [lia | exact I3].
Qed.

(** X3.  The expiry warning of [getExpiringPoints] is part of the balance:
    the expiring amount is not negative and not more than the FIFO balance
    at the same time; a nearest expiry date is reported exactly when the
    amount is not 0, and it is the expiry of one of the user's EARNED
    entries, after [now] and not after the warning threshold.  The
    threshold is [now] with its local date moved by [days] days; on a
    host whose offset from UTC does not change that is [days] times 24
    hours after [now]. *)
Theorem getExpiringPoints_within_balance :
  forall userId days now db,
    0 <= fst (getExpiringPoints userId days now db)
    /\ fst (getExpiringPoints userId days now db)
       <= calculateUserPointBalance userId now db
    /\ (snd (getExpiringPoints userId days now db) = None
        <-> fst (getExpiringPoints userId days now db) = 0)
    /\ (forall d,
          snd (getExpiringPoints userId days now db) = Some d ->
          now < d <= JsDate.addLocal (host db) (days * oneDay) now
          /\ (Host.fixedOffset (host db) -> d <= now + days * oneDay)
          /\ exists p, In p (points db)
                       /\ Point.userId p = userId
                       /\ Point.type p = EARNED
                       /\ Point.expiredAt p = Some d).
Proof.
  intros userId days now db.
  unfold getExpiringPoints, calculateUserPointBalance. cbv zeta.
  pose proof (fold_expiringStep_lockstep now
                (JsDate.addLocal (host db) (days * oneDay) now)
                (earnedPoints userId db) (earnedPoints userId db)
                (Z.abs (usedPointsSum userId db)) 0 0 None
                (fun p H => H)) as H.
  destruct (fold_left (fifoStep now) _ _) as [pool1 balance1].
  destruct (fold_left (expiringStep now _) _ _) as [[pool2 amount1] nearest1].
  destruct H as (_ & Hle & Hpos & Hnone & Hdate).
  { split; [lia|]. split; [tauto|]. intros d Hd. discriminate. }
  simpl. split; [exact Hpos|]. split; [lia|]. split; [exact Hnone|].
  intros d Hd. destruct (Hdate d Hd) as (Hwin & p & Hp & Hexp).
  split; [exact Hwin|].
  split; [intros Hfix; rewrite (addLocal_fixedOffset _ _ _ Hfix) in Hwin; lia|].
  exists p.
  unfold earnedPoints in Hp. apply In_orderByCreatedAtAsc, filter_In in Hp.
  destruct Hp as [Hin Hf]. unfold ofUserAndType in Hf.
  apply andb_true_iff in Hf. destruct Hf as [Hu Ht]. apply Z.eqb_eq in Hu.
  repeat split; try assumption.
  destruct (Point.type p); [reflexivity | discriminate].
Qed.

Lemma getExpiringPoints_within_balance_witness :
  getExpiringPoints 20 7 Sample.day Sample.fifoLedger
  = (3000, Some (2 * Sample.day))
  /\ Sample.day < 2 * Sample.day
     <= JsDate.addLocal (host Sample.fifoLedger) (7 * oneDay) Sample.day
  /\ 2 * Sample.day <= Sample.day + 7 * oneDay
  /\ exists p, In p (points Sample.fifoLedger)
               /\ Point.userId p = 20
               /\ Point.type p = EARNED
               /\ Point.expiredAt p = Some (2 * Sample.day).
Proof.
  split; [vm_compute; reflexivity|].
  destruct (proj2 (proj2 (proj2
              (getExpiringPoints_within_balance 20 7 Sample.day Sample.fifoLedger)))
              (2 * Sample.day)) as (Hwindow & Hfixed & Hentry).
  - vm_compute. reflexivity.
  - split; [exact Hwindow|]. split; [|exact Hentry].
    apply Hfixed. exact fixedOffset_utc.
Defined.

End PointBounds.


(** ** Rules for [hoare] *)

Section HoareRules.

Lemma hoare_consequence {A} (P P' Q Q' : DB -> Prop) (m : M A) :
  (forall db, P' db -> P db) -> (forall db, Q db -> Q' db) ->
  hoare P m Q -> hoare P' m Q'.
Proof. intros HP HQ H db Hdb. apply HQ, H, HP, Hdb. Qed.

Lemma hoare_bind {A B} (P R Q : DB -> Prop) (m : M A) (f : A -> M B) :
  hoare P m R -> (forall db, R db -> Q db) -> (forall a, hoare R (f a) Q) ->
  hoare P (bind m f) Q.
Proof.
  intros Hm HRQ Hf db HP. unfold bind. specialize (Hm db HP).
  destruct (m db) as [[a|e] db1]; simpl in *.
  - apply Hf. exact Hm.
  - apply HRQ. exact Hm.
Qed.

(** What a read returned may be used by what follows. *)
Lemma hoare_gets_bind {A B} (P Q : DB -> Prop) (g : DB -> A) (f : A -> M B) :
  (forall a, hoare (fun db => P db /\ g db = a) (f a) Q) ->
  hoare P (bind (gets g) f) Q.
Proof.
  intros H db HP. unfold bind, gets. apply (H (g db)). split; [exact HP | reflexivity].
Qed.

Lemma hoare_ret {A} (P Q : DB -> Prop) (a : A) :
  (forall db, P db -> Q db) -> hoare P (ret a) Q.
Proof. intros H db HP. apply H. exact HP. Qed.

Lemma hoare_throw {A} (P Q : DB -> Prop) (e : error) :
  (forall db, P db -> Q db) -> hoare P (@throw A e) Q.
Proof. intros H db HP. apply H. exact HP. Qed.

(** A computation that hands back the database it received. *)
Lemma hoare_readonly {A} (P : DB -> Prop) (m : M A) :
  (forall db, snd (m db) = db) -> hoare P m P.
Proof. intros H db HP. rewrite H. exact HP. Qed.

(** A read-only rest does not change where a computation ends. *)
Lemma hoare_bind_readonly {A B} (P Q : DB -> Prop) (m : M A) (f : A -> M B) :
  hoare P m Q -> (forall a, readonly (f a)) -> hoare P (bind m f) Q.
Proof.
  intros Hm Hf db HP. rewrite (snd_bind_readonly m f db Hf). apply Hm. exact HP.
Qed.

End HoareRules.

(** ** The lifecycle of a transaction *)

Section Lifecycle.
Import TransactionService.

Lemma findUnique_updateRows_other {R} (key : R -> Z) (k k' : Z) (f : R -> R)
    (rows : list R) :
  (forall r, key (f r) = key r) ->
  k <> k' ->
  findUnique key k' (updateRows key k f rows) = findUnique key k' rows.
Proof.
  intros Hf Hne. unfold findUnique.
  induction rows as [|x rest IH]; simpl; [reflexivity|].
  destruct (key x =? k) eqn:E; simpl.
  - rewrite Hf. apply Z.eqb_eq in E.
    destruct (key x =? k') eqn:E'; [apply Z.eqb_eq in E'; congruence | reflexivity].
  - destruct (key x =? k'); [reflexivity | exact IH].
Qed.

Lemma map_key_updateRows {R} (key : R -> Z) (k : Z) (f : R -> R) (rows : list R) :
  (forall r, key (f r) = key r) ->
  map key (updateRows key k f rows) = map key rows.
Proof.
  intros Hf. induction rows as [|x rest IH]; simpl; [reflexivity|].
  destruct (key x =? k); simpl; [rewrite Hf | rewrite IH]; reflexivity.
Qed.

Lemma rolledBack_transactionSeq (t : Transaction.t) (db : DB) :
  transactionSeq (rolledBack t db) = transactionSeq db.
Proof.
  unfold rolledBack.
  destruct (truthy_id (Transaction.voucherId t));
    destruct (truthy_id (Transaction.couponId t));
    destruct (0 <? Transaction.pointsUsed t); reflexivity.
Qed.

Lemma sameOrder_refl (t : Transaction.t) : sameOrder t t.
Proof. unfold sameOrder. repeat split. Qed.

Lemma sameOrder_trans (t1 t2 t3 : Transaction.t) :
  sameOrder t1 t2 -> sameOrder t2 t3 -> sameOrder t1 t3.
Proof. unfold sameOrder. intuition congruence. Qed.

Lemma stored_moved (id : Z) (t : Transaction.t) (db : DB) :
  stored id t db -> moved id t db.
Proof.
  intros H. exists t. split; [exact H|]. split; [apply sameOrder_refl | left; reflexivity].
Qed.

Lemma aboutTransactions_keys : aboutTransactions transactionKeys.
Proof.
  intros db db' Ht Hs [H1 H2]. unfold transactionKeys, sequenceAhead in *.
  rewrite Ht, Hs. auto.
Qed.

Lemma aboutTransactions_moved (id : Z) (t : Transaction.t) :
  aboutTransactions (moved id t).
Proof. intros db db' Ht _ H. unfold moved in *. rewrite Ht. exact H. Qed.

Lemma aboutTransactions_and (P Q : DB -> Prop) :
  aboutTransactions P -> aboutTransactions Q ->
  aboutTransactions (fun db => P db /\ Q db).
Proof. intros HP HQ db db' Ht Hs [H1 H2]. split; [eapply HP | eapply HQ]; eauto. Qed.

Lemma aboutTransactions_stored (id : Z) (t : Transaction.t) :
  aboutTransactions (stored id t).
Proof. intros db db' Ht _ H. unfold stored in *. rewrite Ht. exact H. Qed.

(** Rollback, attendee rows and check-in leave the transactions table. *)
Lemma preserves_rollbackTransaction_about (P : DB -> Prop) (k : Z) :
  aboutTransactions P -> preserves P (rollbackTransaction k).
Proof.
  intros HP db H.
  destruct (rollbackTransaction k db) as [[u|e] db'] eqn:Hr; simpl.
  - apply rollbackTransaction_Ok in Hr. destruct Hr as (t & _ & ->).
    eapply HP; [apply rolledBack_transactions | apply rolledBack_transactionSeq | exact H].
  - apply rollbackTransaction_Throw in Hr. subst. exact H.
Qed.

Lemma preserves_createAttendee_about (P : DB -> Prop) (a : Attendee.t) :
  aboutTransactions P -> preserves P (createAttendee a).
Proof.
  intros HP db H. unfold createAttendee.
  destruct (existsb _ (attendees db)); simpl; [exact H|].
  eapply HP; [| |exact H]; reflexivity.
Qed.

(** The setters of the transitions keep the order and fix the status. *)
Lemma sameOrder_setStatus (s : TransactionStatus) (now : Z) (t : Transaction.t) :
  sameOrder t (setStatus s now t).
Proof. unfold sameOrder. repeat split. Qed.

Lemma sameOrder_setPaymentProof (proof : string) (t : Transaction.t) :
  sameOrder t (setPaymentProof proof t).
Proof. unfold sameOrder. repeat split. Qed.

Lemma sameOrder_setRejectionReason (reason : option string) (t : Transaction.t) :
  sameOrder t (setRejectionReason reason t).
Proof. unfold sameOrder. repeat split. Qed.

Lemma preserves_keys_updateTransaction (k : Z) (f : Transaction.t -> Transaction.t) :
  (forall x, sameOrder x (f x)) ->
  preserves transactionKeys (updateTransaction k f).
Proof.
  intros Hf. assert (Hid : forall x, Transaction.id (f x) = Transaction.id x)
    by (intros x; apply (Hf x)).
  unfold updateTransaction. apply preserves_bind.
  - intros db [Hnd Hseq]. unfold update.
    destruct (findUnique Transaction.id k (transactions db)); simpl;
      [|split; assumption].
    split.
    + simpl. rewrite map_key_updateRows by exact Hid. exact Hnd.
    + unfold sequenceAhead in *. simpl.
      apply forallb_updateRows; [exact Hseq|].
      intros r _ Hr. rewrite Hid. exact Hr.
  - intros _. apply preserves_bind; [apply preserves_gets|].
    intros [t|]; [apply preserves_ret | apply preserves_throw].
Qed.

(** Rewriting the row under [k] with status [s'] keeps [moved] when, in
    case [k] is the row watched, [s'] is an allowed move from where the
    row started. *)
Lemma preserves_moved_updateTransaction (id : Z) (t : Transaction.t) (k : Z)
    (f : Transaction.t -> Transaction.t) (s' : TransactionStatus) :
  (forall x, sameOrder x (f x)) ->
  (forall x, Transaction.status (f x) = s') ->
  (k = id -> allowedTransition (Transaction.status t) s' = true) ->
  preserves (moved id t) (updateTransaction k f).
Proof.
  intros Hf Hs Hallowed.
  assert (Hid : forall x, Transaction.id (f x) = Transaction.id x)
    by (intros x; apply (Hf x)).
  unfold updateTransaction. apply preserves_bind.
  - intros db (t' & Ht' & Hord & Hst). unfold update.
    destruct (findUnique Transaction.id k (transactions db)) as [r|] eqn:Hk; simpl.
    + destruct (Z.eq_dec k id) as [->|Hne].
      * rewrite Ht' in Hk. inversion Hk; subst r.
        exists (f t'). cbn [transactions set_transactions]. split.
        -- apply findUnique_updateRows; [exact Ht'|].
           rewrite Hid. apply (findUnique_In _ _ _ _ Ht').
        -- split; [eapply sameOrder_trans; [exact Hord | apply Hf]|].
           right. rewrite Hs. apply Hallowed. reflexivity.
      * exists t'. cbn [transactions set_transactions].
        split; [|split; assumption].
        rewrite findUnique_updateRows_other by assumption. exact Ht'.
    + exists t'. auto.
  - intros _. apply preserves_bind; [apply preserves_gets|].
    intros [r|]; [apply preserves_ret | apply preserves_throw].
Qed.

Lemma booked_transactionSeq (t : Transaction.t) (title : string) (now : Z) (db : DB) :
  transactionSeq (booked t title now db) = Transaction.id t.
Proof.
  unfold booked.
  destruct (truthy_id (Transaction.voucherId t));
    destruct (truthy_id (Transaction.couponId t));
    destruct (0 <? Transaction.pointsUsed t); reflexivity.
Qed.

Lemma sequenceAhead_fresh (db : DB) (k : Z) :
  sequenceAhead db = true -> transactionSeq db < k ->
  ~ In k (map Transaction.id (transactions db)).
Proof.
  unfold sequenceAhead. rewrite forallb_forall. intros H Hlt Hin.
  apply in_map_iff in Hin. destruct Hin as (r & <- & Hr).
  specialize (H r Hr). apply Z.leb_le in H. lia.
Qed.

(** *** The primary key survives every request *)

Lemma preserves_keys_createTransaction (userId eventId : Z)
    (body : CreateTransactionBody.t) (now : Z) :
  preserves transactionKeys (createTransaction userId eventId body now).
Proof.
  intros db [Hnd Hseq].
  destruct (createTransaction userId eventId body now db) as [[t|e] db'] eqn:Hc;
    simpl.
  - apply createTransaction_Ok in Hc. cbv zeta in Hc.
    destruct Hc as (tt0 & ev & vd & vid & cd & cid & u & _ & _ & _ & _ & _ & _
                    & _ & _ & _ & Ht & -> & _).
    assert (Hid : Transaction.id t = transactionSeq db + 1) by (rewrite Ht; reflexivity).
    clear Ht. split.
    + rewrite booked_transactions, map_app. simpl.
      apply NoDup_snoc; [exact Hnd|].
      apply sequenceAhead_fresh; [exact Hseq | lia].
    + unfold sequenceAhead in *.
      rewrite booked_transactions, booked_transactionSeq, forallb_app. simpl.
      rewrite Z.leb_refl, andb_true_r.
      rewrite forallb_forall in *. intros r Hr. specialize (Hseq r Hr).
      apply Z.leb_le in Hseq. apply Z.leb_le. lia.
  - apply createTransaction_Throw in Hc. subst. split; assumption.
Qed.

Ltac keep_keys :=
  repeat first
    [ apply preserves_ret
    | apply preserves_throw
    | apply preserves_gets
    | apply preserves_rollbackTransaction_about; apply aboutTransactions_keys
    | apply preserves_createAttendee_about; apply aboutTransactions_keys
    | apply preserves_keys_updateTransaction; intros ?;
      unfold sameOrder; repeat split
    | apply preserves_when
    | apply preserves_forEach; intros ?
    | apply preserves_bind; [|intros ?]
    | match goal with
      | |- preserves _ (match ?x with _ => _ end) => destruct x
      end ].

Lemma transactionKeys_serve (r : request) (now : Z) (db : DB) :
  transactionKeys db -> transactionKeys (serve r now db).
Proof.
  destruct r; simpl.
  - apply preserves_keys_createTransaction.
  - revert db. fold (preserves transactionKeys
                       (uploadPaymentProof transactionId userId paymentProof now)).
    unfold uploadPaymentProof. keep_keys.
  - revert db. fold (preserves transactionKeys
                       (confirmTransaction transactionId organizerId entropy now)).
    unfold confirmTransaction, includeEvent. keep_keys.
  - revert db. fold (preserves transactionKeys
                       (rejectTransaction transactionId organizerId reason now)).
    unfold rejectTransaction, includeEvent. keep_keys.
  - revert db. fold (preserves transactionKeys
                       (cancelTransaction transactionId userId now)).
    unfold cancelTransaction. keep_keys.
  - revert db. fold (preserves transactionKeys (getMyTransactions userId now)).
    unfold getMyTransactions, rollbackAndMark. keep_keys.
  - revert db. fold (preserves transactionKeys
                       (getTransactionById transactionId userId now)).
    unfold getTransactionById, includeEvent, rollbackAndMark. keep_keys.
  - revert db. fold (preserves transactionKeys (expireTransactions now)).
    unfold expireTransactions, rollbackAndMark. keep_keys.
  - revert db. fold (preserves transactionKeys (cancelTransactions now)).
    unfold cancelTransactions, rollbackAndMark. keep_keys.
  - revert db. fold (preserves transactionKeys (checkIn qrToken now)).
    unfold checkIn, includeEvent. keep_keys.
    intros db H. eapply aboutTransactions_keys; [| |exact H]; reflexivity.
Qed.

Lemma transactionKeys_run (trace : list (request * Z)) :
  forall db, transactionKeys db -> transactionKeys (run trace db).
Proof.
  induction trace as [|[r now] rest IH]; simpl; intros db H.
  - exact H.
  - apply IH. apply transactionKeys_serve. exact H.
Qed.

(** *** One request moves a status by at most one allowed step *)

Lemma hoare_gets_bind_drop {A B} (P Q : DB -> Prop) (g : DB -> A) (f : A -> M B) :
  (forall a, hoare P (f a) Q) -> hoare P (bind (gets g) f) Q.
Proof. intros H db HP. unfold bind, gets. apply H. exact HP. Qed.

Lemma preserves_forEach_In {A} (P : DB -> Prop) (xs : list A) (body : A -> M unit) :
  (forall x, In x xs -> preserves P (body x)) -> preserves P (forEach xs body).
Proof.
  induction xs as [|x xs IH]; simpl; intros Hb.
  - apply preserves_ret.
  - apply preserves_bind; [apply Hb; left; reflexivity|].
    intros _. apply IH. intros y Hy. apply Hb. right. exact Hy.
Qed.

Lemma includeEvent_state (eventId : Z) (db : DB) :
  snd (includeEvent eventId db) = db.
Proof.
  destruct (includeEvent eventId db) as [r db'] eqn:H.
  apply includeEvent_run in H. simpl. apply H.
Qed.

(** The pattern of the guarded transitions: the row read under [k] is
    [t0], and the status written is an allowed move from the status of
    [t0]. *)
Lemma moved_update_guarded (id : Z) (t : Transaction.t) (k : Z)
    (t0 : Transaction.t) (f : Transaction.t -> Transaction.t)
    (s' : TransactionStatus) :
  (forall x, sameOrder x (f x)) ->
  (forall x, Transaction.status (f x) = s') ->
  allowedTransition (Transaction.status t0) s' = true ->
  hoare (fun db => stored id t db
                   /\ findUnique Transaction.id k (transactions db) = Some t0)
        (updateTransaction k f) (moved id t).
Proof.
  intros Hf Hs Hallowed db [Hst Hk].
  apply (preserves_moved_updateTransaction id t k f s' Hf Hs).
  - intros ->. unfold stored in Hst. rewrite Hst in Hk. inversion Hk; subst.
    exact Hallowed.
  - apply stored_moved. exact Hst.
Qed.

Lemma preserves_moved_rollbackAndMark (id : Z) (t : Transaction.t)
    (s' : TransactionStatus) (now : Z) (r : Transaction.t) :
  (Transaction.id r = id -> allowedTransition (Transaction.status t) s' = true) ->
  preserves (moved id t) (rollbackAndMark s' now r).
Proof.
  intros H. unfold rollbackAndMark.
  apply preserves_bind;
    [apply preserves_rollbackTransaction_about, aboutTransactions_moved|].
  intros _. apply preserves_bind; [|intros _; apply preserves_ret].
  apply preserves_moved_updateTransaction with (s' := s');
    [apply sameOrder_setStatus | reflexivity | exact H].
Qed.

(** A sweep over rows of the table that are all in a status from which
    [s'] is an allowed move. *)
Lemma moved_sweep (id : Z) (t : Transaction.t) (s' : TransactionStatus) (now : Z)
    (rows : list Transaction.t) (db : DB) :
  transactionKeys db ->
  stored id t db ->
  (forall x, In x rows ->
             In x (transactions db)
             /\ allowedTransition (Transaction.status x) s' = true) ->
  moved id t (snd (forEach rows (rollbackAndMark s' now) db)).
Proof.
  intros [Hnd _] Hst Hrows.
  apply preserves_forEach_In; [|apply stored_moved; exact Hst].
  intros x Hx. apply preserves_moved_rollbackAndMark. intros Hid.
  destruct (Hrows x Hx) as [Hin Hal].
  pose proof (NoDup_findUnique Transaction.id _ x Hnd Hin) as Hfx.
  rewrite Hid in Hfx. unfold stored in Hst. rewrite Hst in Hfx.
  inversion Hfx; subst. exact Hal.
Qed.

Ltac from_stored :=
  let db := fresh "db" in
  let H := fresh "H" in
  intros db H; cbv beta in *;
  repeat match goal with H : _ /\ _ |- _ => destruct H end;
  try split; try (apply stored_moved); assumption.

Lemma moved_uploadPaymentProof (id : Z) (t : Transaction.t)
    (transactionId userId : Z) (proof : string) (now : Z) :
  hoare (stored id t) (uploadPaymentProof transactionId userId proof now)
        (moved id t).
Proof.
  unfold uploadPaymentProof. apply hoare_gets_bind. intros [t0|];
    [|apply hoare_throw; from_stored].
  destruct (negb (Transaction.userId t0 =? userId));
    [apply hoare_throw; from_stored|].
  destruct (negb (status_eqb (Transaction.status t0) WAITING_PAYMENT)) eqn:Hs;
    [apply hoare_throw; from_stored|].
  destruct (Transaction.expiredAt t0 <? now).
  - apply hoare_bind with (R := moved id t).
    + eapply hoare_consequence;
        [| |apply (preserves_rollbackTransaction_about (moved id t)),
              aboutTransactions_moved];
        [from_stored | auto].
    + auto.
    + intros _. apply hoare_throw. auto.
  - apply hoare_bind_readonly; [|intros upd; read_only].
    apply moved_update_guarded with (s' := WAITING_CONFIRMATION).
    + intros x. eapply sameOrder_trans;
        [apply sameOrder_setPaymentProof | apply sameOrder_setStatus].
    + reflexivity.
    + destruct (Transaction.status t0); try discriminate; reflexivity.
Qed.

Lemma moved_confirmTransaction (id : Z) (t : Transaction.t)
    (transactionId organizerId : Z) (entropy : nat -> N) (now : Z) :
  hoare (stored id t) (confirmTransaction transactionId organizerId entropy now)
        (moved id t).
Proof.
  unfold confirmTransaction. apply hoare_gets_bind_drop. intros [org|];
    [|apply hoare_throw; from_stored].
  apply hoare_gets_bind. intros [t0|]; [|apply hoare_throw; from_stored].
  eapply hoare_bind;
    [apply hoare_readonly, includeEvent_state | from_stored |].
  intros ev.
  destruct (negb (Event.organizerId ev =? Organizer.id org));
    [apply hoare_throw; from_stored|].
  destruct (negb (status_eqb (Transaction.status t0) WAITING_CONFIRMATION)) eqn:Hs;
    [apply hoare_throw; from_stored|].
  apply hoare_bind with (R := moved id t).
  - apply moved_update_guarded with (s' := DONE);
      [apply sameOrder_setStatus | reflexivity|].
    destruct (Transaction.status t0); try discriminate; reflexivity.
  - auto.
  - intros upd. apply preserves_bind;
      [|intros _; apply hoare_readonly; read_only].
    apply preserves_forEach. intros i.
    apply preserves_createAttendee_about, aboutTransactions_moved.
Qed.

Lemma moved_rejectTransaction (id : Z) (t : Transaction.t)
    (transactionId organizerId : Z) (reason : option string) (now : Z) :
  hoare (stored id t) (rejectTransaction transactionId organizerId reason now)
        (moved id t).
Proof.
  unfold rejectTransaction. apply hoare_gets_bind_drop. intros [org|];
    [|apply hoare_throw; from_stored].
  apply hoare_gets_bind. intros [t0|]; [|apply hoare_throw; from_stored].
  eapply hoare_bind;
    [apply hoare_readonly, includeEvent_state | from_stored |].
  intros ev.
  destruct (negb (Event.organizerId ev =? Organizer.id org));
    [apply hoare_throw; from_stored|].
  destruct (negb (status_eqb (Transaction.status t0) WAITING_CONFIRMATION)) eqn:Hs;
    [apply hoare_throw; from_stored|].
  eapply hoare_bind.
  - apply preserves_rollbackTransaction_about.
    apply aboutTransactions_and; [apply aboutTransactions_stored|].
    intros db db' Ht _ H. rewrite Ht. exact H.
  - from_stored.
  - intros _. apply hoare_bind_readonly; [|intros upd; read_only].
    apply moved_update_guarded with (s' := REJECTED).
    + intros x. eapply sameOrder_trans;
        [apply sameOrder_setRejectionReason | apply sameOrder_setStatus].
    + reflexivity.
    + destruct (Transaction.status t0); try discriminate; reflexivity.
Qed.

Lemma moved_cancelTransaction (id : Z) (t : Transaction.t)
    (transactionId userId now : Z) :
  hoare (stored id t) (cancelTransaction transactionId userId now) (moved id t).
Proof.
  unfold cancelTransaction. apply hoare_gets_bind. intros [t0|];
    [|apply hoare_throw; from_stored].
  destruct (negb (Transaction.userId t0 =? userId));
    [apply hoare_throw; from_stored|].
  destruct (negb (status_eqb (Transaction.status t0) WAITING_PAYMENT
                  || status_eqb (Transaction.status t0) WAITING_CONFIRMATION))
    eqn:Hs; [apply hoare_throw; from_stored|].
  eapply hoare_bind.
  - apply preserves_rollbackTransaction_about.
    apply aboutTransactions_and; [apply aboutTransactions_stored|].
    intros db db' Ht _ H. rewrite Ht. exact H.
  - from_stored.
  - intros _. apply hoare_bind_readonly; [|intros upd; read_only].
    apply moved_update_guarded with (s' := CANCELLED);
      [apply sameOrder_setStatus | reflexivity|].
    destruct (Transaction.status t0); try discriminate; reflexivity.
Qed.

Lemma isExpiredWaiting_allowed (now : Z) (x : Transaction.t) :
  isExpiredWaiting now x = true ->
  allowedTransition (Transaction.status x) EXPIRED = true.
Proof.
  unfold isExpiredWaiting. intros H. apply andb_true_iff in H. destruct H as [H _].
  destruct (Transaction.status x); try discriminate; reflexivity.
Qed.

Lemma moved_getMyTransactions (id : Z) (t : Transaction.t) (userId now : Z) (db : DB) :
  transactionKeys db -> stored id t db ->
  moved id t (snd (getMyTransactions userId now db)).
Proof.
  intros Hk Hs. unfold getMyTransactions, bind, gets. cbv beta.
  match goal with
  | |- context [forEach ?L _ db] =>
      pose proof (moved_sweep id t EXPIRED now L db Hk Hs) as H
  end.
  destruct (forEach _ _ db) as [[u|e] db1]; simpl in *; apply H;
    intros x Hx; apply filter_In in Hx; destruct Hx as [Hin Hp];
    apply andb_true_iff in Hp; destruct Hp as [_ Hp];
    (split; [exact Hin | apply (isExpiredWaiting_allowed now); exact Hp]).
Qed.

Lemma moved_expireTransactions (id : Z) (t : Transaction.t) (now : Z) (db : DB) :
  transactionKeys db -> stored id t db ->
  moved id t (snd (expireTransactions now db)).
Proof.
  intros Hk Hs. unfold expireTransactions, bind, gets. cbv beta.
  match goal with
  | |- context [forEach ?L _ db] =>
      pose proof (moved_sweep id t EXPIRED now L db Hk Hs) as H
  end.
  destruct (forEach _ _ db) as [[u|e] db1]; simpl in *; apply H;
    intros x Hx; apply filter_In in Hx; destruct Hx as [Hin Hp];
    (split; [exact Hin | apply (isExpiredWaiting_allowed now); exact Hp]).
Qed.

Lemma moved_cancelTransactions (id : Z) (t : Transaction.t) (now : Z) (db : DB) :
  transactionKeys db -> stored id t db ->
  moved id t (snd (cancelTransactions now db)).
Proof.
  intros Hk Hs. unfold cancelTransactions, bind, gets. cbv beta zeta.
  match goal with
  | |- context [forEach ?L _ db] =>
      pose proof (moved_sweep id t CANCELLED now L db Hk Hs) as H
  end.
  destruct (forEach _ _ db) as [[u|e] db1]; simpl in *; apply H;
    intros x Hx; apply filter_In in Hx; destruct Hx as [Hin Hp];
    apply andb_true_iff in Hp; destruct Hp as [Hp _];
    (split; [exact Hin|]);
    destruct (Transaction.status x); try discriminate; reflexivity.
Qed.

(** Reads that follow a write. *)
Ltac keep_moved :=
  repeat first
    [ apply preserves_ret
    | apply preserves_throw
    | apply preserves_gets
    | apply preserves_bind; [|intros ?]
    | match goal with
      | |- preserves _ (match ?x with _ => _ end) => destruct x
      end ].

Lemma moved_getTransactionById (id : Z) (t : Transaction.t)
    (transactionId userId now : Z) :
  hoare (stored id t) (getTransactionById transactionId userId now) (moved id t).
Proof.
  unfold getTransactionById. apply hoare_gets_bind. intros existing.
  apply hoare_bind with (R := moved id t).
  - destruct existing as [e|]; [|apply hoare_ret; from_stored].
    unfold when. destruct (isExpiredWaiting now e) eqn:He;
      [|apply hoare_ret; from_stored].
    intros db [Hs Hf]. apply preserves_moved_rollbackAndMark.
    + intros Hid. apply findUnique_In in Hf as Hk. destruct Hk as [_ Hk].
      rewrite Hid in Hk. subst transactionId.
      unfold stored in Hs. rewrite Hs in Hf. inversion Hf; subst.
      apply (isExpiredWaiting_allowed now). exact He.
    + apply stored_moved. exact Hs.
  - auto.
  - intros _. unfold includeEvent.
    change (preserves (moved id t)
              (transaction <- gets (fun db =>
                 findUnique Transaction.id transactionId (transactions db)) ;;
               match transaction with
               | None => throw (ApiError "Transaction not found" 404)
               | Some t0 =>
                   event <- (event <- gets (fun db =>
                               findUnique Event.id (Transaction.eventId t0) (events db)) ;;
                             match event with
                             | Some e => ret e
                             | None => throw (PrismaError "P2025")
                             end) ;;
                   organizer <- gets (findOrganizerByUser userId) ;;
                   if negb (Transaction.userId t0 =? userId)
                      && match organizer with
                         | None => true
                         | Some o => negb (Event.organizerId event =? Organizer.id o)
                         end
                   then throw (ApiError
                          "You don't have permission to view this transaction" 403)
                   else ret t0
               end)).
    keep_moved.
Qed.

Lemma findUnique_app_found {R} (key : R -> Z) (k : Z) (rows more : list R) (r : R) :
  findUnique key k rows = Some r -> findUnique key k (rows ++ more) = Some r.
Proof.
  unfold findUnique. induction rows as [|x rest IH]; simpl; [discriminate|].
  destruct (key x =? k); [auto | exact IH].
Qed.

Lemma moved_createTransaction (id : Z) (t : Transaction.t) (userId eventId : Z)
    (body : CreateTransactionBody.t) (now : Z) :
  hoare (stored id t) (createTransaction userId eventId body now) (moved id t).
Proof.
  intros db Hs.
  destruct (createTransaction userId eventId body now db) as [[t1|e] db'] eqn:Hc;
    simpl.
  - apply createTransaction_Ok in Hc. cbv zeta in Hc.
    destruct Hc as (tt0 & ev & vd & vid & cd & cid & u & _ & _ & _ & _ & _ & _
                    & _ & _ & _ & _ & -> & _).
    apply stored_moved. unfold stored. rewrite booked_transactions.
    apply findUnique_app_found. exact Hs.
  - apply createTransaction_Throw in Hc. subst. apply stored_moved. exact Hs.
Qed.

Lemma preserves_checkIn_about (P : DB -> Prop) (qrToken : string) (now : Z) :
  aboutTransactions P -> preserves P (checkIn qrToken now).
Proof.
  intros HP. unfold checkIn, includeEvent. keep_moved.
  intros db H. eapply HP; [| |exact H]; reflexivity.
Qed.

Lemma reachable_step (a b c : TransactionStatus) :
  reachable a b = true -> b = c \/ allowedTransition b c = true ->
  reachable a c = true.
Proof.
  intros H [<-|H']; [exact H|].
  destruct a, b; try discriminate; destruct c; try discriminate; reflexivity.
Qed.

Lemma allowedTransition_terminal (s s' : TransactionStatus) :
  isTerminal s = true -> allowedTransition s s' = false.
Proof. destruct s; try discriminate; intros _; destruct s'; reflexivity. Qed.

Lemma moved_serve (r : request) (now : Z) (db : DB) (id : Z) (t : Transaction.t) :
  transactionKeys db -> stored id t db -> moved id t (serve r now db).
Proof.
  intros Hk Hs. destruct r; simpl.
  - apply moved_createTransaction; exact Hs.
  - apply moved_uploadPaymentProof; exact Hs.
  - apply moved_confirmTransaction; exact Hs.
  - apply moved_rejectTransaction; exact Hs.
  - apply moved_cancelTransaction; exact Hs.
  - apply moved_getMyTransactions; assumption.
  - apply moved_getTransactionById; exact Hs.
  - apply moved_expireTransactions; assumption.
  - apply moved_cancelTransactions; assumption.
  - apply preserves_checkIn_about;
      [apply aboutTransactions_moved | apply stored_moved; exact Hs].
Qed.

(** X4.  One request, whichever it is and whether it returns or throws,
    leaves every stored transaction stored, with the same order (buyer,
    event, ticket type, quantity, prices, discounts, deadline), and either
    unchanged or with its status moved along one edge of the lifecycle:
    WAITING_PAYMENT to WAITING_CONFIRMATION, EXPIRED or CANCELLED, or
    WAITING_CONFIRMATION to DONE, REJECTED or CANCELLED. *)
Theorem serve_moves_status_along_lifecycle :
  forall r now db id t,
    transactionKeys db ->
    stored id t db ->
    exists t',
      stored id t' (serve r now db)
      /\ sameOrder t t'
      /\ (t' = t
          \/ allowedTransition (Transaction.status t) (Transaction.status t') = true).
Proof. intros r now db id t Hk Hs. exact (moved_serve r now db id t Hk Hs). Qed.

Lemma serve_moves_status_along_lifecycle_witness :
  exists t',
    stored 1 t' (serve (UploadPaymentProof 1 20 "proof.png") 100 Sample.created)
    /\ sameOrder (Transaction.mk 1 20 1 1 None None 3 300000 4000 296000
                    (5 + twoHours) WAITING_PAYMENT None None 5) t'
    /\ (t' = Transaction.mk 1 20 1 1 None None 3 300000 4000 296000
                (5 + twoHours) WAITING_PAYMENT None None 5
        \/ allowedTransition WAITING_PAYMENT (Transaction.status t') = true).
Proof.
  apply (serve_moves_status_along_lifecycle
           (UploadPaymentProof 1 20 "proof.png") 100 Sample.created 1
           (Transaction.mk 1 20 1 1 None None 3 300000 4000 296000
              (5 + twoHours) WAITING_PAYMENT None None 5)).
  - split; [vm_compute; repeat constructor; intros [] | reflexivity].
  - reflexivity.
Defined.

Lemma reachable_refl (s : TransactionStatus) : reachable s s = true.
Proof. destruct s; reflexivity. Qed.

Lemma reachable_first_step (a b c : TransactionStatus) :
  b = a \/ allowedTransition a b = true -> reachable b c = true ->
  reachable a c = true.
Proof.
  intros [->|H] H'; [exact H'|].
  destruct a, b; try discriminate; destruct c; try discriminate; reflexivity.
Qed.

(** X5.  Along any sequence of requests a stored transaction stays stored
    with the same order, and its status only moves forward in the
    lifecycle: from WAITING_PAYMENT anywhere, from WAITING_CONFIRMATION to
    DONE, REJECTED or CANCELLED, and from a terminal status nowhere.  In
    particular a paid transaction is never expired and none returns to
    WAITING_PAYMENT. *)
Theorem run_follows_lifecycle :
  forall trace db id t,
    transactionKeys db ->
    stored id t db ->
    exists t',
      stored id t' (run trace db)
      /\ sameOrder t t'
      /\ reachable (Transaction.status t) (Transaction.status t') = true.
Proof.
  induction trace as [|[r now] rest IH]; simpl; intros db id t Hk Hs.
  - exists t. split; [exact Hs|]. split; [apply sameOrder_refl | apply reachable_refl].
  - destruct (moved_serve r now db id t Hk Hs) as (t1 & Hs1 & Ho1 & Hm1).
    destruct (IH (serve r now db) id t1 (transactionKeys_serve r now db Hk) Hs1)
      as (t' & Hs' & Ho' & Hr').
    exists t'. split; [exact Hs'|]. split; [eapply sameOrder_trans; eassumption|].
    apply reachable_first_step with (b := Transaction.status t1); [|exact Hr'].
    destruct Hm1 as [->|H]; [left; reflexivity | right; exact H].
Qed.

Lemma run_follows_lifecycle_witness :
  exists t',
    stored 1 t' (run (tl Sample.trace) Sample.created)
    /\ sameOrder (Transaction.mk 1 20 1 1 None None 3 300000 4000 296000
                    (5 + twoHours) WAITING_PAYMENT None None 5) t'
    /\ reachable WAITING_PAYMENT (Transaction.status t') = true.
Proof.
  apply (run_follows_lifecycle (tl Sample.trace) Sample.created 1
           (Transaction.mk 1 20 1 1 None None 3 300000 4000 296000
              (5 + twoHours) WAITING_PAYMENT None None 5)).
  - split; [vm_compute; repeat constructor; intros [] | reflexivity].
  - reflexivity.
Defined.

(** X6.  A transaction that is DONE, REJECTED, CANCELLED or EXPIRED is
    final: after any sequence of requests its row is stored exactly as it
    was, status, reason and timestamps included. *)
Theorem terminal_transaction_is_final :
  forall trace db id t,
    transactionKeys db ->
    stored id t db ->
    isTerminal (Transaction.status t) = true ->
    stored id t (run trace db).
Proof.
  induction trace as [|[r now] rest IH]; simpl; intros db id t Hk Hs Hterm.
  - exact Hs.
  - destruct (moved_serve r now db id t Hk Hs) as (t1 & Hs1 & _ & Hm1).
    destruct Hm1 as [->|H].
    + apply IH; [apply transactionKeys_serve; exact Hk | exact Hs1 | exact Hterm].
    + rewrite (allowedTransition_terminal _ _ Hterm) in H. discriminate.
Qed.

Lemma terminal_transaction_is_final_witness :
  stored 3 (Transaction.mk 3 20 1 1 None None 1 100000 0 100000
              (Sample.late2 + 5 + twoHours) DONE (Some "proof.png") None
              (Sample.late2 + 7))
         (run [(CancelTransaction 3 20, Sample.late2 + 20);
               (RejectTransaction 3 10 None, Sample.late2 + 21);
               (UploadPaymentProof 3 20 "again.png", Sample.late2 + 22);
               (ExpireTransactions, Sample.late2 + 23 + 10 * Sample.day);
               (CancelTransactions, Sample.late2 + 24 + 10 * Sample.day)]
              (run Sample.trace Sample.db0)).
Proof.
  apply terminal_transaction_is_final.
  - split; [vm_compute; repeat constructor; simpl; intuition discriminate
           | reflexivity].
  - reflexivity.
  - reflexivity.
Defined.

End Lifecycle.

(** ** The reaper *)

Section Reaper.
Import TransactionService.

Lemma updateRows_as_map {R} (key : R -> Z) (k : Z) (f : R -> R) (rows : list R) :
  NoDup (map key rows) ->
  updateRows key k f rows = map (fun r => if key r =? k then f r else r) rows.
Proof.
  induction rows as [|x rest IH]; simpl; intros Hnd; [reflexivity|].
  inversion Hnd as [|y ys Hx Hrest]; subst.
  destruct (key x =? k) eqn:E.
  - f_equal. apply Z.eqb_eq in E. symmetry.
    rewrite <- (map_id rest) at 2. apply map_ext_in. intros r Hr.
    destruct (key r =? k) eqn:E'; [|reflexivity].
    apply Z.eqb_eq in E'. exfalso. apply Hx. rewrite E, <- E'.
    apply in_map. exact Hr.
  - f_equal. apply IH. exact Hrest.
Qed.

Lemma NoDup_map_filter {R} (key : R -> Z) (p : R -> bool) (rows : list R) :
  NoDup (map key rows) -> NoDup (map key (filter p rows)).
Proof.
  induction rows as [|x rest IH]; simpl; intros Hnd; [constructor|].
  inversion Hnd as [|y ys Hx Hrest]; subst.
  destruct (p x); simpl; [|apply IH; exact Hrest].
  constructor; [|apply IH; exact Hrest].
  intros Hin. apply Hx. apply in_map_iff in Hin. destruct Hin as (r & Hk & Hr).
  apply filter_In in Hr. rewrite <- Hk. apply in_map. apply Hr.
Qed.

(** A sweep that returns has marked exactly the rows it was given. *)
Lemma sweep_returns (s' : TransactionStatus) (now : Z) :
  forall rows db db' u,
    NoDup (map Transaction.id (transactions db)) ->
    NoDup (map Transaction.id rows) ->
    forEach rows (rollbackAndMark s' now) db = (Ok u, db') ->
    transactions db' = marked (selects rows) s' now (transactions db).
Proof.
  induction rows as [|r0 rest IH]; simpl; intros db db' u Hnd Hrows H.
  - inversion H; subst. unfold marked. simpl. rewrite map_id. reflexivity.
  - inversion Hrows as [|y ys Hr0 Hrest]; subst.
    step_Ok H. unfold rollbackAndMark in Hstep.
    step_Ok Hstep. step_Ok Hstep. inversion Hstep; subst; clear Hstep.
    apply rollbackTransaction_Ok in Hstep0. destruct Hstep0 as (t0 & _ & ->).
    apply updateTransaction_Ok in Hstep1; [|intros; reflexivity].
    destruct Hstep1 as (t1 & _ & _ & ->).
    apply IH in H; [|simpl; rewrite map_key_updateRows by reflexivity;
                      rewrite rolledBack_transactions; exact Hnd | exact Hrest].
    rewrite H. simpl. rewrite rolledBack_transactions.
    rewrite updateRows_as_map by exact Hnd.
    unfold marked. rewrite map_map. apply map_ext. intros r.
    unfold selects. simpl.
    destruct (Transaction.id r =? Transaction.id r0) eqn:E.
    + apply Z.eqb_eq in E. rewrite Z.eqb_sym, E, Z.eqb_refl. simpl.
      destruct (existsb _ rest) eqn:Ex; [|reflexivity].
      exfalso. apply Hr0. apply existsb_exists in Ex.
      destruct Ex as (x & Hx & Hk). apply Z.eqb_eq in Hk.
      simpl in Hk. rewrite <- E, <- Hk. apply in_map. exact Hx.
    + rewrite Z.eqb_sym in E. rewrite E. reflexivity.
Qed.

Lemma selects_filter (p : Transaction.t -> bool) (rows : list Transaction.t)
    (r : Transaction.t) :
  NoDup (map Transaction.id rows) -> In r rows ->
  selects (filter p rows) r = p r.
Proof.
  intros Hnd Hin. unfold selects.
  destruct (p r) eqn:Hp.
  - apply existsb_exists. exists r. split; [apply filter_In; auto | apply Z.eqb_refl].
  - destruct (existsb _ (filter p rows)) eqn:Ex; [|reflexivity].
    apply existsb_exists in Ex. destruct Ex as (x & Hx & Hk).
    apply filter_In in Hx. destruct Hx as [Hx Hpx]. apply Z.eqb_eq in Hk.
    pose proof (NoDup_findUnique Transaction.id rows x Hnd Hx) as H1.
    pose proof (NoDup_findUnique Transaction.id rows r Hnd Hin) as H2.
    rewrite Hk, H2 in H1. inversion H1; subst. congruence.
Qed.

Lemma sweep_of_filter (p : Transaction.t -> bool) (s' : TransactionStatus)
    (now : Z) (db db' : DB) (u : unit) :
  NoDup (map Transaction.id (transactions db)) ->
  forEach (filter p (transactions db)) (rollbackAndMark s' now) db = (Ok u, db') ->
  transactions db' = marked p s' now (transactions db).
Proof.
  intros Hnd H.
  apply sweep_returns in H; [|exact Hnd | apply NoDup_map_filter; exact Hnd].
  rewrite H. unfold marked. apply map_ext_in. intros r Hr.
  rewrite selects_filter by assumption. reflexivity.
Qed.

Lemma marked_expired_none_left (now : Z) (rows : list Transaction.t) :
  forall r, In r (marked (isExpiredWaiting now) EXPIRED now rows) ->
            isExpiredWaiting now r = false.
Proof.
  intros r Hr. unfold marked in Hr. apply in_map_iff in Hr.
  destruct Hr as (x & <- & _).
  destruct (isExpiredWaiting now x) eqn:E; [reflexivity | exact E].
Qed.

(** X7.  When the expiry sweep returns on a database whose transaction ids
    are keys, it reports how many WAITING_PAYMENT transactions were past
    their deadline, each of them is now EXPIRED (stamped at [now]), every
    other row is as it was, and no transaction is left waiting for a
    payment past its deadline. *)
Theorem expireTransactions_sweeps_all :
  forall now db n db',
    transactionKeys db ->
    expireTransactions now db = (Ok n, db') ->
    n = Z.of_nat (List.length (filter (isExpiredWaiting now) (transactions db)))
    /\ transactions db'
       = marked (isExpiredWaiting now) EXPIRED now (transactions db)
    /\ (forall r, In r (transactions db') -> isExpiredWaiting now r = false).
Proof.
  intros now db n db' [Hnd _] H. unfold expireTransactions in H.
  step_Ok H. inversion Hstep; subst; clear Hstep.
  step_Ok H. inversion H; subst; clear H.
  apply sweep_of_filter in Hstep; [|exact Hnd].
  split; [reflexivity|]. split; [exact Hstep|].
  rewrite Hstep. apply marked_expired_none_left.
Qed.

Lemma expireTransactions_sweeps_all_witness :
  exists n db',
    expireTransactions Sample.late1 Sample.created = (Ok n, db')
    /\ n = Z.of_nat (List.length (filter (isExpiredWaiting Sample.late1)
                                         (transactions Sample.created)))
    /\ transactions db'
       = marked (isExpiredWaiting Sample.late1) EXPIRED Sample.late1
           (transactions Sample.created)
    /\ (forall r, In r (transactions db') -> isExpiredWaiting Sample.late1 r = false).
Proof.
  eexists _, _. split; [vm_compute; reflexivity|].
  apply (expireTransactions_sweeps_all Sample.late1 Sample.created).
  - split; [vm_compute; repeat constructor; intros [] | reflexivity].
  - vm_compute. reflexivity.
Defined.

(** X8.  When the auto-cancel sweep returns on a database whose transaction
    ids are keys, exactly the WAITING_CONFIRMATION transactions last
    updated before the threshold [threeDaysAgo] have become CANCELLED,
    every other row is as it was, the sweep reports their number, and no
    WAITING_CONFIRMATION transaction older than the threshold is left.
    The threshold is [now] with its local date moved back by three days;
    on a host whose offset from UTC does not change that is 72 hours
    before [now]. *)
Theorem cancelTransactions_sweeps_all :
  forall now db n db',
    transactionKeys db ->
    cancelTransactions now db = (Ok n, db') ->
    let overdue := fun t =>
      status_eqb (Transaction.status t) WAITING_CONFIRMATION
      && (Transaction.updatedAt t <? threeDaysAgo now db) in
    n = Z.of_nat (List.length (filter overdue (transactions db)))
    /\ transactions db' = marked overdue CANCELLED now (transactions db)
    /\ (forall r, In r (transactions db') ->
                  Transaction.status r = WAITING_CONFIRMATION ->
                  threeDaysAgo now db <= Transaction.updatedAt r)
    /\ (Host.fixedOffset (host db) -> threeDaysAgo now db = now - threeDays).
Proof.
  intros now db n db' [Hnd _] H overdue. unfold cancelTransactions in H.
  step_Ok H. inversion Hstep; subst; clear Hstep.
  fold overdue in H.
  step_Ok H. inversion Hstep; subst; clear Hstep.
  step_Ok H. inversion H; subst; clear H.
  apply sweep_of_filter in Hstep; [|exact Hnd].
  split; [reflexivity|]. split; [exact Hstep|]. split.
  - rewrite Hstep. intros r Hr Hs. unfold marked in Hr. apply in_map_iff in Hr.
    destruct Hr as (x & <- & _).
    destruct (overdue x) eqn:E; [discriminate Hs|].
    unfold overdue in E. rewrite Hs in E. simpl in E. apply Z.ltb_ge in E. exact E.
  - intros Hfix. unfold threeDaysAgo.
    rewrite (addLocal_fixedOffset _ _ _ Hfix). lia.
Qed.

Lemma cancelTransactions_sweeps_all_witness :
  exists n db',
    cancelTransactions (100 + 4 * Sample.day) Sample.paid = (Ok n, db')
    /\ n = 1
    /\ (forall r, In r (transactions db') ->
                  Transaction.status r = WAITING_CONFIRMATION ->
                  threeDaysAgo (100 + 4 * Sample.day) Sample.paid
                  <= Transaction.updatedAt r)
    /\ threeDaysAgo (100 + 4 * Sample.day) Sample.paid
       = 100 + 4 * Sample.day - threeDays.
Proof.
  eexists _, _. split; [vm_compute; reflexivity|].
  destruct (cancelTransactions_sweeps_all (100 + 4 * Sample.day) Sample.paid
              1 (snd (cancelTransactions (100 + 4 * Sample.day) Sample.paid)))
    as (H1 & _ & H3 & H4).
  - split; [vm_compute; repeat constructor; intros [] | reflexivity].
  - vm_compute. reflexivity.
  - split; [reflexivity|]. split; [exact H3|].
    apply H4. exact fixedOffset_utc.
Defined.

Lemma rollbackAndMark_Ok (s' : TransactionStatus) (now : Z) (r : Transaction.t)
    (db db' : DB) (u : unit) :
  rollbackAndMark s' now r db = (Ok u, db') ->
  exists t,
    findUnique Transaction.id (Transaction.id r) (transactions db) = Some t
    /\ findUnique Transaction.id (Transaction.id r) (transactions db')
       = Some (setStatus s' now t).
Proof.
  unfold rollbackAndMark. intros H.
  step_Ok H. step_Ok H. inversion H; subst; clear H.
  apply rollbackTransaction_Ok in Hstep. destruct Hstep as (t0 & Ht0 & ->).
  apply updateTransaction_Ok in Hstep0; [|intros; reflexivity].
  destruct Hstep0 as (t1 & Ht1 & _ & ->).
  rewrite rolledBack_transactions in Ht1.
  exists t1. split; [exact Ht1|].
  cbn [transactions set_transactions]. rewrite rolledBack_transactions.
  apply findUnique_updateRows; [exact Ht1|].
  apply (findUnique_In _ _ _ _ Ht1).
Qed.

(** X9.  The read paths never show a stale payment wait: the transaction
    [getTransactionById] returns is not WAITING_PAYMENT past its deadline
    at the time of the call, and (transaction ids being keys) neither is
    any row [getMyTransactions] returns; these rows are the caller's. *)
Theorem reads_show_no_stale_payment_wait :
  (forall transactionId userId now db t db',
      getTransactionById transactionId userId now db = (Ok t, db') ->
      isExpiredWaiting now t = false)
  /\ (forall userId now db rows db',
        transactionKeys db ->
        getMyTransactions userId now db = (Ok rows, db') ->
        forall r, In r rows ->
                  Transaction.userId r = userId
                  /\ isExpiredWaiting now r = false).
Proof.
  split.
  - intros tid uid now db t db' H. unfold getTransactionById in H.
    step_Ok H. inversion Hstep; subst; clear Hstep.
    step_Ok H. step_Ok H. inversion Hstep0; subst; clear Hstep0.
    destruct (findUnique Transaction.id tid (transactions db1)) as [t0|] eqn:Ht0;
      [|discriminate].
    step_Ok H. step_Ok H.
    destruct (_ && _); [discriminate|]. inversion H; subst; clear H.
    destruct (findUnique Transaction.id tid (transactions db0)) as [e|] eqn:He.
    + unfold when in Hstep. destruct (isExpiredWaiting now e) eqn:Hexp.
      * apply rollbackAndMark_Ok in Hstep. destruct Hstep as (x & Hx & Hx').
        pose proof (findUnique_In _ _ _ _ He) as [_ Hid]. rewrite Hid in Hx'.
        rewrite Ht0 in Hx'. inversion Hx'; subst. reflexivity.
      * inversion Hstep; subst. rewrite He in Ht0. inversion Ht0; subst.
        exact Hexp.
    + inversion Hstep; subst. rewrite He in Ht0. discriminate.
  - intros uid now db rows db' [Hnd _] H r Hr. unfold getMyTransactions in H.
    step_Ok H. inversion Hstep; subst; clear Hstep.
    step_Ok H. inversion H; subst; clear H.
    apply sweep_of_filter in Hstep; [|exact Hnd].
    apply filter_In in Hr. destruct Hr as [Hin Hu]. apply Z.eqb_eq in Hu.
    split; [exact Hu|].
    rewrite Hstep in Hin. unfold marked in Hin. apply in_map_iff in Hin.
    destruct Hin as (x & Hx & _).
    destruct ((Transaction.userId x =? uid) && isExpiredWaiting now x) eqn:E;
      subst r.
    + reflexivity.
    + rewrite Hu, Z.eqb_refl in E. exact E.
Qed.

Lemma reads_show_no_stale_payment_wait_witness :
  (exists t db',
      getTransactionById 1 20 Sample.late1 Sample.created = (Ok t, db')
      /\ isExpiredWaiting Sample.late1 t = false)
  /\ (exists rows db',
        getMyTransactions 20 Sample.late1 Sample.created = (Ok rows, db')
        /\ forall r, In r rows ->
                     Transaction.userId r = 20
                     /\ isExpiredWaiting Sample.late1 r = false).
Proof.
  split.
  - eexists _, _. split; [vm_compute; reflexivity|].
    eapply (proj1 reads_show_no_stale_payment_wait 1 20 Sample.late1 Sample.created).
    vm_compute. reflexivity.
  - eexists _, _. split; [vm_compute; reflexivity|].
    eapply (proj2 reads_show_no_stale_payment_wait 20 Sample.late1 Sample.created).
    + split; [vm_compute; repeat constructor; intros [] | reflexivity].
    + vm_compute. reflexivity.
Defined.

(** *** The reaper does not act early *)

Lemma preserves_stored_updateTransaction (id : Z) (t : Transaction.t) (k : Z)
    (f : Transaction.t -> Transaction.t) :
  (forall x, Transaction.id (f x) = Transaction.id x) ->
  k <> id ->
  preserves (stored id t) (updateTransaction k f).
Proof.
  intros Hid Hne. unfold updateTransaction. apply preserves_bind.
  - intros db Hs. unfold update.
    destruct (findUnique Transaction.id k (transactions db)); simpl; [|exact Hs].
    unfold stored. cbn [transactions set_transactions].
    rewrite findUnique_updateRows_other by assumption. exact Hs.
  - intros _. apply preserves_bind; [apply preserves_gets|].
    intros [r|]; [apply preserves_ret | apply preserves_throw].
Qed.

(** A sweep over the rows selected by [p] leaves a row that [p] does not
    select, whether the sweep returns or throws on the way. *)
Lemma stored_sweep (p : Transaction.t -> bool) (s' : TransactionStatus) (now : Z)
    (id : Z) (t : Transaction.t) (db : DB) :
  transactionKeys db ->
  stored id t db ->
  p t = false ->
  stored id t (snd (forEach (filter p (transactions db)) (rollbackAndMark s' now) db)).
Proof.
  intros [Hnd _] Hs Hp.
  apply preserves_forEach_In; [|exact Hs].
  intros x Hx. apply filter_In in Hx. destruct Hx as [Hin Hpx].
  assert (Hne : Transaction.id x <> id).
  { intros Hid.
    pose proof (NoDup_findUnique Transaction.id _ x Hnd Hin) as Hfx.
    rewrite Hid in Hfx. unfold stored in Hs. rewrite Hs in Hfx.
    inversion Hfx; subst. congruence. }
  unfold rollbackAndMark.
  apply preserves_bind;
    [apply preserves_rollbackTransaction_about, aboutTransactions_stored|].
  intros _. apply preserves_bind; [|intros _; apply preserves_ret].
  apply preserves_stored_updateTransaction; [reflexivity | exact Hne].
Qed.

Lemma stored_expireTransactions (now id : Z) (t : Transaction.t) (db : DB) :
  transactionKeys db -> stored id t db -> isExpiredWaiting now t = false ->
  stored id t (snd (expireTransactions now db)).
Proof.
  intros Hk Hs Hp. unfold expireTransactions, bind, gets. cbv beta.
  pose proof (stored_sweep (isExpiredWaiting now) EXPIRED now id t db Hk Hs Hp) as H.
  destruct (forEach _ _ db) as [[u|e] db1]; simpl in *; exact H.
Qed.

Lemma updateTransaction_returns (k : Z) (f : Transaction.t -> Transaction.t)
    (db : DB) (r : Transaction.t) :
  (forall x, Transaction.id (f x) = Transaction.id x) ->
  findUnique Transaction.id k (transactions db) = Some r ->
  updateTransaction k f db
  = (Ok (f r),
     set_transactions (updateRows Transaction.id k f (transactions db)) db).
Proof.
  intros Hid Hr. unfold updateTransaction, bind, update, gets.
  rewrite Hr. cbn [transactions set_transactions].
  rewrite (findUnique_updateRows _ _ f _ r Hr);
    [reflexivity | rewrite Hid; apply (findUnique_In _ _ _ _ Hr)].
Qed.

Lemma booked_host (t : Transaction.t) (title : string) (now : Z) (db : DB) :
  host (booked t title now db) = host db.
Proof.
  unfold booked.
  destruct (truthy_id (Transaction.voucherId t));
    destruct (truthy_id (Transaction.couponId t));
    destruct (0 <? Transaction.pointsUsed t); reflexivity.
Qed.

(** The rest of [uploadPaymentProof] after its update returns exactly
    when the two relations lead to rows and the notification resolves. *)
Lemma notify_organizer_returns (t' : Transaction.t) (now : Z) (db : DB) :
  fst ((deref (organizerUserOf (Transaction.eventId t')) ;;;
        deref (userOf t') ;;;
        await (fun db => Host.createNotification (host db) now) ;;;
        ret t') db) = Ok t'
  <-> organizerUserOf (Transaction.eventId t') db <> None
      /\ userOf t' db <> None
      /\ Host.createNotification (host db) now = None.
Proof.
  unfold deref, await, bind, gets, ret, throw.
  destruct (organizerUserOf (Transaction.eventId t') db);
    destruct (userOf t' db);
    destruct (Host.createNotification (host db) now); simpl;
    split; try (intros H; discriminate H);
    try (intros (H1 & H2 & H3); congruence);
    intros _; repeat split; discriminate.
Qed.

(** An upload by the buyer of a WAITING_PAYMENT transaction before its
    deadline: the update, then the notification of the organizer. *)
Lemma uploadPaymentProof_in_time (transactionId userId : Z) (proof : string)
    (now : Z) (db : DB) (t : Transaction.t) :
  stored transactionId t db ->
  Transaction.userId t = userId ->
  Transaction.status t = WAITING_PAYMENT ->
  now <= Transaction.expiredAt t ->
  uploadPaymentProof transactionId userId proof now db
  = (deref (organizerUserOf (Transaction.eventId t)) ;;;
     deref (userOf (setStatus WAITING_CONFIRMATION now (setPaymentProof proof t))) ;;;
     await (fun db => Host.createNotification (host db) now) ;;;
     ret (setStatus WAITING_CONFIRMATION now (setPaymentProof proof t)))
      (set_transactions
         (updateRows Transaction.id transactionId
            (fun r => setStatus WAITING_CONFIRMATION now (setPaymentProof proof r))
            (transactions db)) db).
Proof.
  intros Hs Hu Hst He. unfold uploadPaymentProof.
  unfold bind at 1. unfold gets at 1. unfold stored in Hs. rewrite Hs.
  rewrite Hu, Z.eqb_refl, Hst. cbn [negb status_eqb].
  apply Z.ltb_ge in He. rewrite He.
  unfold bind at 1.
  rewrite (updateTransaction_returns transactionId
             (fun r => setStatus WAITING_CONFIRMATION now (setPaymentProof proof r))
             _ t (fun x => eq_refl) Hs).
  reflexivity.
Qed.

(** X10.  The payment window.  A purchase made at [now0] stores as its
    deadline [now0] with its local hour moved by two: two hours after
    [now0] on a host whose offset from UTC does not change.  Up to that
    deadline (transaction ids being keys) the expiry sweep leaves the new
    transaction as created, and the buyer's payment proof is accepted:
    whether the call then returns or throws, the stored row has become
    WAITING_CONFIRMATION, holds the proof, and starts its confirmation
    clock at the time of the upload.  The call returns that row exactly
    when the user of the event's organizer and the buyer are found and
    the notification of the organizer resolves. *)
Theorem payment_window_until_deadline :
  forall userId eventId body now0 db t db1 now proof,
    transactionKeys db ->
    createTransaction userId eventId body now0 db = (Ok t, db1) ->
    let t' := setStatus WAITING_CONFIRMATION now (setPaymentProof proof t) in
    let upload := uploadPaymentProof (Transaction.id t) userId proof now db1 in
    Transaction.expiredAt t = JsDate.addLocal (host db) twoHours now0
    /\ (Host.fixedOffset (host db) -> Transaction.expiredAt t = now0 + twoHours)
    /\ (now <= Transaction.expiredAt t ->
        stored (Transaction.id t) t (snd (expireTransactions now db1))
        /\ stored (Transaction.id t) t' (snd upload)
        /\ Transaction.status t' = WAITING_CONFIRMATION
        /\ Transaction.paymentProof t' = Some proof
        /\ Transaction.updatedAt t' = now
        /\ (fst upload = Ok t'
            <-> organizerUserOf eventId db1 <> None
                /\ userOf t db1 <> None
                /\ Host.createNotification (host db) now = None)).
Proof.
  intros userId eventId body now0 db t db1 now proof Hk Hc t' upload.
  pose proof (preserves_keys_createTransaction userId eventId body now0 db Hk) as Hk1.
  rewrite Hc in Hk1. simpl in Hk1.
  apply createTransaction_Ok in Hc. cbv zeta in Hc.
  destruct Hc as (tt0 & ev & vd & vid & cd & cid & u & _ & _ & _ & _ & _ & _
                  & _ & _ & _ & Ht & -> & _).
  assert (Hexp : Transaction.expiredAt t = JsDate.addLocal (host db) twoHours now0)
    by (rewrite Ht; reflexivity).
  split; [exact Hexp|].
  split; [intros Hfix; rewrite Hexp; apply addLocal_fixedOffset; exact Hfix|].
  intros Hnow.
  assert (Hs : stored (Transaction.id t) t (booked t (Event.title ev) now0 db)).
  { unfold stored. rewrite booked_transactions.
    apply findUnique_app_new with (bound := transactionSeq db);
      [apply Hk | rewrite Ht; simpl; lia]. }
  assert (Hfresh : isExpiredWaiting now t = false).
  { unfold isExpiredWaiting. apply andb_false_intro2. apply Z.ltb_ge. exact Hnow. }
  split; [apply stored_expireTransactions; assumption|].
  assert (Hu : Transaction.userId t = userId) by (rewrite Ht; reflexivity).
  assert (Hst : Transaction.status t = WAITING_PAYMENT) by (rewrite Ht; reflexivity).
  assert (Hev : Transaction.eventId t = eventId) by (rewrite Ht; reflexivity).
  unfold upload.
  rewrite (uploadPaymentProof_in_time _ _ proof now _ t Hs Hu Hst Hnow).
  fold t'. split.
  { assert (Hro : readonly
              (deref (organizerUserOf (Transaction.eventId t)) ;;;
               deref (userOf t') ;;;
               await (fun db => Host.createNotification (host db) now) ;;;
               ret t')) by read_only.
    rewrite Hro. unfold stored. cbn [transactions set_transactions].
    apply (findUnique_updateRows Transaction.id _
             (fun r => setStatus WAITING_CONFIRMATION now (setPaymentProof proof r))
             _ t Hs).
    reflexivity. }
  split; [reflexivity|]. split; [reflexivity|]. split; [reflexivity|].
  replace (Transaction.eventId t) with (Transaction.eventId t') by reflexivity.
  rewrite notify_organizer_returns.
  cbn [host set_transactions]. rewrite booked_host.
  replace (Transaction.eventId t') with eventId by (symmetry; exact Hev).
  reflexivity.
Qed.

Lemma payment_window_until_deadline_witness :
  JsDate.addLocal (host Sample.db0_spring) twoHours Sample.eve
  = Sample.eve + 60 * 60 * 1000
  /\ stored 1
       (Transaction.mk 1 20 1 1 None None 3 300000 0 300000
          (Sample.eve + 60 * 60 * 1000) WAITING_CONFIRMATION (Some "proof.png")
          None (Sample.eve + 60 * 60 * 1000))
       (snd (uploadPaymentProof 1 20 "proof.png" (Sample.eve + 60 * 60 * 1000)
               Sample.created_spring))
  /\ fst (uploadPaymentProof 1 20 "proof.png" (Sample.eve + 60 * 60 * 1000)
            Sample.created_spring)
     = Ok (Transaction.mk 1 20 1 1 None None 3 300000 0 300000
             (Sample.eve + 60 * 60 * 1000) WAITING_CONFIRMATION
             (Some "proof.png") None (Sample.eve + 60 * 60 * 1000)).
Proof.
  assert (Hk : transactionKeys Sample.db0_spring)
    by (split; [constructor | reflexivity]).
  assert (Hc : createTransaction 20 1 (Sample.body 3 None None None) Sample.eve
                 Sample.db0_spring
               = (Ok (Transaction.mk 1 20 1 1 None None 3 300000 0 300000
                        (Sample.eve + 60 * 60 * 1000) WAITING_PAYMENT None None
                        Sample.eve),
                  Sample.created_spring))
    by (unfold Sample.created_spring; apply pair_fst_snd; vm_compute; reflexivity).
  destruct (payment_window_until_deadline 20 1 (Sample.body 3 None None None)
              Sample.eve Sample.db0_spring _ _ (Sample.eve + 60 * 60 * 1000)
              "proof.png" Hk Hc)
    as (Hexp & _ & Hwin).
  split; [vm_compute; reflexivity|].
  destruct Hwin as (_ & Hst & _ & _ & _ & Hret).
  { vm_compute. discriminate. }
  split; [exact Hst|].
  apply Hret. repeat split; vm_compute; discriminate || reflexivity.
Defined.

(** What an accepted payment proof has done. *)
Lemma uploadPaymentProof_Ok (transactionId userId : Z) (proof : string) (now : Z)
    (db db' : DB) (t' : Transaction.t) :
  uploadPaymentProof transactionId userId proof now db = (Ok t', db') ->
  exists t,
    stored transactionId t db
    /\ Transaction.userId t = userId
    /\ Transaction.status t = WAITING_PAYMENT
    /\ now <= Transaction.expiredAt t
    /\ t' = setStatus WAITING_CONFIRMATION now (setPaymentProof proof t)
    /\ stored transactionId t' db'
    /\ host db' = host db.
Proof.
  unfold uploadPaymentProof. intros H.
  step_Ok H. inversion Hstep; subst; clear Hstep.
  destruct (findUnique Transaction.id transactionId (transactions db0))
    as [t|] eqn:Ht; [|discriminate].
  destruct (Transaction.userId t =? userId) eqn:Hu; [|discriminate].
  destruct (status_eqb (Transaction.status t) WAITING_PAYMENT) eqn:Hs;
    [|discriminate].
  cbn [negb] in H.
  destruct (Transaction.expiredAt t <? now) eqn:He.
  { step_Ok H. discriminate. }
  step_Ok H.
  rewrite (updateTransaction_returns transactionId
             (fun r => setStatus WAITING_CONFIRMATION now (setPaymentProof proof r))
             _ t (fun x => eq_refl) Ht) in Hstep.
  inversion Hstep; subst; clear Hstep.
  step_Ok H. apply deref_Ok in Hstep. destruct Hstep as [-> _].
  step_Ok H. apply deref_Ok in Hstep. destruct Hstep as [-> _].
  step_Ok H. apply await_Ok in Hstep. destruct Hstep as [-> _].
  inversion H; subst; clear H.
  exists t. split; [exact Ht|]. apply Z.eqb_eq in Hu. apply Z.ltb_ge in He.
  split; [exact Hu|].
  split; [destruct (Transaction.status t); try discriminate; reflexivity|].
  split; [exact He|]. split; [reflexivity|]. split; [|reflexivity].
  unfold stored. cbn [transactions set_transactions].
  apply (findUnique_updateRows Transaction.id _
           (fun r => setStatus WAITING_CONFIRMATION now (setPaymentProof proof r))
           _ t Ht).
  apply (findUnique_In _ _ _ _ Ht).
Qed.

Lemma stored_cancelTransactions (now id : Z) (t : Transaction.t) (db : DB) :
  transactionKeys db -> stored id t db ->
  status_eqb (Transaction.status t) WAITING_CONFIRMATION
  && (Transaction.updatedAt t <? threeDaysAgo now db) = false ->
  stored id t (snd (cancelTransactions now db)).
Proof.
  intros Hk Hs Hp. unfold cancelTransactions, bind, gets. cbv beta zeta.
  pose proof (stored_sweep
                (fun t => status_eqb (Transaction.status t) WAITING_CONFIRMATION
                          && (Transaction.updatedAt t <? threeDaysAgo now db))
                CANCELLED now id t db Hk Hs Hp) as H.
  destruct (forEach _ _ db) as [[u|e] db1]; simpl in *; exact H.
Qed.

(** X11.  The confirmation wait.  Once a payment proof is accepted at
    [now0] (transaction ids being keys), the transaction is
    WAITING_CONFIRMATION with [updatedAt = now0]; the auto-cancel sweep
    run at [now] leaves it as it is as long as its threshold
    [threeDaysAgo], which is [now] with its local date moved back by
    three days, is not after [now0]: on a host whose offset from UTC
    does not change, at every [now] up to three days after [now0].  The
    expiry sweep leaves it at any time. *)
Theorem confirmation_wait_until_threshold :
  forall transactionId userId proof now0 db t' db1 now,
    transactionKeys db ->
    uploadPaymentProof transactionId userId proof now0 db = (Ok t', db1) ->
    Transaction.status t' = WAITING_CONFIRMATION
    /\ Transaction.updatedAt t' = now0
    /\ (threeDaysAgo now db1 <= now0 ->
        stored transactionId t' (snd (cancelTransactions now db1)))
    /\ (Host.fixedOffset (host db) ->
        now <= now0 + threeDays ->
        stored transactionId t' (snd (cancelTransactions now db1)))
    /\ stored transactionId t' (snd (expireTransactions now db1)).
Proof.
  intros tid uid proof now0 db t' db1 now Hk H.
  pose proof (transactionKeys_serve (UploadPaymentProof tid uid proof) now0 db Hk)
    as Hk1.
  simpl in Hk1. rewrite H in Hk1. simpl in Hk1.
  apply uploadPaymentProof_Ok in H.
  destruct H as (t & _ & _ & _ & _ & -> & Hs' & Hhost).
  assert (Hleave : threeDaysAgo now db1 <= now0 ->
                   stored tid
                     (setStatus WAITING_CONFIRMATION now0 (setPaymentProof proof t))
                     (snd (cancelTransactions now db1))).
  { intros Hnow. apply stored_cancelTransactions; [exact Hk1 | exact Hs'|].
    simpl. apply Z.ltb_ge. exact Hnow. }
  split; [reflexivity|]. split; [reflexivity|]. split; [exact Hleave|]. split.
  - intros Hfix Hnow. apply Hleave. unfold threeDaysAgo. rewrite Hhost.
    rewrite (addLocal_fixedOffset _ _ _ Hfix). lia.
  - apply stored_expireTransactions; [exact Hk1 | exact Hs' | reflexivity].
Qed.

Lemma confirmation_wait_until_threshold_witness :
  exists t',
    fst (uploadPaymentProof 1 20 "proof.png" 100 Sample.created) = Ok t'
    /\ Transaction.status t' = WAITING_CONFIRMATION
    /\ Transaction.updatedAt t' = 100
    /\ stored 1 t' (snd (cancelTransactions (100 + threeDays) Sample.paid))
    /\ stored 1 t' (snd (expireTransactions (100 + threeDays) Sample.paid)).
Proof.
  exists (Transaction.mk 1 20 1 1 None None 3 300000 4000 296000
            (5 + twoHours) WAITING_CONFIRMATION (Some "proof.png") None 100).
  split; [vm_compute; reflexivity|].
  destruct (confirmation_wait_until_threshold 1 20 "proof.png" 100 Sample.created
              (Transaction.mk 1 20 1 1 None None 3 300000 4000 296000
                 (5 + twoHours) WAITING_CONFIRMATION (Some "proof.png") None 100)
              Sample.paid (100 + threeDays))
    as (Hstatus & Hclock & _ & Hwait & Hexpiry).
  - split; [vm_compute; repeat constructor; intros [] | reflexivity].
  - vm_compute. reflexivity.
  - split; [exact Hstatus|]. split; [exact Hclock|]. split; [|exact Hexpiry].
    apply Hwait; [exact fixedOffset_utc | apply Z.le_refl].
Defined.

End Reaper.


(** ** Rejecting and cancelling *)

Section Compensation.
Import TransactionService.

Lemma rolledBack_stored (id : Z) (t t0 : Transaction.t) (db : DB) :
  stored id t db -> stored id t (rolledBack t0 db).
Proof. unfold stored. rewrite rolledBack_transactions. auto. Qed.

Lemma rolledBack_host (t : Transaction.t) (db : DB) :
  host (rolledBack t db) = host db.
Proof.
  unfold rolledBack.
  destruct (truthy_id (Transaction.voucherId t));
    destruct (truthy_id (Transaction.couponId t));
    destruct (0 <? Transaction.pointsUsed t); reflexivity.
Qed.

(** The rest of [rejectTransaction] after its update. *)
Lemma notify_customer_run (t1 : Transaction.t) (now : Z) (db1 db' : DB)
    (res : result Transaction.t) :
  (deref (userOf t1) ;;;
   await (fun db => Host.sendEmail (host db) now) ;;;
   await (fun db => Host.createNotification (host db) now) ;;;
   ret t1) db1 = (res, db') ->
  db' = db1
  /\ match res with
     | Ok t' =>
         t' = t1
         /\ userOf t1 db1 <> None
         /\ Host.sendEmail (host db1) now = None
         /\ Host.createNotification (host db1) now = None
     | Throw e =>
         userOf t1 db1 = None
         \/ Host.sendEmail (host db1) now = Some e
         \/ Host.createNotification (host db1) now = Some e
     end.
Proof.
  unfold deref, await, bind, gets, ret, throw.
  destruct (userOf t1 db1) as [customer|] eqn:Hcust; cbv beta iota.
  2:{ intros H; inversion H. split; [reflexivity | left; reflexivity]. }
  destruct (Host.sendEmail (host db1) now) as [e|] eqn:Hmail; cbv beta iota.
  { intros H; inversion H. split; [reflexivity | right; left; reflexivity]. }
  destruct (Host.createNotification (host db1) now) as [e|] eqn:Hnote;
    cbv beta iota.
  { intros H; inversion H. split; [reflexivity | right; right; reflexivity]. }
  intros H; inversion H. split; [reflexivity|].
  repeat split; try reflexivity. discriminate.
Qed.

(** The rest of [cancelTransaction] after its update. *)
Lemma mail_organizer_run (t1 : Transaction.t) (now : Z) (db1 db' : DB)
    (res : result Transaction.t) :
  (deref (organizerUserOf (Transaction.eventId t1)) ;;;
   await (fun db => Host.sendEmail (host db) now) ;;;
   ret t1) db1 = (res, db') ->
  db' = db1
  /\ match res with
     | Ok t' =>
         t' = t1
         /\ organizerUserOf (Transaction.eventId t1) db1 <> None
         /\ Host.sendEmail (host db1) now = None
     | Throw e =>
         organizerUserOf (Transaction.eventId t1) db1 = None
         \/ Host.sendEmail (host db1) now = Some e
     end.
Proof.
  unfold deref, await, bind, gets, ret, throw.
  destruct (organizerUserOf (Transaction.eventId t1) db1) as [organizerUser|]
    eqn:Horg; cbv beta iota.
  2:{ intros H; inversion H. split; [reflexivity | left; reflexivity]. }
  destruct (Host.sendEmail (host db1) now) as [e|] eqn:Hmail; cbv beta iota.
  { intros H; inversion H. split; [reflexivity | right; reflexivity]. }
  intros H; inversion H. split; [reflexivity|].
  repeat split; try reflexivity. discriminate.
Qed.

(** X12.  What a call of [rejectTransaction] can do.  Either it throws
    and the database is as it was, or the rejection is committed: the
    call was made by the user of the organizer owning the event, on a
    WAITING_CONFIRMATION transaction, and the database is the one the
    rollback of that transaction leaves (its seats released to the ticket
    category), with the row REJECTED, stamped at [now], carrying the
    reason given, or its former reason if none is given.  With the
    rejection committed the call returns the row when the customer is
    found and the mail and the notification resolve; it throws when the
    customer is not found, the mail is rejected or the notification is
    rejected. *)
Theorem rejectTransaction_outcomes :
  forall transactionId organizerId reason now db res db',
    rejectTransaction transactionId organizerId reason now db = (res, db') ->
    (db' = db /\ exists e, res = Throw e)
    \/ exists org t ev,
         findOrganizerByUser organizerId db = Some org
         /\ stored transactionId t db
         /\ findUnique Event.id (Transaction.eventId t) (events db) = Some ev
         /\ Event.organizerId ev = Organizer.id org
         /\ Transaction.status t = WAITING_CONFIRMATION
         /\ stored transactionId
              (setStatus REJECTED now (setRejectionReason reason t)) db'
         /\ db' = set_transactions (transactions db') (rolledBack t db)
         /\ ticketTypes db'
            = updateRows TicketType.id (Transaction.ticketTypeId t)
                (releaseSeats (Transaction.ticketQty t)) (ticketTypes db)
         /\ match res with
            | Ok t' =>
                t' = setStatus REJECTED now (setRejectionReason reason t)
                /\ userOf t db' <> None
                /\ Host.sendEmail (host db) now = None
                /\ Host.createNotification (host db) now = None
            | Throw e =>
                userOf t db' = None
                \/ Host.sendEmail (host db) now = Some e
                \/ Host.createNotification (host db) now = Some e
            end.
Proof.
  intros tid oid reason now db res db'.
  unfold rejectTransaction.
  unfold bind at 1, gets at 1.
  destruct (findOrganizerByUser oid db) as [org|] eqn:Horg.
  2:{ intros H; inversion H; left; split; [reflexivity | eexists; reflexivity]. }
  unfold bind at 1, gets at 1.
  destruct (findUnique Transaction.id tid (transactions db)) as [t|] eqn:Ht.
  2:{ intros H; inversion H; left; split; [reflexivity | eexists; reflexivity]. }
  unfold bind at 1.
  pose proof (includeEvent_run (Transaction.eventId t) db) as Hinc.
  destruct (includeEvent (Transaction.eventId t) db) as [[ev|e0] db0] eqn:Hev.
  2:{ destruct (Hinc _ _ eq_refl) as [-> _].
      intros H; inversion H; left; split; [reflexivity | eexists; reflexivity]. }
  destruct (Hinc _ _ eq_refl) as [-> Hev']. specialize (Hev' ev eq_refl).
  destruct (Event.organizerId ev =? Organizer.id org) eqn:Ho.
  2:{ intros H; inversion H; left; split; [reflexivity | eexists; reflexivity]. }
  destruct (status_eqb (Transaction.status t) WAITING_CONFIRMATION) eqn:Hs.
  2:{ intros H; inversion H; left; split; [reflexivity | eexists; reflexivity]. }
  cbn [negb]. unfold bind at 1.
  destruct (rollbackTransaction tid db) as [[u|e1] db1] eqn:Hr.
  2:{ apply rollbackTransaction_Throw in Hr. subst.
      intros H; inversion H; left; split; [reflexivity | eexists; reflexivity]. }
  apply rollbackTransaction_Ok in Hr. destruct Hr as (t0 & Ht0 & ->).
  rewrite Ht in Ht0. inversion Ht0; subst t0; clear Ht0.
  unfold bind at 1.
  rewrite (updateTransaction_returns tid
             (fun r => setStatus REJECTED now (setRejectionReason reason r))
             _ t (fun x => eq_refl) (rolledBack_stored _ _ _ _ Ht)).
  set (t1 := setStatus REJECTED now (setRejectionReason reason t)).
  set (db1 := set_transactions _ (rolledBack t db)).
  assert (Hcommitted :
            stored tid t1 db1
            /\ db1 = set_transactions (transactions db1) (rolledBack t db)
            /\ ticketTypes db1
               = updateRows TicketType.id (Transaction.ticketTypeId t)
                   (releaseSeats (Transaction.ticketQty t)) (ticketTypes db)).
  { split; [|split].
    - unfold stored, db1. cbn [transactions set_transactions].
      rewrite rolledBack_transactions.
      apply (findUnique_updateRows Transaction.id _
               (fun r => setStatus REJECTED now (setRejectionReason reason r))
               _ t Ht).
      apply (findUnique_In _ _ _ _ Ht).
    - reflexivity.
    - unfold db1. cbn [ticketTypes set_transactions]. apply rolledBack_ticketTypes. }
  assert (Hhost : host db1 = host db)
    by (unfold db1; cbn [host set_transactions]; apply rolledBack_host).
  apply Z.eqb_eq in Ho.
  assert (Hst : Transaction.status t = WAITING_CONFIRMATION)
    by (destruct (Transaction.status t); try discriminate; reflexivity).
  destruct Hcommitted as (C1 & C2 & C3).
  intros H. apply notify_customer_run in H. destruct H as [-> Hres].
  rewrite Hhost in Hres.
  right. exists org, t, ev. split; [reflexivity|].
  repeat (split; [assumption|]). exact Hres.
Qed.

Lemma rejectTransaction_outcomes_witness :
  fst (rejectTransaction 1 10 (Some "unreadable") 200
         (Sample.hostedBy Sample.mailDown Sample.paid))
  = Throw (JsError "connect ECONNREFUSED")
  /\ ticketTypes (Sample.hostedBy Sample.mailDown Sample.paid)
     = [TicketType.mk 1 1 100000 10 7 3]
  /\ ticketTypes
       (snd (rejectTransaction 1 10 (Some "unreadable") 200
               (Sample.hostedBy Sample.mailDown Sample.paid)))
     = [TicketType.mk 1 1 100000 10 10 0]
  /\ stored 1
       (Transaction.mk 1 20 1 1 None None 3 300000 4000 296000
          (5 + twoHours) REJECTED (Some "proof.png") (Some "unreadable") 200)
       (snd (rejectTransaction 1 10 (Some "unreadable") 200
               (Sample.hostedBy Sample.mailDown Sample.paid))).
Proof.
  assert (H : rejectTransaction 1 10 (Some "unreadable") 200
                (Sample.hostedBy Sample.mailDown Sample.paid)
              = (Throw (JsError "connect ECONNREFUSED"),
                 snd (rejectTransaction 1 10 (Some "unreadable") 200
                        (Sample.hostedBy Sample.mailDown Sample.paid))))
    by (apply pair_fst_snd; vm_compute; reflexivity).
  split; [vm_compute; reflexivity|].
  split; [reflexivity|].
  destruct (rejectTransaction_outcomes _ _ _ _ _ _ _ H)
    as [[Hsame _]|(org & t & ev & _ & Ht & _ & _ & _ & Hst & _ & Htt & _)].
  - apply (f_equal ticketTypes) in Hsame. vm_compute in Hsame. discriminate Hsame.
  - vm_compute in Ht. inversion Ht; subst t; clear Ht.
    split; [rewrite Htt; vm_compute; reflexivity | exact Hst].
Defined.

(** X13.  What a call of [cancelTransaction] can do.  Either it throws
    and the database is as it was, or the cancellation is committed: the
    call was made by the buyer, on a transaction WAITING_PAYMENT or
    WAITING_CONFIRMATION, and the database is the one the rollback of
    that transaction leaves (its seats released), with the row CANCELLED
    and stamped at [now].  With the cancellation committed the call
    returns the row when the user of the event's organizer is found and
    the mail resolves; it throws when that user is not found or the mail
    is rejected. *)
Theorem cancelTransaction_outcomes :
  forall transactionId userId now db res db',
    cancelTransaction transactionId userId now db = (res, db') ->
    (db' = db /\ exists e, res = Throw e)
    \/ exists t,
         stored transactionId t db
         /\ Transaction.userId t = userId
         /\ (Transaction.status t = WAITING_PAYMENT
             \/ Transaction.status t = WAITING_CONFIRMATION)
         /\ stored transactionId (setStatus CANCELLED now t) db'
         /\ db' = set_transactions (transactions db') (rolledBack t db)
         /\ ticketTypes db'
            = updateRows TicketType.id (Transaction.ticketTypeId t)
                (releaseSeats (Transaction.ticketQty t)) (ticketTypes db)
         /\ match res with
            | Ok t' =>
                t' = setStatus CANCELLED now t
                /\ organizerUserOf (Transaction.eventId t) db' <> None
                /\ Host.sendEmail (host db) now = None
            | Throw e =>
                organizerUserOf (Transaction.eventId t) db' = None
                \/ Host.sendEmail (host db) now = Some e
            end.
Proof.
  intros tid uid now db res db'.
  unfold cancelTransaction.
  unfold bind at 1, gets at 1.
  destruct (findUnique Transaction.id tid (transactions db)) as [t|] eqn:Ht.
  2:{ intros H; inversion H; left; split; [reflexivity | eexists; reflexivity]. }
  destruct (Transaction.userId t =? uid) eqn:Hu.
  2:{ intros H; inversion H; left; split; [reflexivity | eexists; reflexivity]. }
  destruct (status_eqb (Transaction.status t) WAITING_PAYMENT
            || status_eqb (Transaction.status t) WAITING_CONFIRMATION) eqn:Hs.
  2:{ intros H; inversion H; left; split; [reflexivity | eexists; reflexivity]. }
  cbn [negb]. unfold bind at 1.
  destruct (rollbackTransaction tid db) as [[u|e1] db1] eqn:Hr.
  2:{ apply rollbackTransaction_Throw in Hr. subst.
      intros H; inversion H; left; split; [reflexivity | eexists; reflexivity]. }
  apply rollbackTransaction_Ok in Hr. destruct Hr as (t0 & Ht0 & ->).
  rewrite Ht in Ht0. inversion Ht0; subst t0; clear Ht0.
  unfold bind at 1.
  rewrite (updateTransaction_returns tid (setStatus CANCELLED now)
             _ t (fun x => eq_refl) (rolledBack_stored _ _ _ _ Ht)).
  set (t1 := setStatus CANCELLED now t).
  set (db1 := set_transactions _ (rolledBack t db)).
  assert (Hcommitted :
            stored tid t1 db1
            /\ db1 = set_transactions (transactions db1) (rolledBack t db)
            /\ ticketTypes db1
               = updateRows TicketType.id (Transaction.ticketTypeId t)
                   (releaseSeats (Transaction.ticketQty t)) (ticketTypes db)).
  { split; [|split].
    - unfold stored, db1. cbn [transactions set_transactions].
      rewrite rolledBack_transactions.
      apply (findUnique_updateRows Transaction.id _ (setStatus CANCELLED now)
               _ t Ht).
      apply (findUnique_In _ _ _ _ Ht).
    - reflexivity.
    - unfold db1. cbn [ticketTypes set_transactions]. apply rolledBack_ticketTypes. }
  assert (Hhost : host db1 = host db)
    by (unfold db1; cbn [host set_transactions]; apply rolledBack_host).
  apply Z.eqb_eq in Hu.
  assert (Hst : Transaction.status t = WAITING_PAYMENT
                \/ Transaction.status t = WAITING_CONFIRMATION)
    by (destruct (Transaction.status t); try discriminate; auto).
  destruct Hcommitted as (C1 & C2 & C3).
  intros H. apply mail_organizer_run in H. destruct H as [-> Hres].
  rewrite Hhost in Hres.
  right. exists t.
  repeat (split; [assumption|]). exact Hres.
Qed.

Lemma cancelTransaction_outcomes_witness :
  fst (cancelTransaction 1 20 50 (Sample.hostedBy Sample.mailDown Sample.created))
  = Throw (JsError "connect ECONNREFUSED")
  /\ ticketTypes (Sample.hostedBy Sample.mailDown Sample.created)
     = [TicketType.mk 1 1 100000 10 7 3]
  /\ ticketTypes
       (snd (cancelTransaction 1 20 50
               (Sample.hostedBy Sample.mailDown Sample.created)))
     = [TicketType.mk 1 1 100000 10 10 0]
  /\ stored 1
       (Transaction.mk 1 20 1 1 None None 3 300000 4000 296000
          (5 + twoHours) CANCELLED None None 50)
       (snd (cancelTransaction 1 20 50
               (Sample.hostedBy Sample.mailDown Sample.created))).
Proof.
  assert (H : cancelTransaction 1 20 50
                (Sample.hostedBy Sample.mailDown Sample.created)
              = (Throw (JsError "connect ECONNREFUSED"),
                 snd (cancelTransaction 1 20 50
                        (Sample.hostedBy Sample.mailDown Sample.created))))
    by (apply pair_fst_snd; vm_compute; reflexivity).
  split; [vm_compute; reflexivity|].
  split; [reflexivity|].
  destruct (cancelTransaction_outcomes _ _ _ _ _ _ H)
    as [[Hsame _]|(t & Ht & _ & _ & Hst & _ & Htt & _)].
  - apply (f_equal ticketTypes) in Hsame. vm_compute in Hsame. discriminate Hsame.
  - vm_compute in Ht. inversion Ht; subst t; clear Ht.
    split; [rewrite Htt; vm_compute; reflexivity | exact Hst].
Defined.

End Compensation.


(** ** Voucher quota *)

Section VoucherQuota.
Import TransactionService.

Lemma preserves_updateTransaction_ignoring (P : DB -> Prop) (k : Z)
    (f : Transaction.t -> Transaction.t) :
  ignoresTransactions P -> preserves P (updateTransaction k f).
Proof.
  intros HP. unfold updateTransaction. apply preserves_bind.
  - intros db H. unfold update.
    destruct (findUnique Transaction.id k (transactions db)); simpl;
      [apply HP; exact H | exact H].
  - intros _. apply preserves_bind; [apply preserves_gets|].
    intros [r|]; [apply preserves_ret | apply preserves_throw].
Qed.

Lemma preserves_createAttendee_ignoring (P : DB -> Prop) (a : Attendee.t) :
  ignoresAttendees P -> preserves P (createAttendee a).
Proof.
  intros HP db H. unfold createAttendee.
  destruct (existsb _ (attendees db)); simpl; [exact H | apply HP; exact H].
Qed.

(** The voucher a creation applied. *)
Lemma applyVoucher_Ok_voucher eventId now subtotal code (db db' : DB) vd vid :
  applyVoucher eventId now subtotal code db = (Ok (vd, vid), db') ->
  forall v, truthy_id vid = Some v ->
    exists r,
      In r (vouchers db)
      /\ Voucher.id r = v
      /\ Voucher.eventId r = eventId
      /\ Voucher.startDate r <= now <= Voucher.endDate r
      /\ Voucher.usedCount r < Voucher.usageLimit r
      /\ vd = voucherDiscountOf subtotal r.
Proof.
  unfold applyVoucher, bind, gets, ret, throw.
  destruct (truthy_string code) as [c|]; [|intros H; inversion H; discriminate].
  cbv beta.
  destruct (find _ (vouchers db)) as [v0|] eqn:E; [|discriminate].
  destruct (Voucher.usageLimit v0 <=? Voucher.usedCount v0) eqn:Hl; [discriminate|].
  intros H v Hv. inversion H; subst. simpl in Hv.
  destruct (Voucher.id v0 =? 0); [discriminate|]. inversion Hv; subst.
  apply find_some in E. destruct E as [Hin Hm].
  unfold voucherMatches in Hm.
  apply andb_true_iff in Hm. destruct Hm as [Hm H4].
  apply andb_true_iff in Hm. destruct Hm as [Hm H3].
  apply andb_true_iff in Hm. destruct Hm as [H1 H2].
  apply Z.eqb_eq in H1. apply Z.leb_le in H3, H4. apply Z.leb_gt in Hl.
  exists v0. repeat split; auto.
Qed.

Lemma voucherInvariant_ignoresTransactions : ignoresTransactions voucherInvariant.
Proof. intros rows db H. exact H. Qed.

Lemma voucherInvariant_ignoresAttendees : ignoresAttendees voucherInvariant.
Proof. intros rows db H. exact H. Qed.

Lemma preserves_voucher_rollbackTransaction (k : Z) :
  preserves voucherInvariant (rollbackTransaction k).
Proof.
  intros db [Hk Hl].
  destruct (rollbackTransaction k db) as [[u|e] db'] eqn:Hr; simpl.
  - apply rollbackTransaction_Ok in Hr. destruct Hr as (t & _ & ->).
    unfold voucherInvariant, voucherKeys, vouchersWithinLimit.
    rewrite rolledBack_vouchers.
    destruct (truthy_id (Transaction.voucherId t)) as [v|]; [|split; assumption].
    split.
    + rewrite map_key_updateRows by reflexivity. exact Hk.
    + apply forallb_updateRows; [exact Hl|].
      intros r _ Hr. simpl. apply Z.leb_le in Hr. apply Z.leb_le. lia.
  - apply rollbackTransaction_Throw in Hr. subst. split; assumption.
Qed.

Lemma preserves_voucher_createTransaction (userId eventId : Z)
    (body : CreateTransactionBody.t) (now : Z) :
  preserves voucherInvariant (createTransaction userId eventId body now).
Proof.
  intros db [Hk Hl].
  destruct (createTransaction userId eventId body now db) as [[t|e] db'] eqn:Hc;
    simpl.
  - apply createTransaction_Ok in Hc. cbv zeta in Hc.
    destruct Hc as (tt0 & ev & vd & vid & cd & cid & u & _ & _ & _ & _ & _ & _
                    & Hv & _ & _ & Ht & -> & _).
    assert (Evid : Transaction.voucherId t = vid) by (rewrite Ht; reflexivity).
    clear Ht.
    unfold voucherInvariant, voucherKeys, vouchersWithinLimit.
    rewrite booked_vouchers, Evid.
    destruct (truthy_id vid) as [v|] eqn:Hvid; [|split; assumption].
    destruct (applyVoucher_Ok_voucher _ _ _ _ _ _ _ _ Hv v Hvid)
      as (r & Hin & Hid & _ & _ & Hlt & _).
    split.
    + rewrite map_key_updateRows by reflexivity. exact Hk.
    + apply forallb_updateRows; [exact Hl|].
      intros r' Hr' _.
      rewrite <- Hid, (NoDup_findUnique Voucher.id _ r Hk Hin) in Hr'.
      inversion Hr'; subst r'. simpl. apply Z.leb_le. lia.
  - apply createTransaction_Throw in Hc. subst. split; assumption.
Qed.

Ltac keep_vouchers :=
  repeat first
    [ apply preserves_ret
    | apply preserves_throw
    | apply preserves_gets
    | apply preserves_voucher_rollbackTransaction
    | apply preserves_createAttendee_ignoring;
      apply voucherInvariant_ignoresAttendees
    | apply preserves_updateTransaction_ignoring;
      apply voucherInvariant_ignoresTransactions
    | apply preserves_when
    | apply preserves_forEach; intros ?
    | apply preserves_bind; [|intros ?]
    | match goal with
      | |- preserves _ (match ?x with _ => _ end) => destruct x
      end ].

Lemma voucherInvariant_serve (r : request) (now : Z) :
  preserves voucherInvariant (fun db => (Ok tt, serve r now db)).
Proof.
  intros db H. simpl. revert db H. destruct r; simpl.
  - apply preserves_voucher_createTransaction.
  - fold (preserves voucherInvariant
            (uploadPaymentProof transactionId userId paymentProof now)).
    unfold uploadPaymentProof. keep_vouchers.
  - fold (preserves voucherInvariant
            (confirmTransaction transactionId organizerId entropy now)).
    unfold confirmTransaction, includeEvent. keep_vouchers.
  - fold (preserves voucherInvariant
            (rejectTransaction transactionId organizerId reason now)).
    unfold rejectTransaction, includeEvent. keep_vouchers.
  - fold (preserves voucherInvariant (cancelTransaction transactionId userId now)).
    unfold cancelTransaction. keep_vouchers.
  - fold (preserves voucherInvariant (getMyTransactions userId now)).
    unfold getMyTransactions, rollbackAndMark. keep_vouchers.
  - fold (preserves voucherInvariant (getTransactionById transactionId userId now)).
    unfold getTransactionById, includeEvent, rollbackAndMark. keep_vouchers.
  - fold (preserves voucherInvariant (expireTransactions now)).
    unfold expireTransactions, rollbackAndMark. keep_vouchers.
  - fold (preserves voucherInvariant (cancelTransactions now)).
    unfold cancelTransactions, rollbackAndMark. keep_vouchers.
  - fold (preserves voucherInvariant (checkIn qrToken now)).
    unfold checkIn, includeEvent. keep_vouchers.
    intros db H. exact H.
Qed.

(** X14.  Voucher quota.  From a database whose voucher ids are keys and
    in which no voucher has been used more often than its limit, no
    sequence of requests, returning or throwing, ever brings a voucher's
    [usedCount] above its [usageLimit]. *)
Theorem vouchers_stay_within_limit :
  forall trace db,
    voucherKeys db ->
    vouchersWithinLimit db = true ->
    vouchersWithinLimit (run trace db) = true.
Proof.
  intros trace db Hk Hl.
  assert (H : voucherInvariant db) by (split; assumption).
  clear Hk Hl. revert db H.
  induction trace as [|[r now] rest IH]; simpl; intros db H.
  - apply H.
  - apply IH. apply (voucherInvariant_serve r now db H).
Qed.

Lemma vouchers_stay_within_limit_witness :
  vouchersWithinLimit (run Sample.trace Sample.db0) = true.
Proof.
  apply vouchers_stay_within_limit.
  - vm_compute. repeat constructor; simpl; intuition discriminate.
  - reflexivity.
Defined.

End VoucherQuota.


(** ** Vouchers and coupons at a purchase *)

Section Instruments.
Import TransactionService.




(** X16.  What a purchase refuses.  Naming a coupon code for which the
    buyer holds no unused, unexpired coupon, naming a voucher code for
    which the event has no voucher valid now, or naming a voucher whose
    quota is used up: in each case [createTransaction] does not return, and
    the database is as it was. *)
Theorem createTransaction_refuses_invalid_instruments :
  forall userId eventId body now db,
    (forall code,
        truthy_string (CreateTransactionBody.couponCode body) = Some code ->
        find (couponMatches userId now code) (coupons db) = None ->
        exists e, createTransaction userId eventId body now db = (Throw e, db))
    /\ (forall code,
          truthy_string (CreateTransactionBody.voucherCode body) = Some code ->
          find (voucherMatches eventId now code) (vouchers db) = None ->
          exists e, createTransaction userId eventId body now db = (Throw e, db))
    /\ (forall code v,
          truthy_string (CreateTransactionBody.voucherCode body) = Some code ->
          find (voucherMatches eventId now code) (vouchers db) = Some v ->
          Voucher.usageLimit v <= Voucher.usedCount v ->
          exists e, createTransaction userId eventId body now db = (Throw e, db)).
Proof.
  intros userId eventId body now db.
  assert (Hno : forall P : Prop,
             (forall t db', createTransaction userId eventId body now db = (Ok t, db')
                            -> P -> False) ->
             P -> exists e, createTransaction userId eventId body now db = (Throw e, db)).
  { intros P HP Hp.
    destruct (createTransaction userId eventId body now db) as [[t|e] db'] eqn:H.
    - exfalso. exact (HP t db' eq_refl Hp).
    - apply createTransaction_Throw in H. subst. exists e. reflexivity. }
  split; [|split].
  - intros code Hcode Hnone.
    apply (Hno (find (couponMatches userId now code) (coupons db) = None));
      [|exact Hnone].
    intros t db' H Hn. apply createTransaction_Ok in H. cbv zeta in H.
    destruct H as (tt0 & ev & vd & vid & cd & cid & u & _ & _ & _ & _ & _ & _
                   & _ & Hcp & _).
    unfold applyCoupon, bind, gets, throw in Hcp. rewrite Hcode in Hcp.
    cbv beta in Hcp. rewrite Hn in Hcp. discriminate.
  - intros code Hcode Hnone.
    apply (Hno (find (voucherMatches eventId now code) (vouchers db) = None));
      [|exact Hnone].
    intros t db' H Hn. apply createTransaction_Ok in H. cbv zeta in H.
    destruct H as (tt0 & ev & vd & vid & cd & cid & u & _ & _ & _ & _ & _ & _
                   & Hv & _).
    unfold applyVoucher, bind, gets, throw in Hv. rewrite Hcode in Hv.
    cbv beta in Hv. rewrite Hn in Hv. discriminate.
  - intros code v Hcode Hfound Hfull.
    apply (Hno (find (voucherMatches eventId now code) (vouchers db) = Some v));
      [|exact Hfound].
    intros t db' H Hf. apply createTransaction_Ok in H. cbv zeta in H.
    destruct H as (tt0 & ev & vd & vid & cd & cid & u & _ & _ & _ & _ & _ & _
                   & Hv & _).
    unfold applyVoucher, bind, gets, throw in Hv. rewrite Hcode in Hv.
    cbv beta in Hv. rewrite Hf in Hv.
    apply Z.leb_le in Hfull. rewrite Hfull in Hv. discriminate.
Qed.

Lemma createTransaction_refuses_invalid_instruments_witness :
  (exists e,
      let spent :=
        snd (createTransaction 20 1
               (Sample.body 2 (Some "V10") (Some "CPN") None) 5 Sample.db0) in
      createTransaction 20 1 (Sample.body 1 None (Some "CPN") None) 6 spent
      = (Throw e, spent))
  /\ (exists e,
        createTransaction 20 1 (Sample.body 1 (Some "NOPE") None None) 5 Sample.db0
        = (Throw e, Sample.db0))
  /\ (exists e,
        let full :=
          set_vouchers [Voucher.mk 1 1 "V29" 29 PERCENTAGE 0 (50 * Sample.day) 5 5]
                       Sample.db0 in
        createTransaction 20 1 (Sample.body 1 (Some "V29") None None) 5 full
        = (Throw e, full)).
Proof.
  split; [|split]; cbv zeta.
  - apply (proj1 (createTransaction_refuses_invalid_instruments 20 1
                    (Sample.body 1 None (Some "CPN") None) 6 _) "CPN");
      vm_compute; reflexivity.
  - apply (proj1 (proj2 (createTransaction_refuses_invalid_instruments 20 1
                           (Sample.body 1 (Some "NOPE") None None) 5 Sample.db0))
             "NOPE"); vm_compute; reflexivity.
  - apply (proj2 (proj2 (createTransaction_refuses_invalid_instruments 20 1
                           (Sample.body 1 (Some "V29") None None) 5 _))
             "V29" (Voucher.mk 1 1 "V29" 29 PERCENTAGE 0 (50 * Sample.day) 5 5));
      vm_compute; try reflexivity. discriminate.
Defined.

End Instruments.


(** ** Tickets and check-in *)

Section Tickets.
Import TransactionService.

(** What a confirmation that returns has done. *)
Lemma confirmTransaction_Ok (transactionId organizerId : Z) (entropy : nat -> N)
    (now : Z) (db db' : DB) (t' : Transaction.t) :
  tokensUnique db ->
  confirmTransaction transactionId organizerId entropy now db = (Ok t', db') ->
  exists t,
    stored transactionId t db
    /\ Transaction.status t = WAITING_CONFIRMATION
    /\ t' = setStatus DONE now t
    /\ stored transactionId t' db'
    /\ attendees db'
       = attendees db
         ++ map (fun i => Attendee.mk (Transaction.id t) (Transaction.userId t)
                            (Transaction.eventId t) (Transaction.ticketTypeId t)
                            (toHex (randomBytes 32 (entropy i))) false None)
                (seq 0 (Z.to_nat (Transaction.ticketQty t)))
    /\ tokensUnique db'.
Proof.
  intros Huniq H. unfold confirmTransaction in H.
  step_Ok H. inversion Hstep; subst; clear Hstep.
  destruct (findOrganizerByUser organizerId _) as [org|]; [|discriminate].
  step_Ok H. inversion Hstep; subst; clear Hstep.
  destruct (findUnique Transaction.id transactionId _) as [t|] eqn:Ht;
    [|discriminate].
  step_Ok H. apply includeEvent_run in Hstep. destruct Hstep as [-> _].
  destruct (negb (Event.organizerId _ =? Organizer.id org)); [discriminate|].
  destruct (status_eqb (Transaction.status t) WAITING_CONFIRMATION) eqn:Hs;
    [|discriminate].
  cbn [negb] in H.
  step_Ok H.
  rewrite (updateTransaction_returns transactionId (setStatus DONE now) _ t
             (fun x => eq_refl) Ht) in Hstep.
  inversion Hstep; subst; clear Hstep.
  step_Ok H.
  apply forEach_createAttendee in Hstep; [|exact Huniq].
  destruct Hstep as [-> Huniq'].
  step_Ok H. apply forEach_await_Ok in Hstep. subst.
  step_Ok H. apply deref_Ok in Hstep. destruct Hstep as [-> _].
  step_Ok H. apply await_Ok in Hstep. destruct Hstep as [-> _].
  unfold ret in H.
  pose proof (f_equal fst H) as Hres. pose proof (f_equal snd H) as Hdb.
  cbn [fst snd] in Hres, Hdb. clear H. injection Hres as <-. subst db'.
  exists t. split; [exact Ht|].
  split; [destruct (Transaction.status t); try discriminate; reflexivity|].
  split; [reflexivity|]. split.
  { unfold stored. cbn [transactions set_attendees set_transactions].
    apply (findUnique_updateRows Transaction.id _ (setStatus DONE now) _ t Ht).
    apply (findUnique_In _ _ _ _ Ht). }
  split; [reflexivity | exact Huniq'].
Qed.

Lemma NoDup_app_tail {A} (l1 l2 : list A) : NoDup (l1 ++ l2) -> NoDup l2.
Proof.
  induction l1 as [|x l1 IH]; simpl; intros H; [exact H|].
  inversion H; subst. apply IH. assumption.
Qed.

(** X17.  Tickets after settlement.  When a confirmation returns on a
    transaction that had no attendee rows (check-in tokens being distinct),
    the buyer asking for the tickets of the transaction gets exactly
    [ticketQty] of them, none checked in, with non-empty, pairwise distinct
    tokens, and the call changes nothing; any other user is refused with
    status 403. *)
Theorem tickets_after_confirmation :
  forall transactionId organizerId entropy now db t t' db',
    stored transactionId t db ->
    tokensUnique db ->
    attendeesOf transactionId db = [] ->
    confirmTransaction transactionId organizerId entropy now db = (Ok t', db') ->
    (exists res,
        getTicketsByTransaction transactionId (Transaction.userId t) db'
        = (Ok res, db')
        /\ TicketsResult.transactionId res = transactionId
        /\ TicketsResult.ticketQty res = Transaction.ticketQty t
        /\ List.length (TicketsResult.tickets res)
           = Z.to_nat (Transaction.ticketQty t)
        /\ Forall (fun k => Ticket.checkedIn k = false /\ Ticket.qrToken k <> "")
                  (TicketsResult.tickets res)
        /\ NoDup (map Ticket.qrToken (TicketsResult.tickets res)))
    /\ (forall other,
          other <> Transaction.userId t ->
          getTicketsByTransaction transactionId other db'
          = (Throw (ApiError "You don't have permission to view these tickets" 403),
             db')).
Proof.
  intros tid oid entropy now db t t' db' Hst Huniq Hnone H.
  apply confirmTransaction_Ok in H; [|exact Huniq].
  destruct H as (t0 & Ht0 & _ & -> & Hst' & Hatt & Huniq').
  unfold stored in Hst, Ht0. rewrite Hst in Ht0. inversion Ht0; subst t0; clear Ht0.
  pose proof (findUnique_In _ _ _ _ Hst) as [_ Hid].
  unfold getTicketsByTransaction, bind, gets. cbv beta.
  unfold stored in Hst'. rewrite Hst'.
  cbn [Transaction.userId Transaction.status Transaction.id Transaction.ticketQty
       setStatus status_eqb negb].
  split.
  - rewrite Z.eqb_refl. cbn [negb].
    eexists. split; [reflexivity|].
    cbn [TicketsResult.transactionId TicketsResult.ticketQty TicketsResult.tickets].
    assert (Hof : attendeesOf (Transaction.id t) db'
                  = map (fun i => Attendee.mk (Transaction.id t) (Transaction.userId t)
                                    (Transaction.eventId t) (Transaction.ticketTypeId t)
                                    (toHex (randomBytes 32 (entropy i))) false None)
                        (seq 0 (Z.to_nat (Transaction.ticketQty t)))).
    { unfold attendeesOf. rewrite Hatt, filter_app.
      unfold attendeesOf in Hnone. rewrite Hid, Hnone. cbn [app].
      apply filter_all. apply forallb_forall. intros x Hx.
      apply in_map_iff in Hx. destruct Hx as (i & <- & _).
      cbn [Attendee.transactionId]. apply Z.eqb_refl. }
    rewrite Hof.
    split; [exact Hid|]. split; [reflexivity|].
    split; [rewrite !length_map, length_seq; reflexivity|].
    split.
    + apply Forall_forall. intros k Hk. apply in_map_iff in Hk.
      destruct Hk as (x & <- & Hx). apply in_map_iff in Hx.
      destruct Hx as (i & <- & _). cbn [toTicket Ticket.checkedIn Ticket.qrToken
        Attendee.checkedIn Attendee.qrToken].
      split; [reflexivity | apply toHex_randomBytes_nonempty].
    + unfold tokensUnique in Huniq'. rewrite Hatt, map_app in Huniq'.
      apply NoDup_app_tail in Huniq'.
      rewrite !map_map. rewrite map_map in Huniq'. exact Huniq'.
  - intros other Hne.
    destruct (Transaction.userId t =? other) eqn:E;
      [apply Z.eqb_eq in E; congruence | reflexivity].
Qed.

Lemma tickets_after_confirmation_witness :
  exists res,
    getTicketsByTransaction 1 20 Sample.confirmed = (Ok res, Sample.confirmed)
    /\ TicketsResult.transactionId res = 1
    /\ TicketsResult.ticketQty res = 3
    /\ List.length (TicketsResult.tickets res) = Z.to_nat 3
    /\ Forall (fun k => Ticket.checkedIn k = false /\ Ticket.qrToken k <> "")
              (TicketsResult.tickets res)
    /\ NoDup (map Ticket.qrToken (TicketsResult.tickets res)).
Proof.
  pose (t := Transaction.mk 1 20 1 1 None None 3 300000 4000 296000
               (5 + twoHours) WAITING_CONFIRMATION (Some "proof.png") None 100).
  pose (t' := Transaction.mk 1 20 1 1 None None 3 300000 4000 296000
                (5 + twoHours) DONE (Some "proof.png") None 200).
  assert (H1 : stored 1 t Sample.paid) by (vm_compute; reflexivity).
  assert (H2 : tokensUnique Sample.paid) by constructor.
  assert (H3 : attendeesOf 1 Sample.paid = []) by (vm_compute; reflexivity).
  assert (H4 : confirmTransaction 1 10 Sample.entropy 200 Sample.paid
               = (Ok t', Sample.confirmed)) by (vm_compute; reflexivity).
  exact (proj1 (tickets_after_confirmation 1 10 Sample.entropy 200 Sample.paid
                  t t' Sample.confirmed H1 H2 H3 H4)).
Defined.

(** *** Check-in *)

Lemma find_token_map_other (q q' : string) (f : Attendee.t -> Attendee.t)
    (l : list Attendee.t) :
  (forall a, Attendee.qrToken (f a) = Attendee.qrToken a) ->
  q' <> q ->
  find (fun a => String.eqb (Attendee.qrToken a) q')
       (map (fun b => if String.eqb (Attendee.qrToken b) q then f b else b) l)
  = find (fun a => String.eqb (Attendee.qrToken a) q') l.
Proof.
  intros Hf Hne. induction l as [|b l IH]; simpl; [reflexivity|].
  destruct (String.eqb (Attendee.qrToken b) q) eqn:E.
  - rewrite Hf. apply String.eqb_eq in E.
    destruct (String.eqb (Attendee.qrToken b) q') eqn:E'.
    + apply String.eqb_eq in E'. congruence.
    + exact IH.
  - destruct (String.eqb (Attendee.qrToken b) q'); [reflexivity | exact IH].
Qed.

(** The database [checkIn] leaves: the one it received, or that one with
    the attendee of the token, until then not checked in, stamped. *)
Lemma checkIn_state (q : string) (now : Z) (db : DB) :
  snd (checkIn q now db) = db
  \/ exists a,
      findAttendee q db = Some a
      /\ Attendee.checkedIn a = false
      /\ snd (checkIn q now db)
         = set_attendees
             (map (fun b => if String.eqb (Attendee.qrToken b) q
                            then setCheckedIn now b else b) (attendees db)) db.
Proof.
  unfold checkIn, bind, gets, modify, ret, throw. cbv beta.
  destruct (findAttendee q db) as [a|] eqn:Ha; [|left; reflexivity].
  cbv beta iota.
  destruct (findUnique Transaction.id (Attendee.transactionId a) (transactions db))
    as [t|]; [|left; reflexivity].
  cbv beta iota.
  pose proof (includeEvent_state (Attendee.eventId a) db) as Hinc.
  destruct (includeEvent (Attendee.eventId a) db) as [[ev|e] db0];
    simpl in Hinc; subst db0; [|left; reflexivity].
  destruct (negb (status_eqb (Transaction.status t) DONE)); [left; reflexivity|].
  destruct (eventEnded ev now); [left; reflexivity|].
  destruct (Attendee.checkedIn a) eqn:Hc; [left; reflexivity|].
  right. exists a. auto.
Qed.

Lemma rolledBack_attendees (t : Transaction.t) (db : DB) :
  attendees (rolledBack t db) = attendees db.
Proof.
  unfold rolledBack.
  destruct (truthy_id (Transaction.voucherId t));
    destruct (truthy_id (Transaction.couponId t));
    destruct (0 <? Transaction.pointsUsed t); reflexivity.
Qed.

Lemma booked_attendees (t : Transaction.t) (title : string) (now : Z) (db : DB) :
  attendees (booked t title now db) = attendees db.
Proof.
  unfold booked.
  destruct (truthy_id (Transaction.voucherId t));
    destruct (truthy_id (Transaction.couponId t));
    destruct (0 <? Transaction.pointsUsed t); reflexivity.
Qed.

Lemma aboutAttendees_admitted (q : string) (a : Attendee.t) :
  aboutAttendees (admitted q a).
Proof. intros db db' H. unfold admitted, findAttendee. rewrite H. auto. Qed.

Lemma preserves_rollbackTransaction_attendees (P : DB -> Prop) (k : Z) :
  aboutAttendees P -> preserves P (rollbackTransaction k).
Proof.
  intros HP db H.
  destruct (rollbackTransaction k db) as [[u|e] db'] eqn:Hr; simpl.
  - apply rollbackTransaction_Ok in Hr. destruct Hr as (t & _ & ->).
    eapply HP; [apply rolledBack_attendees | exact H].
  - apply rollbackTransaction_Throw in Hr. subst. exact H.
Qed.

Lemma preserves_createTransaction_attendees (P : DB -> Prop) (userId eventId : Z)
    (body : CreateTransactionBody.t) (now : Z) :
  aboutAttendees P -> preserves P (createTransaction userId eventId body now).
Proof.
  intros HP db H.
  destruct (createTransaction userId eventId body now db) as [[t|e] db'] eqn:Hc;
    simpl.
  - apply createTransaction_Ok in Hc. cbv zeta in Hc.
    destruct Hc as (tt0 & ev & vd & vid & cd & cid & u & _ & _ & _ & _ & _ & _
                    & _ & _ & _ & _ & -> & _).
    eapply HP; [apply booked_attendees | exact H].
  - apply createTransaction_Throw in Hc. subst. exact H.
Qed.

Lemma find_app_found {A : Type} (p : A -> bool) (l l' : list A) (x : A) :
  find p l = Some x -> find p (l ++ l') = Some x.
Proof.
  induction l as [|y l IH]; simpl; [discriminate|].
  destruct (p y); [auto | exact IH].
Qed.

Lemma preserves_admitted_createAttendee (q : string) (a new : Attendee.t) :
  preserves (admitted q a) (createAttendee new).
Proof.
  intros db H. unfold createAttendee.
  destruct (existsb _ (attendees db)); simpl; [exact H|].
  unfold admitted, findAttendee in *. simpl.
  apply find_app_found. exact H.
Qed.

Lemma preserves_admitted_checkIn (q : string) (a : Attendee.t) (q' : string)
    (now : Z) :
  Attendee.checkedIn a = true ->
  preserves (admitted q a) (checkIn q' now).
Proof.
  intros Hc db H.
  destruct (checkIn_state q' now db) as [->|(b & Hb & Hbc & ->)]; [exact H|].
  unfold admitted, findAttendee in *. simpl.
  destruct (String.eqb q q') eqn:E.
  - apply String.eqb_eq in E. subst q'. rewrite H in Hb. inversion Hb; subst.
    congruence.
  - apply String.eqb_neq in E.
    rewrite find_token_map_other by (reflexivity || exact E). exact H.
Qed.

Ltac keep_admitted :=
  repeat first
    [ apply preserves_ret
    | apply preserves_throw
    | apply preserves_gets
    | apply preserves_rollbackTransaction_attendees; apply aboutAttendees_admitted
    | apply preserves_admitted_createAttendee
    | apply preserves_updateTransaction_ignoring; intros ? ? ?; assumption
    | apply preserves_when
    | apply preserves_forEach; intros ?
    | apply preserves_bind; [|intros ?]
    | match goal with
      | |- preserves _ (match ?x with _ => _ end) => destruct x
      end ].

Lemma admitted_serve (q : string) (a : Attendee.t) (r : request) (now : Z) (db : DB) :
  Attendee.checkedIn a = true ->
  admitted q a db -> admitted q a (serve r now db).
Proof.
  intros Hc. revert db. destruct r; simpl.
  - apply preserves_createTransaction_attendees, aboutAttendees_admitted.
  - fold (preserves (admitted q a)
            (uploadPaymentProof transactionId userId paymentProof now)).
    unfold uploadPaymentProof. keep_admitted.
  - fold (preserves (admitted q a)
            (confirmTransaction transactionId organizerId entropy now)).
    unfold confirmTransaction, includeEvent. keep_admitted.
  - fold (preserves (admitted q a)
            (rejectTransaction transactionId organizerId reason now)).
    unfold rejectTransaction, includeEvent. keep_admitted.
  - fold (preserves (admitted q a) (cancelTransaction transactionId userId now)).
    unfold cancelTransaction. keep_admitted.
  - fold (preserves (admitted q a) (getMyTransactions userId now)).
    unfold getMyTransactions, rollbackAndMark. keep_admitted.
  - fold (preserves (admitted q a) (getTransactionById transactionId userId now)).
    unfold getTransactionById, includeEvent, rollbackAndMark. keep_admitted.
  - fold (preserves (admitted q a) (expireTransactions now)).
    unfold expireTransactions, rollbackAndMark. keep_admitted.
  - fold (preserves (admitted q a) (cancelTransactions now)).
    unfold cancelTransactions, rollbackAndMark. keep_admitted.
  - apply preserves_admitted_checkIn. exact Hc.
Qed.

(** X18.  A check-in is permanent.  An attendee found under a token and
    checked in stays exactly as stored, [checkedInAt] included, under that
    token after any sequence of requests. *)
Theorem checked_in_attendee_is_final :
  forall trace db qrToken a,
    findAttendee qrToken db = Some a ->
    Attendee.checkedIn a = true ->
    findAttendee qrToken (run trace db) = Some a.
Proof.
  induction trace as [|[r now] rest IH]; simpl; intros db q a Ha Hc.
  - exact Ha.
  - apply IH; [|exact Hc]. apply admitted_serve; assumption.
Qed.

Lemma checked_in_attendee_is_final_witness :
  findAttendee (toHex (randomBytes 32 1))
    (run [(CheckIn (toHex (randomBytes 32 1)), 400);
          (CancelTransactions, 500);
          (CreateTransaction 20 1 (Sample.body 1 None None None), 600)]
         (snd (checkIn (toHex (randomBytes 32 1)) 300 Sample.confirmed)))
  = Some (Attendee.mk 1 20 1 1 (toHex (randomBytes 32 1)) true (Some 300)).
Proof.
  apply checked_in_attendee_is_final; vm_compute; reflexivity.
Defined.

Lemma map_token_checkIn (q : string) (now : Z) (l : list Attendee.t) :
  map Attendee.qrToken
      (map (fun b => if String.eqb (Attendee.qrToken b) q
                     then setCheckedIn now b else b) l)
  = map Attendee.qrToken l.
Proof.
  induction l as [|b l IH]; simpl; [reflexivity|].
  rewrite IH. destruct (String.eqb (Attendee.qrToken b) q); reflexivity.
Qed.

(** X19.  What a call of [checkIn] can do.  A call that throws leaves the
    database as it was.  A call that returns found the attendee of the
    token, with a transaction in status DONE and an event that has not
    ended; it reports success exactly when the attendee was not yet
    checked in; it leaves every attendee of another token and every
    table but [attendees] as they were, and no token is added, removed or
    changed. *)
Theorem checkIn_outcomes :
  forall qrToken now db res db',
    checkIn qrToken now db = (res, db') ->
    match res with
    | Throw _ => db' = db
    | Ok r =>
      exists a t ev,
        findAttendee qrToken db = Some a
        /\ findUnique Transaction.id (Attendee.transactionId a) (transactions db)
           = Some t
        /\ Transaction.status t = DONE
        /\ findUnique Event.id (Attendee.eventId a) (events db) = Some ev
        /\ eventEnded ev now = false
        /\ CheckInResult.success r = negb (Attendee.checkedIn a)
        /\ (forall q', q' <> qrToken -> findAttendee q' db' = findAttendee q' db)
        /\ map Attendee.qrToken (attendees db')
           = map Attendee.qrToken (attendees db)
        /\ set_attendees (attendees db) db' = db
    end.
Proof.
  intros q now db res db' H.
  unfold checkIn, includeEvent, bind, gets, modify, ret, throw in H.
  cbv beta in H.
  destruct (findAttendee q db) as [a|] eqn:Ha;
    [|inversion H; subst; reflexivity].
  cbv beta iota in H.
  destruct (findUnique Transaction.id (Attendee.transactionId a) (transactions db))
    as [t|] eqn:Ht; [|inversion H; subst; reflexivity].
  cbv beta iota in H.
  destruct (findUnique Event.id (Attendee.eventId a) (events db)) as [ev|] eqn:Hev;
    [|inversion H; subst; reflexivity].
  cbv beta iota in H.
  destruct (status_eqb (Transaction.status t) DONE) eqn:Hs;
    cbn [negb] in H; [|inversion H; subst; reflexivity].
  assert (Hs' : Transaction.status t = DONE)
    by (destruct (Transaction.status t); (reflexivity || discriminate Hs)).
  clear Hs.
  destruct (eventEnded ev now) eqn:He; [inversion H; subst; reflexivity|].
  destruct (Attendee.checkedIn a) eqn:Hc; inversion H; subst; clear H;
    exists a, t, ev; (split; [reflexivity|]); repeat (split; [assumption|]);
    (split; [rewrite Hc; reflexivity|]).
  - split; [reflexivity|]. split; [reflexivity|]. destruct db'; reflexivity.
  - split.
    + intros q' Hne. unfold findAttendee. cbn [attendees set_attendees].
      destruct db; cbn [attendees].
      apply find_token_map_other; [reflexivity | exact Hne].
    + split.
      * destruct db; cbn [attendees set_attendees]. apply map_token_checkIn.
      * destruct db; reflexivity.
Qed.

Lemma checkIn_outcomes_witness :
  exists a t ev,
    findAttendee (toHex (randomBytes 32 1)) Sample.confirmed = Some a
    /\ findUnique Transaction.id (Attendee.transactionId a)
         (transactions Sample.confirmed) = Some t
    /\ Transaction.status t = DONE
    /\ findUnique Event.id (Attendee.eventId a) (events Sample.confirmed) = Some ev
    /\ eventEnded ev 300 = false
    /\ true = negb (Attendee.checkedIn a)
    /\ (forall q', q' <> toHex (randomBytes 32 1) ->
        findAttendee q' (snd (checkIn (toHex (randomBytes 32 1)) 300 Sample.confirmed))
        = findAttendee q' Sample.confirmed)
    /\ map Attendee.qrToken
         (attendees (snd (checkIn (toHex (randomBytes 32 1)) 300 Sample.confirmed)))
       = map Attendee.qrToken (attendees Sample.confirmed)
    /\ set_attendees (attendees Sample.confirmed)
         (snd (checkIn (toHex (randomBytes 32 1)) 300 Sample.confirmed))
       = Sample.confirmed.
Proof.
  assert (H : checkIn (toHex (randomBytes 32 1)) 300 Sample.confirmed
              = (Ok (CheckInResult.mk true "Check-in successful!" "Gig" (Some 300)),
                 snd (checkIn (toHex (randomBytes 32 1)) 300 Sample.confirmed)))
    by (vm_compute; reflexivity).
  exact (checkIn_outcomes _ _ _ _ _ H).
Defined.

End Tickets.
